(** * Trusty Keymaster context: a shallow embedding of
      [trusty_keymaster_context.cpp] and the properties checked on it.

    The file follows the source top-down.  Out-parameters of the C++
    methods are components of the results, and a pointer the source tests
    against null is an [out_ptr] argument; values that live in the
    context object are fields of [TrustyKeymasterContext]; the services the
    source calls but does not define (blob codec, authenticated
    encryption, hardware key derivation, secure storage, key factories and
    their operations, certificate generation) are the fields of
    [Collaborators]; the numeric values of enumerators that travel through
    the 32-bit [enumerated] member of a key parameter are the fields of
    [KeymasterDefs], and the preprocessor switches are the fields of
    [BuildConfig].

    Memory: the allocations behind [Reset] of the master-key buffer,
    behind [Reinitialize] and [write] on the two buffers of step 4 of
    [UnwrapKey], and behind the copy of a key into a [KeymasterKeyBlob],
    are answers of [Collaborators].  The growth of an
    [AuthorizationSet] in [push_back], and the input buffer of the RSA
    [Finish] in [UnwrapKey], are taken to succeed: the embedding
    describes the runs in which they do. *)

From Stdlib Require Import ZArith List Bool Lia.
From Stdlib Require Import Init.Byte Strings.Byte.
Import ListNotations.
Local Open Scope Z_scope.

(* ================================================================== *)
(** ** Enumerations named by the source *)

(** [keymaster_error_t], restricted to the codes the source names;
    collaborators may hand back any other code. *)
Inductive keymaster_error_t : Type :=
| KM_ERROR_OK
| KM_ERROR_MEMORY_ALLOCATION_FAILED
| KM_ERROR_UNKNOWN_ERROR
| KM_ERROR_INVALID_KEY_BLOB
| KM_ERROR_ROLLBACK_RESISTANCE_UNAVAILABLE
| KM_ERROR_INVALID_ARGUMENT
| KM_ERROR_UNIMPLEMENTED
| KM_ERROR_UNEXPECTED_NULL_POINTER
| KM_ERROR_UNSUPPORTED_ALGORITHM
| KM_ERROR_INCOMPATIBLE_ALGORITHM
| KM_ERROR_SECURE_HW_COMMUNICATION_FAILED
| KM_ERROR_ROOT_OF_TRUST_ALREADY_SET
| KM_ERROR_INCOMPATIBLE_PURPOSE
| KM_ERROR_INCOMPATIBLE_DIGEST
| KM_ERROR_INCOMPATIBLE_PADDING_MODE
| KM_ERROR_NO_USER_CONFIRMATION
| KM_ERROR_other (code : Z).

Definition is_ok (e : keymaster_error_t) : bool :=
  match e with KM_ERROR_OK => true | _ => false end.

(** [keymaster_tag_t]: every tag the source names, and [KM_TAG_other] for
    a tag value the source does not name (the [switch] of
    [SetAuthorizations] has no [default:]). *)
Inductive keymaster_tag_t : Type :=
| KM_TAG_ASSOCIATED_DATA | KM_TAG_AUTH_TOKEN | KM_TAG_BOOTLOADER_ONLY
| KM_TAG_INVALID | KM_TAG_MAC_LENGTH | KM_TAG_NONCE | KM_TAG_ROOT_OF_TRUST
| KM_TAG_UNIQUE_ID | KM_TAG_IDENTITY_CREDENTIAL_KEY
| KM_TAG_ATTESTATION_APPLICATION_ID | KM_TAG_ATTESTATION_CHALLENGE
| KM_TAG_ATTESTATION_ID_BRAND | KM_TAG_ATTESTATION_ID_DEVICE
| KM_TAG_ATTESTATION_ID_IMEI | KM_TAG_ATTESTATION_ID_MANUFACTURER
| KM_TAG_ATTESTATION_ID_MEID | KM_TAG_ATTESTATION_ID_MODEL
| KM_TAG_ATTESTATION_ID_PRODUCT | KM_TAG_ATTESTATION_ID_SERIAL
| KM_TAG_CERTIFICATE_NOT_AFTER | KM_TAG_CERTIFICATE_NOT_BEFORE
| KM_TAG_CERTIFICATE_SERIAL | KM_TAG_CERTIFICATE_SUBJECT
| KM_TAG_RESET_SINCE_ID_ROTATION
| KM_TAG_ROLLBACK_RESISTANCE | KM_TAG_DEVICE_UNIQUE_ATTESTATION
| KM_TAG_ALLOW_WHILE_ON_BODY
| KM_TAG_ALL_APPLICATIONS | KM_TAG_ROLLBACK_RESISTANT
| KM_TAG_CONFIRMATION_TOKEN
| KM_TAG_APPLICATION_ID | KM_TAG_APPLICATION_DATA
| KM_TAG_BOOT_PATCHLEVEL | KM_TAG_ORIGIN | KM_TAG_OS_PATCHLEVEL
| KM_TAG_OS_VERSION | KM_TAG_VENDOR_PATCHLEVEL
| KM_TAG_ALGORITHM | KM_TAG_AUTH_TIMEOUT | KM_TAG_BLOB_USAGE_REQUIREMENTS
| KM_TAG_BLOCK_MODE | KM_TAG_CALLER_NONCE | KM_TAG_DIGEST
| KM_TAG_EARLY_BOOT_ONLY | KM_TAG_ECIES_SINGLE_HASH_MODE | KM_TAG_EC_CURVE
| KM_TAG_KDF | KM_TAG_KEY_SIZE | KM_TAG_MAX_USES_PER_BOOT
| KM_TAG_MIN_MAC_LENGTH | KM_TAG_MIN_SECONDS_BETWEEN_OPS
| KM_TAG_NO_AUTH_REQUIRED | KM_TAG_PADDING | KM_TAG_PURPOSE
| KM_TAG_RSA_OAEP_MGF_DIGEST | KM_TAG_RSA_PUBLIC_EXPONENT
| KM_TAG_TRUSTED_CONFIRMATION_REQUIRED
| KM_TAG_TRUSTED_USER_PRESENCE_REQUIRED
| KM_TAG_UNLOCKED_DEVICE_REQUIRED | KM_TAG_USER_SECURE_ID
| KM_TAG_STORAGE_KEY
| KM_TAG_USER_AUTH_TYPE
| KM_TAG_ACTIVE_DATETIME | KM_TAG_ALL_USERS | KM_TAG_CREATION_DATETIME
| KM_TAG_EXPORTABLE | KM_TAG_INCLUDE_UNIQUE_ID | KM_TAG_MAX_BOOT_LEVEL
| KM_TAG_ORIGINATION_EXPIRE_DATETIME | KM_TAG_USAGE_COUNT_LIMIT
| KM_TAG_USAGE_EXPIRE_DATETIME | KM_TAG_USER_ID
| KM_TAG_other (raw : Z).

Definition keymaster_tag_eq_dec (a b : keymaster_tag_t) : {a = b} + {a <> b}.
Proof. decide equality. apply Z.eq_dec. Defined.

Definition tag_eqb (a b : keymaster_tag_t) : bool :=
  if keymaster_tag_eq_dec a b then true else false.

(** The typed tag objects [TAG_X] of the library denote the tags
    [KM_TAG_X]; the embedding writes [KM_TAG_X] for both. *)

(** [keymaster_verified_boot_t]. *)
Inductive keymaster_verified_boot_t : Type :=
| KM_VERIFIED_BOOT_VERIFIED
| KM_VERIFIED_BOOT_SELF_SIGNED
| KM_VERIFIED_BOOT_UNVERIFIED
| KM_VERIFIED_BOOT_FAILED.

(** [AuthEncryptedBlobFormat]: the two formats the source names. *)
Inductive AuthEncryptedBlobFormat : Type :=
| AES_OCB
| AES_GCM_WITH_SW_ENFORCED
| format_other (raw : Z).

Definition is_AES_OCB (f : AuthEncryptedBlobFormat) : bool :=
  match f with AES_OCB => true | _ => false end.

(** [AttestationKeySlot], as far as the source uses it. *)
Inductive AttestationKeySlot : Type := kRsa | kEcdsa.

(* ================================================================== *)
(** ** Key parameters and authorization sets *)

Definition bytes := list byte.

(** The value union of [keymaster_key_param_t], one constructor per member
    the source reads or writes. *)
Inductive key_param_value : Type :=
| enumerated (e : Z)
| boolean (b : bool)
| integer (i : Z)
| long_integer (l : Z)
| date_time (d : Z)
| blob (data : bytes).

Record keymaster_key_param_t : Type := mk_param {
  tag : keymaster_tag_t;
  value : key_param_value
}.

(** Reading the 32-bit members [.integer] and [.enumerated], which share
    their storage.  Tags carry their value type, so an entry found under
    an integer or enum tag holds one of the first two members; the other
    rows are never reached for such entries. *)
Definition u32_member (p : keymaster_key_param_t) : Z :=
  match value p with
  | integer i => i
  | enumerated e => e
  | boolean b => Z.b2z b
  | long_integer l => l mod 2 ^ 32
  | date_time d => d mod 2 ^ 32
  | blob _ => 0
  end.

Inductive AuthorizationSet_Error : Type :=
| OK | ALLOCATION_FAILURE | MALFORMED_DATA.

(** An [AuthorizationSet] is an ordered sequence of entries (duplicates
    allowed) with a sticky error state. *)
Record AuthorizationSet : Type := mk_set {
  params : list keymaster_key_param_t;
  error_ : AuthorizationSet_Error
}.

Definition empty_set : AuthorizationSet := mk_set [] OK.

Definition Clear (s : AuthorizationSet) : AuthorizationSet := mk_set [] OK.

Definition is_valid (s : AuthorizationSet) : AuthorizationSet_Error :=
  error_ s.

(** [push_back] with the set's storage at hand: the entry is appended
    and the error state is kept.  In the library a [push_back] that
    cannot grow the storage adds nothing and leaves
    [ALLOCATION_FAILURE] in the error state, which the callers read
    through [is_valid]; such runs are outside this embedding, whose
    [is_valid] tests therefore see the state the set started with. *)
Definition push_back (s : AuthorizationSet) (p : keymaster_key_param_t)
  : AuthorizationSet :=
  mk_set (params s ++ [p]) (error_ s).

Fixpoint find_from (t : keymaster_tag_t) (l : list keymaster_key_param_t)
                   (i : Z) : Z :=
  match l with
  | [] => -1
  | p :: rest => if tag_eqb (tag p) t then i else find_from t rest (i + 1)
  end.

(** [find(tag)]: index of the first entry with that tag, [-1] if none. *)
Definition find (s : AuthorizationSet) (t : keymaster_tag_t) : Z :=
  find_from t (params s) 0.

Definition empty_param : keymaster_key_param_t :=
  mk_param KM_TAG_INVALID (integer 0).

(** [set.params[index]] *)
Definition at_index (s : AuthorizationSet) (index : Z)
  : keymaster_key_param_t :=
  nth (Z.to_nat index) (params s) empty_param.

Fixpoint store_integer (l : list keymaster_key_param_t) (n : nat) (v : Z)
  : list keymaster_key_param_t :=
  match l, n with
  | [], _ => []
  | p :: rest, O => mk_param (tag p) (integer v) :: rest
  | p :: rest, S n' => p :: store_integer rest n' v
  end.

(** [set.params[index].integer = v] *)
Definition set_integer_at (s : AuthorizationSet) (index : Z) (v : Z)
  : AuthorizationSet :=
  mk_set (store_integer (params s) (Z.to_nat index) v) (error_ s).

(** [GetTagValue(tag, &val)] for an enum or integer tag. *)
Definition GetTagValue (s : AuthorizationSet) (t : keymaster_tag_t)
  : option Z :=
  let pos := find s t in
  if pos =? -1 then None else Some (u32_member (at_index s pos)).

(** [GetTagValue(tag, &blob)] for a bytes tag, whose entries hold the
    [blob] member. *)
Definition GetTagValue_blob (s : AuthorizationSet) (t : keymaster_tag_t)
  : option bytes :=
  let pos := find s t in
  if pos =? -1 then None
  else match value (at_index s pos) with
       | blob d => Some d
       | _ => Some []
       end.

(** [Contains(tag, val)]: some entry has that tag and that value. *)
Definition Contains (s : AuthorizationSet) (t : keymaster_tag_t) (v : Z)
  : bool :=
  existsb (fun p => tag_eqb (tag p) t && (u32_member p =? v)) (params s).

(** [AuthProxy]: the view of a key's two sets as one. *)
Record AuthProxy : Type := mk_proxy {
  proxy_hw : AuthorizationSet;
  proxy_sw : AuthorizationSet
}.

Definition AuthProxy_Contains (a : AuthProxy) (t : keymaster_tag_t) (v : Z)
  : bool :=
  Contains (proxy_hw a) t v || Contains (proxy_sw a) t v.

Definition AuthProxy_GetTagValue (a : AuthProxy) (t : keymaster_tag_t)
  : option Z :=
  match GetTagValue (proxy_hw a) t with
  | Some v => Some v
  | None => GetTagValue (proxy_sw a) t
  end.

(* ================================================================== *)
(** ** [UpgradeIntegerTag] *)

(** Result: the returned flag, the set and [*set_changed]. *)
Definition UpgradeIntegerTag (t : keymaster_tag_t) (v : Z)
           (set : AuthorizationSet) (set_changed : bool)
  : bool * AuthorizationSet * bool :=
  let index := find set t in
  if index =? -1 then
    (true, push_back set (mk_param t (integer v)), true)
  else if u32_member (at_index set index) >? v then
    (false, set, set_changed)
  else if negb (u32_member (at_index set index) =? v) then
    (true, set_integer_at set index v, true)
  else
    (true, set, set_changed).

(* ================================================================== *)
(** ** What the source takes from headers and from the build *)

(** Enumerator values of [hardware/keymaster_defs.h] and
    [hardware/hw_auth_token.h] that are stored in, or compared with, the
    [enumerated] member of a key parameter, and the byte image of the boot
    state that [BuildHiddenAuthorizations] reads through a pointer. *)
Record KeymasterDefs : Type := mk_defs {
  KM_ALGORITHM_RSA : Z;
  KM_ALGORITHM_EC : Z;
  KM_ALGORITHM_AES : Z;
  KM_ALGORITHM_HMAC : Z;
  KM_ALGORITHM_TRIPLE_DES : Z;
  KM_PURPOSE_DECRYPT : Z;
  KM_PURPOSE_WRAP : Z;
  KM_DIGEST_SHA_2_256 : Z;
  KM_PAD_NONE : Z;
  KM_PAD_RSA_OAEP : Z;
  KM_MODE_GCM : Z;
  HW_AUTH_PASSWORD : Z;
  HW_AUTH_FINGERPRINT : Z;
  HWKEY_KDF_VERSION_1 : Z;
  verified_boot_state_image : keymaster_verified_boot_t -> bytes
}.

(** Preprocessor switches of the translation unit. *)
Record BuildConfig : Type := mk_build {
  TRUSTY_KM_WRAPPING_KEY_SIZE : Z;
  WITH_HWWSK_SUPPORT : bool;
  TEE_FINGERPRINT_AUTH_SUPPORTED : bool;
  KEYMASTER_SOFT_ATTESTATION_FALLBACK : bool;
  KEYMASTER_DEBUG : bool
}.

Definition kAesKeySize (b : BuildConfig) : Z := TRUSTY_KM_WRAPPING_KEY_SIZE b.
Definition kCallsBetweenRngReseeds : Z := 32.
Definition kRngReseedSize : Z := 64.

(** ["KeymasterMaster"], zero-filled to [kAesKeySize] bytes. *)
Definition kMasterKeyDerivationData (b : BuildConfig) : bytes :=
  let text := [x4b; x65; x79; x6d; x61; x73; x74; x65; x72;
               x4d; x61; x73; x74; x65; x72] in
  text ++ repeat x00 (Z.to_nat (kAesKeySize b) - length text).

(* ================================================================== *)
(** ** The context object *)

(** A [Buffer] is taken for the bytes of its storage, from [begin()] over
    [buffer_size()] bytes. *)
Definition Buffer := bytes.

Definition buffer_size (b : Buffer) : Z := Z.of_nat (length b).

Record TrustyKeymasterContext : Type := mk_context {
  rng_initialized_ : bool;
  calls_since_reseed_ : Z;
  boot_os_version_ : Z;
  boot_os_patchlevel_ : Z;
  version_info_set_ : bool;
  root_of_trust_set_ : bool;
  verified_boot_key_ : Buffer;
  verified_boot_state_ : keymaster_verified_boot_t;
  device_locked_ : bool;
  verified_boot_hash_ : Buffer
}.

(** What the constructor's initializer list and body fix: the RNG flag,
    the call counter and the boot key ["Unbound"]. *)
Definition constructed (c : TrustyKeymasterContext) : Prop :=
  rng_initialized_ c = false /\
  calls_since_reseed_ c = 0 /\
  verified_boot_key_ c = [x55; x6e; x62; x6f; x75; x6e; x64].

(** The five factories the constructor creates, named by their
    algorithm; [nullptr] is [None].  The [case] labels of a [switch] are
    distinct, so testing them in their order is the [switch]. *)
Inductive KeyFactory : Type :=
| rsa_factory_ | ec_factory_ | aes_factory_ | hmac_factory_ | tdes_factory_.

Definition GetKeyFactory (d : KeymasterDefs) (algorithm : Z)
  : option KeyFactory :=
  if algorithm =? KM_ALGORITHM_RSA d then Some rsa_factory_
  else if algorithm =? KM_ALGORITHM_EC d then Some ec_factory_
  else if algorithm =? KM_ALGORITHM_AES d then Some aes_factory_
  else if algorithm =? KM_ALGORITHM_HMAC d then Some hmac_factory_
  else if algorithm =? KM_ALGORITHM_TRIPLE_DES d then Some tdes_factory_
  else None.

Definition supported_algorithms (d : KeymasterDefs) : list Z :=
  [KM_ALGORITHM_RSA d; KM_ALGORITHM_EC d; KM_ALGORITHM_AES d;
   KM_ALGORITHM_HMAC d; KM_ALGORITHM_TRIPLE_DES d].

Definition TranslateAuthorizationSetError (err : AuthorizationSet_Error)
  : keymaster_error_t :=
  match err with
  | OK => KM_ERROR_OK
  | ALLOCATION_FAILURE => KM_ERROR_MEMORY_ALLOCATION_FAILED
  | MALFORMED_DATA => KM_ERROR_UNKNOWN_ERROR
  end.

(* ================================================================== *)
(** ** [SetAuthorizations] *)

(** One pass through the body of the [for] loop: either the function
    returns ([inl]) or the loop goes on with the two sets ([inr]). *)
Definition SetAuthorizations_entry (d : KeymasterDefs) (b : BuildConfig)
           (entry : keymaster_key_param_t)
           (hw_enforced sw_enforced : AuthorizationSet)
  : keymaster_error_t + AuthorizationSet * AuthorizationSet :=
  match tag entry with
  (* Tags that should never appear in key descriptions. *)
  | KM_TAG_ASSOCIATED_DATA | KM_TAG_AUTH_TOKEN | KM_TAG_BOOTLOADER_ONLY
  | KM_TAG_INVALID | KM_TAG_MAC_LENGTH | KM_TAG_NONCE
  | KM_TAG_ROOT_OF_TRUST | KM_TAG_UNIQUE_ID
  | KM_TAG_IDENTITY_CREDENTIAL_KEY =>
      inl KM_ERROR_INVALID_KEY_BLOB
  (* Tags used only to provide information for certificate creation. *)
  | KM_TAG_ATTESTATION_APPLICATION_ID | KM_TAG_ATTESTATION_CHALLENGE
  | KM_TAG_ATTESTATION_ID_BRAND | KM_TAG_ATTESTATION_ID_DEVICE
  | KM_TAG_ATTESTATION_ID_IMEI | KM_TAG_ATTESTATION_ID_MANUFACTURER
  | KM_TAG_ATTESTATION_ID_MEID | KM_TAG_ATTESTATION_ID_MODEL
  | KM_TAG_ATTESTATION_ID_PRODUCT | KM_TAG_ATTESTATION_ID_SERIAL
  | KM_TAG_CERTIFICATE_NOT_AFTER | KM_TAG_CERTIFICATE_NOT_BEFORE
  | KM_TAG_CERTIFICATE_SERIAL | KM_TAG_CERTIFICATE_SUBJECT
  | KM_TAG_RESET_SINCE_ID_ROTATION =>
      inr (hw_enforced, sw_enforced)
  (* Unimplemented tags for which we return an error. *)
  | KM_TAG_ROLLBACK_RESISTANCE =>
      inl KM_ERROR_ROLLBACK_RESISTANCE_UNAVAILABLE
  | KM_TAG_DEVICE_UNIQUE_ATTESTATION =>
      inl KM_ERROR_INVALID_ARGUMENT
  (* Unimplemented tags we silently ignore. *)
  | KM_TAG_ALLOW_WHILE_ON_BODY =>
      inr (hw_enforced, sw_enforced)
  (* Obsolete tags we silently ignore; tags that should not be added to
     blobs. *)
  | KM_TAG_ALL_APPLICATIONS | KM_TAG_ROLLBACK_RESISTANT
  | KM_TAG_CONFIRMATION_TOKEN
  | KM_TAG_APPLICATION_ID | KM_TAG_APPLICATION_DATA =>
      inr (hw_enforced, sw_enforced)
  (* Tags we ignore because they'll be set below. *)
  | KM_TAG_BOOT_PATCHLEVEL | KM_TAG_ORIGIN | KM_TAG_OS_PATCHLEVEL
  | KM_TAG_OS_VERSION | KM_TAG_VENDOR_PATCHLEVEL =>
      inr (hw_enforced, sw_enforced)
  (* Tags that are hardware-enforced *)
  | KM_TAG_ALGORITHM | KM_TAG_AUTH_TIMEOUT | KM_TAG_BLOB_USAGE_REQUIREMENTS
  | KM_TAG_BLOCK_MODE | KM_TAG_CALLER_NONCE | KM_TAG_DIGEST
  | KM_TAG_EARLY_BOOT_ONLY | KM_TAG_ECIES_SINGLE_HASH_MODE
  | KM_TAG_EC_CURVE | KM_TAG_KDF | KM_TAG_KEY_SIZE
  | KM_TAG_MAX_USES_PER_BOOT | KM_TAG_MIN_MAC_LENGTH
  | KM_TAG_MIN_SECONDS_BETWEEN_OPS | KM_TAG_NO_AUTH_REQUIRED
  | KM_TAG_PADDING | KM_TAG_PURPOSE | KM_TAG_RSA_OAEP_MGF_DIGEST
  | KM_TAG_RSA_PUBLIC_EXPONENT | KM_TAG_TRUSTED_CONFIRMATION_REQUIRED
  | KM_TAG_TRUSTED_USER_PRESENCE_REQUIRED
  | KM_TAG_UNLOCKED_DEVICE_REQUIRED | KM_TAG_USER_SECURE_ID =>
      inr (push_back hw_enforced entry, sw_enforced)
  (* KM_TAG_STORAGE_KEY handling depends if the feature is enabled. *)
  | KM_TAG_STORAGE_KEY =>
      if WITH_HWWSK_SUPPORT b
      then inr (push_back hw_enforced entry, sw_enforced)
      else inl KM_ERROR_UNIMPLEMENTED
  | KM_TAG_USER_AUTH_TYPE =>
      let elem := Z.land (u32_member entry) (HW_AUTH_PASSWORD d) in
      let elem :=
        if TEE_FINGERPRINT_AUTH_SUPPORTED b
        then Z.lor elem (Z.land (u32_member entry) (HW_AUTH_FINGERPRINT d))
        else elem in
      inr (push_back hw_enforced (mk_param (tag entry) (enumerated elem)),
           sw_enforced)
  (* Keystore-enforced tags *)
  | KM_TAG_ACTIVE_DATETIME | KM_TAG_ALL_USERS | KM_TAG_CREATION_DATETIME
  | KM_TAG_EXPORTABLE | KM_TAG_INCLUDE_UNIQUE_ID | KM_TAG_MAX_BOOT_LEVEL
  | KM_TAG_ORIGINATION_EXPIRE_DATETIME | KM_TAG_USAGE_COUNT_LIMIT
  | KM_TAG_USAGE_EXPIRE_DATETIME | KM_TAG_USER_ID =>
      inr (hw_enforced, push_back sw_enforced entry)
  (* no [default:] label: any other tag falls out of the [switch] *)
  | KM_TAG_other _ =>
      inr (hw_enforced, sw_enforced)
  end.

(** The [for] loop; [Some e] is an early [return e]. *)
Fixpoint SetAuthorizations_loop (d : KeymasterDefs) (b : BuildConfig)
         (entries : list keymaster_key_param_t)
         (hw_enforced sw_enforced : AuthorizationSet)
  : option keymaster_error_t * AuthorizationSet * AuthorizationSet :=
  match entries with
  | [] => (None, hw_enforced, sw_enforced)
  | entry :: rest =>
      match SetAuthorizations_entry d b entry hw_enforced sw_enforced with
      | inl e => (Some e, hw_enforced, sw_enforced)
      | inr (hw, sw) => SetAuthorizations_loop d b rest hw sw
      end
  end.

(** Result: the returned code and the two sets as the call leaves them. *)
Definition SetAuthorizations (d : KeymasterDefs) (b : BuildConfig)
           (ctx : TrustyKeymasterContext)
           (key_description : AuthorizationSet) (origin : Z)
           (hw_enforced sw_enforced : AuthorizationSet)
  : keymaster_error_t * AuthorizationSet * AuthorizationSet :=
  let sw_enforced := Clear sw_enforced in
  let hw_enforced := Clear hw_enforced in
  match SetAuthorizations_loop d b (params key_description)
                               hw_enforced sw_enforced with
  | (Some e, hw, sw) => (e, hw, sw)
  | (None, hw, sw) =>
      let hw := push_back hw (mk_param KM_TAG_ORIGIN (enumerated origin)) in
      let hw := push_back hw (mk_param KM_TAG_OS_VERSION
                                       (integer (boot_os_version_ ctx))) in
      let hw := push_back hw (mk_param KM_TAG_OS_PATCHLEVEL
                                       (integer (boot_os_patchlevel_ ctx))) in
      match is_valid sw with
      | OK =>
          match is_valid hw with
          | OK => (KM_ERROR_OK, hw, sw)
          | err => (TranslateAuthorizationSetError err, hw, sw)
          end
      | err => (TranslateAuthorizationSetError err, hw, sw)
      end
  end.

(* ================================================================== *)
(** ** Blobs, keys and the collaborators *)

Definition KeymasterKeyBlob := bytes.
Definition KeymasterBlob := bytes.
Definition CertificateChain := list bytes.

Record EncryptedKey : Type := mk_encrypted_key {
  format : AuthEncryptedBlobFormat;
  ciphertext : KeymasterKeyBlob;
  nonce : Buffer;
  auth_tag : Buffer
}.

Record DeserializedKey : Type := mk_deserialized_key {
  encrypted_key : EncryptedKey;
  dk_hw_enforced : AuthorizationSet;
  dk_sw_enforced : AuthorizationSet
}.

(** A loaded [Key]: its material, its two sets and the factory that made
    it. *)
Record Key : Type := mk_key {
  key_material : KeymasterKeyBlob;
  hw_enforced : AuthorizationSet;
  sw_enforced : AuthorizationSet;
  key_factory : KeyFactory
}.

Definition authorizations (k : Key) : AuthProxy :=
  mk_proxy (hw_enforced k) (sw_enforced k).

(** What [parse_wrapped_key] writes through its out-pointers. *)
Record WrappedKey : Type := mk_wrapped_key {
  wk_iv : KeymasterBlob;
  wk_transit_key : KeymasterKeyBlob;
  wk_secure_key : KeymasterKeyBlob;
  wk_tag : KeymasterBlob;
  wk_params : AuthorizationSet;
  wk_format : Z;
  wk_description : KeymasterBlob
}.

(** A pointer argument the source tests against null. *)
Inductive out_ptr : Type := null_ptr | valid_ptr.

(** A call either returns or runs into a null dereference, for which the
    language defines no result. *)
Inductive call (A : Type) : Type :=
| returns (a : A)
| undefined.
Arguments returns {A} a.
Arguments undefined {A}.

(** The services the source calls and does not define.  Every function
    with an [error] out-parameter returns the code it leaves there. *)
Record Collaborators : Type := mk_collaborators {
  (* key_blob_utils/auth_encrypted_key_blob.h *)
  EncryptKey : KeymasterKeyBlob -> AuthEncryptedBlobFormat ->
               AuthorizationSet -> AuthorizationSet -> AuthorizationSet ->
               KeymasterKeyBlob -> keymaster_error_t * EncryptedKey;
  SerializeAuthEncryptedBlob : EncryptedKey -> AuthorizationSet ->
               AuthorizationSet -> keymaster_error_t * KeymasterKeyBlob;
  DeserializeAuthEncryptedBlob : KeymasterKeyBlob ->
               keymaster_error_t * DeserializedKey;
  DecryptKey : DeserializedKey -> AuthorizationSet -> KeymasterKeyBlob ->
               keymaster_error_t * KeymasterKeyBlob;
  (* lib/hwkey/hwkey.h: the calls, and the conversion
     [(hwkey_session_t)rc] of a [long]; [Reset] of the master-key
     buffer *)
  hwkey_open : Z;
  to_hwkey_session_t : Z -> Z;
  master_key_Reset : Z -> bool;
  hwkey_derive : Z -> Z -> bytes -> Z -> Z * bytes;
  (* KeyFactory and Operation interfaces *)
  LoadKey : KeyFactory -> KeymasterKeyBlob -> AuthorizationSet ->
            AuthorizationSet -> AuthorizationSet ->
            keymaster_error_t * option Key;
  OperationFactory : Type;
  Operation : Type;
  GetOperationFactory_of : KeyFactory -> Z -> option OperationFactory;
  CreateOperation : OperationFactory -> Key -> AuthorizationSet ->
            keymaster_error_t * option Operation;
  Begin : Operation -> AuthorizationSet -> keymaster_error_t * Operation;
  Update : Operation -> AuthorizationSet -> bytes ->
            keymaster_error_t * Operation * bytes;
  Finish : Operation -> AuthorizationSet -> bytes -> bytes ->
            keymaster_error_t * bytes;
  (* keymaster/wrapped_key.h, AuthorizationSetBuilder *)
  parse_wrapped_key : KeymasterKeyBlob -> keymaster_error_t * WrappedKey;
  AesEncryptionKey : Z -> AuthorizationSet -> AuthorizationSet;
  (* secure_storage_manager.h, contexts/soft_attestation_cert.h *)
  SecureStorageManager_get_instance : out_ptr;
  ReadKeyFromStorage : AttestationKeySlot ->
            keymaster_error_t * KeymasterKeyBlob;
  ReadCertChainFromStorage : AttestationKeySlot ->
            keymaster_error_t * CertificateChain;
  getAttestationKey : Z -> keymaster_error_t * KeymasterKeyBlob;
  getAttestationChain : Z -> keymaster_error_t * CertificateChain;
  (* km_openssl/attestation_utils.h, certificate_utils.h *)
  AttestKeyInfo : Type;
  make_AttestKeyInfo : option Key -> KeymasterBlob ->
            keymaster_error_t * AttestKeyInfo;
  generate_attestation : Key -> AuthorizationSet -> AttestKeyInfo ->
            TrustyKeymasterContext -> keymaster_error_t * CertificateChain;
  generate_self_signed_cert : Key -> AuthorizationSet -> bool ->
            keymaster_error_t * CertificateChain;
  (* the class declaration: default of [allow_ocb], width of [size_t] *)
  ParseKeyBlob_default_allow_ocb : bool;
  size_t_bits : Z;
  (* allocation: whether the [KeymasterKeyBlob] constructed from these
     bytes gets its storage ([key_material] is null and the blob empty
     otherwise); whether [Reinitialize(size)] of the two buffers of
     step 4 succeeds; whether [write] of some bytes into a buffer of
     that size which holds those bytes already finds room *)
  KeymasterKeyBlob_allocates : KeymasterKeyBlob -> bool;
  plaintext_key_Reinitialize : Z -> bool;
  encrypted_key_Reinitialize : Z -> bool;
  Buffer_write : Z -> bytes -> bytes -> bool
}.

(* ================================================================== *)
(** ** Hidden authorizations, master key, blob creation *)

Definition BuildHiddenAuthorizations (d : KeymasterDefs)
           (ctx : TrustyKeymasterContext)
           (input_set hidden : AuthorizationSet)
  : keymaster_error_t * AuthorizationSet :=
  let hidden :=
    match GetTagValue_blob input_set KM_TAG_APPLICATION_ID with
    | Some entry => push_back hidden (mk_param KM_TAG_APPLICATION_ID (blob entry))
    | None => hidden
    end in
  let hidden :=
    match GetTagValue_blob input_set KM_TAG_APPLICATION_DATA with
    | Some entry =>
        push_back hidden (mk_param KM_TAG_APPLICATION_DATA (blob entry))
    | None => hidden
    end in
  let hidden := push_back hidden
      (mk_param KM_TAG_ROOT_OF_TRUST (blob (verified_boot_key_ ctx))) in
  let hidden := push_back hidden
      (mk_param KM_TAG_ROOT_OF_TRUST
         (blob (verified_boot_state_image d (verified_boot_state_ ctx)))) in
  let hidden := push_back hidden
      (mk_param KM_TAG_ROOT_OF_TRUST
         (blob [if device_locked_ ctx then x01 else x00])) in
  (TranslateAuthorizationSetError (is_valid hidden), hidden).

(** A call to the hardware key service, with the session it is made
    on. *)
Inductive hwkey_call : Type :=
| call_hwkey_open
| call_hwkey_derive (session : Z)
| call_hwkey_close (session : Z).

(** The body of [DeriveMasterKey].  Result: the code, [*master_key], and
    the calls to the hardware key service in the order they were made. *)
Definition DeriveMasterKey_run (d : KeymasterDefs) (b : BuildConfig)
           (c : Collaborators)
  : keymaster_error_t * KeymasterKeyBlob * list hwkey_call :=
  let rc := hwkey_open c in
  let calls := [call_hwkey_open] in
  if rc <? 0 then (KM_ERROR_UNKNOWN_ERROR, [], calls)
  else
    let session := to_hwkey_session_t c rc in
    if negb (master_key_Reset c (kAesKeySize b))
    then (KM_ERROR_MEMORY_ALLOCATION_FAILED, [], calls)
    else
      let '(rc, master_key) :=
        hwkey_derive c session (HWKEY_KDF_VERSION_1 d)
                     (kMasterKeyDerivationData b) (kAesKeySize b) in
      let calls := calls ++ [call_hwkey_derive session] in
      if rc <? 0 then (KM_ERROR_UNKNOWN_ERROR, master_key, calls)
      else (KM_ERROR_OK, master_key, calls ++ [call_hwkey_close session]).

(** [DeriveMasterKey] as its callers see it: the code and the key. *)
Definition DeriveMasterKey (d : KeymasterDefs) (b : BuildConfig)
           (c : Collaborators)
  : keymaster_error_t * KeymasterKeyBlob :=
  fst (DeriveMasterKey_run d b c).

(** The calls it made. *)
Definition DeriveMasterKey_calls (d : KeymasterDefs) (b : BuildConfig)
           (c : Collaborators) : list hwkey_call :=
  snd (DeriveMasterKey_run d b c).

(** Result: the code and [*blob], [None] while nothing was assigned. *)
Definition CreateAuthEncryptedKeyBlob (d : KeymasterDefs) (b : BuildConfig)
           (c : Collaborators) (ctx : TrustyKeymasterContext)
           (key_description : AuthorizationSet)
           (key_material : KeymasterKeyBlob)
           (hw_enforced sw_enforced : AuthorizationSet)
  : keymaster_error_t * option KeymasterKeyBlob :=
  let '(error, hidden) :=
    BuildHiddenAuthorizations d ctx key_description empty_set in
  if negb (is_ok error) then (error, None)
  else
    let '(error, master_key) := DeriveMasterKey d b c in
    if negb (is_ok error) then (error, None)
    else
      let '(error, encrypted_key) :=
        EncryptKey c key_material AES_GCM_WITH_SW_ENFORCED
                   hw_enforced sw_enforced hidden master_key in
      if negb (is_ok error) then (error, None)
      else
        let '(error, serialized) :=
          SerializeAuthEncryptedBlob c encrypted_key
                                     hw_enforced sw_enforced in
        (error, Some serialized).

Definition CreateKeyBlob (d : KeymasterDefs) (b : BuildConfig)
           (c : Collaborators) (ctx : TrustyKeymasterContext)
           (key_description : AuthorizationSet) (origin : Z)
           (key_material : KeymasterKeyBlob)
           (hw_enforced sw_enforced : AuthorizationSet)
  : keymaster_error_t * option KeymasterKeyBlob
    * AuthorizationSet * AuthorizationSet :=
  let '(error, hw, sw) :=
    SetAuthorizations d b ctx key_description origin
                      hw_enforced sw_enforced in
  if negb (is_ok error) then (error, None, hw, sw)
  else
    let '(error, created) :=
      CreateAuthEncryptedKeyBlob d b c ctx key_description key_material
                                 hw sw in
    (error, created, hw, sw).

(* ================================================================== *)
(** ** [ParseKeyBlob] *)

(** ['p','K','M','b','l','o','b'] *)
Definition kKeystoreKeyBlobMagic : bytes :=
  [x70; x4b; x4d; x62; x6c; x6f; x62].
Definition kKeystoreKeyTypeOffset : nat := length kKeystoreKeyBlobMagic.
Definition kKeystoreKeyBlobPrefixSize : nat := kKeystoreKeyTypeOffset + 1.

(** [std::equal(first1, last1, first2)] on byte ranges. *)
Fixpoint std_equal (range1 range2 : bytes) : bool :=
  match range1 with
  | [] => true
  | a :: r1 =>
      match range2 with
      | [] => false
      | b :: r2 => Byte.eqb a b && std_equal r1 r2
      end
  end.

(** The test that guards the km_compat branch. *)
Definition has_keystore_prefix (blob : KeymasterKeyBlob) : bool :=
  (kKeystoreKeyBlobPrefixSize <=? length blob)%nat
  && std_equal kKeystoreKeyBlobMagic blob.

(** The steps after deserialization, for an [error] and a
    [deserialized_key] however obtained. *)
Definition ParseKeyBlob_tail (d : KeymasterDefs) (b : BuildConfig)
           (c : Collaborators) (ctx : TrustyKeymasterContext)
           (error : keymaster_error_t) (deserialized_key : DeserializedKey)
           (additional_params : AuthorizationSet)
           (allow_ocb : bool) (ocb_count : Z)
  : call (keymaster_error_t * option Key) * Z :=
  if negb (is_ok error) then (returns (error, None), ocb_count)
  else
    let ocb_count :=
      if is_AES_OCB (format (encrypted_key deserialized_key))
         && negb allow_ocb
      then (ocb_count + 1) mod 2 ^ size_t_bits c
      else ocb_count in
    let '(error, master_key) := DeriveMasterKey d b c in
    if negb (is_ok error) then (returns (error, None), ocb_count)
    else
      let '(error, hidden) :=
        BuildHiddenAuthorizations d ctx additional_params empty_set in
      if negb (is_ok error) then (returns (error, None), ocb_count)
      else
        let '(error, key_material) :=
          DecryptKey c deserialized_key hidden master_key in
        if negb (is_ok error) then (returns (error, None), ocb_count)
        else
          match GetTagValue (dk_hw_enforced deserialized_key)
                            KM_TAG_ALGORITHM with
          | None => (returns (KM_ERROR_INVALID_KEY_BLOB, None), ocb_count)
          | Some algorithm =>
              match GetKeyFactory d algorithm with
              | None => (undefined, ocb_count)
              | Some factory =>
                  (returns (LoadKey c factory key_material additional_params
                                    (dk_hw_enforced deserialized_key)
                                    (dk_sw_enforced deserialized_key)),
                   ocb_count)
              end
          end.

(** Result: the code with [*key], and the static counter [ocb_count]. *)
Definition ParseKeyBlob (d : KeymasterDefs) (b : BuildConfig)
           (c : Collaborators) (ctx : TrustyKeymasterContext)
           (blob : KeymasterKeyBlob) (additional_params : AuthorizationSet)
           (key : out_ptr) (allow_ocb : bool) (ocb_count : Z)
  : call (keymaster_error_t * option Key) * Z :=
  match key with
  | null_ptr => (returns (KM_ERROR_UNEXPECTED_NULL_POINTER, None), ocb_count)
  | valid_ptr =>
      if has_keystore_prefix blob
      then
        let keyType := nth kKeystoreKeyTypeOffset blob x00 in
        match keyType with
        | x01 => (returns (KM_ERROR_INVALID_KEY_BLOB, None), ocb_count)
        | x00 =>
            let '(error, deserialized_key) :=
              DeserializeAuthEncryptedBlob c
                (skipn kKeystoreKeyBlobPrefixSize blob) in
            ParseKeyBlob_tail d b c ctx error deserialized_key
                              additional_params allow_ocb ocb_count
        | _ => (returns (KM_ERROR_INVALID_KEY_BLOB, None), ocb_count)
        end
      else
        let '(error, deserialized_key) :=
          DeserializeAuthEncryptedBlob c blob in
        ParseKeyBlob_tail d b c ctx error deserialized_key
                          additional_params allow_ocb ocb_count
  end.

(* ================================================================== *)
(** ** [UpgradeKeyBlob] *)

(** The version update on the parsed key, between [ParseKeyBlob] and the
    re-encryption: [None] when one of the two [UpgradeIntegerTag] calls
    reports a downgrade, else the two sets and [set_changed]. *)
Definition UpgradeKeyBlob_versions (ctx : TrustyKeymasterContext) (key : Key)
  : option (AuthorizationSet * AuthorizationSet * bool) :=
  let set_changed := false in
  let '(sw, set_changed) :=
    if boot_os_version_ ctx =? 0 then
      let pos := find (sw_enforced key) KM_TAG_OS_VERSION in
      if negb (pos =? -1)
         && negb (u32_member (at_index (sw_enforced key) pos)
                  =? boot_os_version_ ctx)
      then (set_integer_at (sw_enforced key) pos (boot_os_version_ ctx),
            true)
      else (sw_enforced key, set_changed)
    else (sw_enforced key, set_changed) in
  let '(ok, hw, set_changed) :=
    UpgradeIntegerTag KM_TAG_OS_VERSION (boot_os_version_ ctx)
                      (hw_enforced key) set_changed in
  if negb ok then None
  else
    let '(ok, hw, set_changed) :=
      UpgradeIntegerTag KM_TAG_OS_PATCHLEVEL (boot_os_patchlevel_ ctx)
                        hw set_changed in
    if negb ok then None
    else Some (hw, sw, set_changed).

(** Result: the code with [*upgraded_key] ([None] while nothing was
    assigned), and the static counter of [ParseKeyBlob]. *)
Definition UpgradeKeyBlob (d : KeymasterDefs) (b : BuildConfig)
           (c : Collaborators) (ctx : TrustyKeymasterContext)
           (key_to_upgrade : KeymasterKeyBlob)
           (upgrade_params : AuthorizationSet) (ocb_count : Z)
  : call (keymaster_error_t * option KeymasterKeyBlob) * Z :=
  match ParseKeyBlob d b c ctx key_to_upgrade upgrade_params
                     valid_ptr true ocb_count with
  | (undefined, ocb_count) => (undefined, ocb_count)
  | (returns (error, key), ocb_count) =>
      if negb (is_ok error) then (returns (error, None), ocb_count)
      else
        match key with
        | None => (undefined, ocb_count)
        | Some key =>
            match UpgradeKeyBlob_versions ctx key with
            | None =>
                (* One of the version fields would have been a downgrade. *)
                (returns (KM_ERROR_INVALID_ARGUMENT, None), ocb_count)
            | Some (hw, sw, set_changed) =>
                if negb set_changed
                then (returns (KM_ERROR_OK, None), ocb_count)
                else (returns (CreateAuthEncryptedKeyBlob d b c ctx
                                 upgrade_params (key_material key) hw sw),
                      ocb_count)
            end
        end
  end.
(* ================================================================== *)
(** ** RNG reseeding *)

(** [calls_since_reseed_] is an [int]: the constructor starts it at the
    literal [0] and it is reduced modulo the [int] constant
    [kCallsBetweenRngReseeds].  Increment wraps in 32-bit two's
    complement; [%] truncates towards zero ([Z.rem]). *)
Definition int_wrap (x : Z) : Z := (x + 2 ^ 31) mod 2 ^ 32 - 2 ^ 31.

Definition set_calls_since_reseed (ctx : TrustyKeymasterContext) (n : Z)
  : TrustyKeymasterContext :=
  mk_context (rng_initialized_ ctx) n
             (boot_os_version_ ctx) (boot_os_patchlevel_ ctx)
             (version_info_set_ ctx) (root_of_trust_set_ ctx)
             (verified_boot_key_ ctx) (verified_boot_state_ ctx)
             (device_locked_ ctx) (verified_boot_hash_ ctx).

Definition set_rng_initialized (ctx : TrustyKeymasterContext) (v : bool)
  : TrustyKeymasterContext :=
  mk_context v (calls_since_reseed_ ctx)
             (boot_os_version_ ctx) (boot_os_patchlevel_ ctx)
             (version_info_set_ ctx) (root_of_trust_set_ ctx)
             (verified_boot_key_ ctx) (verified_boot_state_ ctx)
             (device_locked_ ctx) (verified_boot_hash_ ctx).

Definition ShouldReseedRng (ctx : TrustyKeymasterContext)
  : bool * TrustyKeymasterContext :=
  if negb (rng_initialized_ ctx) then (true, ctx)
  else
    let n := int_wrap (calls_since_reseed_ ctx + 1) in
    let ctx := set_calls_since_reseed ctx n in
    if Z.rem n kCallsBetweenRngReseeds =? 0 then (true, ctx)
    else (false, ctx).

(** [hw_rand] is what [trusty_rng_hw_rand] answers to this call: its
    return code (the bytes go to the entropy pool, outside the context). *)
Definition ReseedRng (ctx : TrustyKeymasterContext) (hw_rand : Z)
  : bool * TrustyKeymasterContext :=
  if negb (hw_rand =? 0) then (false, ctx)
  else (true, set_rng_initialized ctx true).

Definition SeedRngIfNeeded (ctx : TrustyKeymasterContext) (hw_rand : Z)
  : bool * TrustyKeymasterContext :=
  let '(should, ctx) := ShouldReseedRng ctx in
  let ctx := if should then snd (ReseedRng ctx hw_rand) else ctx in
  (rng_initialized_ ctx, ctx).

(** [n] reseed checks in a row: the answers in order, and the context
    after the last one. *)
Fixpoint reseed_checks (n : nat) (ctx : TrustyKeymasterContext)
  : list bool * TrustyKeymasterContext :=
  match n with
  | O => ([], ctx)
  | S n' =>
      let '(r, ctx) := ShouldReseedRng ctx in
      let '(rs, ctx) := reseed_checks n' ctx in
      (r :: rs, ctx)
  end.

(* ================================================================== *)
(** ** Boot parameters and system version *)

Definition is_verified_or_self_signed (s : keymaster_verified_boot_t)
  : bool :=
  match s with
  | KM_VERIFIED_BOOT_VERIFIED | KM_VERIFIED_BOOT_SELF_SIGNED => true
  | _ => false
  end.

Definition SetBootParams (ctx : TrustyKeymasterContext)
           (os_version os_patchlevel : Z)
           (verified_boot_key : Buffer)
           (verified_boot_state : keymaster_verified_boot_t)
           (device_locked : bool)
           (verified_boot_hash : Buffer)
  : keymaster_error_t * TrustyKeymasterContext :=
  if root_of_trust_set_ ctx then (KM_ERROR_ROOT_OF_TRUST_ALREADY_SET, ctx)
  else
    let hash := verified_boot_hash in
    let state := verified_boot_state in
    let locked := device_locked in
    let key := @nil byte in
    let '(key, state, locked) :=
      if is_verified_or_self_signed verified_boot_state then
        if negb (buffer_size verified_boot_key =? 0)
        then (verified_boot_key, state, locked)
        else (key, KM_VERIFIED_BOOT_UNVERIFIED, false)
      else (key, state, false) in
    (KM_ERROR_OK,
     mk_context (rng_initialized_ ctx) (calls_since_reseed_ ctx)
                (boot_os_version_ ctx) (boot_os_patchlevel_ ctx)
                (version_info_set_ ctx) true
                key state locked hash).

(** The first 32 bytes of ["000111222333444555666777888999000"]. *)
Definition fake_root_of_trust : Buffer :=
  [x30; x30; x30; x31; x31; x31; x32; x32; x32; x33; x33; x33;
   x34; x34; x34; x35; x35; x35; x36; x36; x36; x37; x37; x37;
   x38; x38; x38; x39; x39; x39; x30; x30].

Definition SetSystemVersion (b : BuildConfig) (ctx : TrustyKeymasterContext)
           (os_version os_patchlevel : Z)
  : keymaster_error_t * TrustyKeymasterContext :=
  let ctx :=
    if negb (version_info_set_ ctx) then
      mk_context (rng_initialized_ ctx) (calls_since_reseed_ ctx)
                 os_version os_patchlevel true (root_of_trust_set_ ctx)
                 (verified_boot_key_ ctx) (verified_boot_state_ ctx)
                 (device_locked_ ctx) (verified_boot_hash_ ctx)
    else ctx in
  let ctx :=
    if KEYMASTER_DEBUG b && negb (root_of_trust_set_ ctx) then
      snd (SetBootParams ctx os_version os_patchlevel fake_root_of_trust
                         KM_VERIFIED_BOOT_VERIFIED true [])
    else ctx in
  (KM_ERROR_OK, ctx).

Definition GetSystemVersion (ctx : TrustyKeymasterContext) : Z * Z :=
  (boot_os_version_ ctx, boot_os_patchlevel_ ctx).

(* ================================================================== *)
(** ** Attestation *)

(** The [switch] that picks the storage slot; [None] is [default:]. *)
Definition attestation_key_slot (d : KeymasterDefs) (algorithm : Z)
  : option AttestationKeySlot :=
  if algorithm =? KM_ALGORITHM_RSA d then Some kRsa
  else if algorithm =? KM_ALGORITHM_EC d then Some kEcdsa
  else None.

Definition GetAttestationKey (d : KeymasterDefs) (b : BuildConfig)
           (c : Collaborators) (algorithm : Z)
  : keymaster_error_t * KeymasterKeyBlob :=
  match attestation_key_slot d algorithm with
  | None => (KM_ERROR_UNSUPPORTED_ALGORITHM, [])
  | Some key_slot =>
      match SecureStorageManager_get_instance c with
      | null_ptr => (KM_ERROR_SECURE_HW_COMMUNICATION_FAILED, [])
      | valid_ptr =>
          let '(error, result) := ReadKeyFromStorage c key_slot in
          if KEYMASTER_SOFT_ATTESTATION_FALLBACK b && negb (is_ok error)
          then
            let '(error, key) := getAttestationKey c algorithm in
            if negb (is_ok error) then (error, [])
            else
              (* result = KeymasterKeyBlob( *key ) *)
              if negb (KeymasterKeyBlob_allocates c key)
              then (KM_ERROR_MEMORY_ALLOCATION_FAILED, [])
              else (error, key)
          else (error, result)
      end
  end.

Definition GetAttestationChain (d : KeymasterDefs) (b : BuildConfig)
           (c : Collaborators) (algorithm : Z)
  : keymaster_error_t * CertificateChain :=
  match attestation_key_slot d algorithm with
  | None => (KM_ERROR_UNSUPPORTED_ALGORITHM, [])
  | Some key_slot =>
      let '(error, chain) :=
        match SecureStorageManager_get_instance c with
        | null_ptr => (KM_ERROR_SECURE_HW_COMMUNICATION_FAILED, [])
        | valid_ptr => ReadCertChainFromStorage c key_slot
        end in
      if KEYMASTER_SOFT_ATTESTATION_FALLBACK b
         && (negb (is_ok error) || (Z.of_nat (length chain) =? 0))
      then getAttestationChain c algorithm
      else (error, chain)
  end.

Definition GenerateAttestation (d : KeymasterDefs) (c : Collaborators)
           (ctx : TrustyKeymasterContext)
           (key : Key) (attest_params : AuthorizationSet)
           (attest_key : option Key) (issuer_subject : KeymasterBlob)
  : keymaster_error_t * CertificateChain :=
  match AuthProxy_GetTagValue (authorizations key) KM_TAG_ALGORITHM with
  | None => (KM_ERROR_UNKNOWN_ERROR, [])
  | Some key_algorithm =>
      if negb (key_algorithm =? KM_ALGORITHM_RSA d)
         && negb (key_algorithm =? KM_ALGORITHM_EC d)
      then (KM_ERROR_INCOMPATIBLE_ALGORITHM, [])
      else
        let '(error, attest_key_info) :=
          make_AttestKeyInfo c attest_key issuer_subject in
        if negb (is_ok error) then (error, [])
        else generate_attestation c key attest_params attest_key_info ctx
  end.

Definition GenerateSelfSignedCertificate (d : KeymasterDefs)
           (c : Collaborators)
           (key : Key) (cert_params : AuthorizationSet)
           (fake_signature : bool)
  : keymaster_error_t * CertificateChain :=
  match AuthProxy_GetTagValue (authorizations key) KM_TAG_ALGORITHM with
  | None => (KM_ERROR_UNKNOWN_ERROR, [])
  | Some key_algorithm =>
      if negb (key_algorithm =? KM_ALGORITHM_RSA d)
         && negb (key_algorithm =? KM_ALGORITHM_EC d)
      then (KM_ERROR_INCOMPATIBLE_ALGORITHM, [])
      else generate_self_signed_cert c key cert_params fake_signature
  end.

(* ================================================================== *)
(** ** [UnwrapKey] *)

Definition byte_xor (a b : byte) : byte :=
  let '(a0, (a1, (a2, (a3, (a4, (a5, (a6, a7))))))) := Byte.to_bits a in
  let '(b0, (b1, (b2, (b3, (b4, (b5, (b6, b7))))))) := Byte.to_bits b in
  Byte.of_bits (xorb a0 b0, (xorb a1 b1, (xorb a2 b2, (xorb a3 b3,
               (xorb a4 b4, (xorb a5 b5, (xorb a6 b6, xorb a7 b7))))))).

(** [for (i = 0; i < size; i++) transport_key[i] ^= masking_key[i]] on two
    buffers of the same size. *)
Fixpoint xor_with (transport_key masking_key : bytes) : bytes :=
  match transport_key, masking_key with
  | t :: ts, m :: ms => byte_xor t m :: xor_with ts ms
  | _, _ => []
  end.

(** [GetOperationFactory(algorithm, purpose)] *)
Definition GetOperationFactory (d : KeymasterDefs) (c : Collaborators)
           (algorithm purpose : Z) : option (OperationFactory c) :=
  match GetKeyFactory d algorithm with
  | None => None
  | Some key_factory => GetOperationFactory_of c key_factory purpose
  end.

(** The three outputs; [None] while the call has not written one. *)
Record UnwrapOutputs : Type := mk_outputs {
  wrapped_key_params : option AuthorizationSet;
  wrapped_key_format : option Z;
  wrapped_key_material : option KeymasterKeyBlob
}.

Definition no_outputs : UnwrapOutputs := mk_outputs None None None.

(** The end of step 4, from the two buffers on: the secure key and its
    tag are decrypted with the begun AES operation and the plaintext is
    assigned to [*wrapped_key_material].  [plaintext_key] has its storage
    by then, so [peek_read()] is not null. *)
Definition UnwrapKey_plaintext (c : Collaborators) (wk : WrappedKey)
           (aes_operation : Operation c) (out : UnwrapOutputs)
  : call (keymaster_error_t * UnwrapOutputs) :=
  let total_key_size :=
    (Z.of_nat (length (wk_secure_key wk)) + Z.of_nat (length (wk_tag wk)))
    mod 2 ^ size_t_bits c in
  if negb (plaintext_key_Reinitialize c total_key_size)
  then returns (KM_ERROR_MEMORY_ALLOCATION_FAILED, out)
  else if negb (encrypted_key_Reinitialize c total_key_size)
  then returns (KM_ERROR_MEMORY_ALLOCATION_FAILED, out)
  (* Concatenate key data *)
  else if negb (Buffer_write c total_key_size [] (wk_secure_key wk))
  then returns (KM_ERROR_UNKNOWN_ERROR, out)
  else if negb (Buffer_write c total_key_size (wk_secure_key wk)
                             (wk_tag wk))
  then returns (KM_ERROR_UNKNOWN_ERROR, out)
  else
    let encrypted_key := wk_secure_key wk ++ wk_tag wk in
    let update_params :=
      push_back empty_set
        (mk_param KM_TAG_ASSOCIATED_DATA (blob (wk_description wk))) in
    match is_valid update_params with
    | OK =>
      let '(error, aes_operation, plaintext_key) :=
        Update c aes_operation update_params encrypted_key in
      if negb (is_ok error) then returns (error, out)
      else
        let '(error, finished) :=
          Finish c aes_operation empty_set [] [] in
        if negb (is_ok error) then returns (error, out)
        else
          let plaintext_key := plaintext_key ++ finished in
          if negb (KeymasterKeyBlob_allocates c plaintext_key)
          then returns (KM_ERROR_MEMORY_ALLOCATION_FAILED,
                        mk_outputs (wrapped_key_params out)
                                   (wrapped_key_format out) (Some []))
          else returns (error,
                        mk_outputs (wrapped_key_params out)
                                   (wrapped_key_format out)
                                   (Some plaintext_key))
    | validity => returns (TranslateAuthorizationSetError validity, out)
    end.

(** Steps 3 and 4, from the output of the RSA [Finish] on. *)
Definition UnwrapKey_transport (d : KeymasterDefs) (c : Collaborators)
           (wk : WrappedKey) (output : bytes)
           (masking_key : KeymasterKeyBlob) (out : UnwrapOutputs)
  : call (keymaster_error_t * UnwrapOutputs) :=
  let transport_key := output in
  if negb (Z.of_nat (length transport_key)
           =? Z.of_nat (length masking_key))
  then returns (KM_ERROR_INVALID_ARGUMENT, out)
  else
    let transport_key := xor_with transport_key masking_key in
    let transport_key_authorizations :=
      push_back
        (push_back
           (push_back
              (push_back (AesEncryptionKey c 256 empty_set)
                         (mk_param KM_TAG_PADDING (enumerated (KM_PAD_NONE d))))
              (mk_param KM_TAG_BLOCK_MODE (enumerated (KM_MODE_GCM d))))
           (mk_param KM_TAG_NONCE (blob (wk_iv wk))))
        (mk_param KM_TAG_MIN_MAC_LENGTH (integer 128)) in
    match is_valid transport_key_authorizations with
    | OK =>
      let gcm_params :=
        push_back
          (push_back
             (push_back
                (push_back empty_set
                   (mk_param KM_TAG_PADDING (enumerated (KM_PAD_NONE d))))
                (mk_param KM_TAG_BLOCK_MODE (enumerated (KM_MODE_GCM d))))
             (mk_param KM_TAG_NONCE (blob (wk_iv wk))))
          (mk_param KM_TAG_MAC_LENGTH (integer 128)) in
      match is_valid gcm_params with
      | OK =>
        match GetKeyFactory d (KM_ALGORITHM_AES d) with
        | None => returns (KM_ERROR_UNKNOWN_ERROR, out)
        | Some aes_factory =>
          let '(error, aes_transport_key) :=
            LoadKey c aes_factory transport_key gcm_params
                    transport_key_authorizations empty_set in
          if negb (is_ok error) then returns (error, out)
          else
            match GetOperationFactory d c (KM_ALGORITHM_AES d)
                                      (KM_PURPOSE_DECRYPT d) with
            | None => returns (KM_ERROR_UNKNOWN_ERROR, out)
            | Some aes_operation_factory =>
              match aes_transport_key with
              | None => undefined
              | Some aes_key =>
                let '(error, aes_operation) :=
                  CreateOperation c aes_operation_factory aes_key
                                  gcm_params in
                match aes_operation with
                | None => returns (error, out)
                | Some aes_operation =>
                  if negb (is_ok error) then returns (error, out)
                  else
                    let '(error, aes_operation) :=
                      Begin c aes_operation gcm_params in
                    if negb (is_ok error) then returns (error, out)
                    else
                      UnwrapKey_plaintext c wk aes_operation out
                end
              end
            end
        end
      | validity => returns (TranslateAuthorizationSetError validity, out)
      end
    | validity => returns (TranslateAuthorizationSetError validity, out)
    end.

(** Result: the code with the three outputs, and the static counter of
    [ParseKeyBlob]. *)
Definition UnwrapKey (d : KeymasterDefs) (b : BuildConfig)
           (c : Collaborators) (ctx : TrustyKeymasterContext)
           (wrapped_key_blob wrapping_key_blob : KeymasterKeyBlob)
           (wrapping_key_params : AuthorizationSet)
           (masking_key : KeymasterKeyBlob)
           (wrapped_key_material_ptr : out_ptr) (ocb_count : Z)
  : call (keymaster_error_t * UnwrapOutputs) * Z :=
  match wrapped_key_material_ptr with
  | null_ptr =>
      (returns (KM_ERROR_UNEXPECTED_NULL_POINTER, no_outputs), ocb_count)
  | valid_ptr =>
    (* Step 1: parse the wrapping key *)
    match ParseKeyBlob d b c ctx wrapping_key_blob wrapping_key_params
                       valid_ptr (ParseKeyBlob_default_allow_ocb c)
                       ocb_count with
    | (undefined, ocb_count) => (undefined, ocb_count)
    | (returns (error, wrapping_key), ocb_count) =>
      let result :=
        if negb (is_ok error) then returns (error, no_outputs)
        else
          match wrapping_key with
          | None => undefined
          | Some wrapping_key =>
            let wrapping_key_auths := authorizations wrapping_key in
            if negb (AuthProxy_Contains wrapping_key_auths KM_TAG_PURPOSE
                                        (KM_PURPOSE_WRAP d))
            then returns (KM_ERROR_INCOMPATIBLE_PURPOSE, no_outputs)
            else if negb (AuthProxy_Contains wrapping_key_auths KM_TAG_DIGEST
                                             (KM_DIGEST_SHA_2_256 d))
            then returns (KM_ERROR_INCOMPATIBLE_DIGEST, no_outputs)
            else if negb (AuthProxy_Contains wrapping_key_auths
                                             KM_TAG_PADDING
                                             (KM_PAD_RSA_OAEP d))
            then returns (KM_ERROR_INCOMPATIBLE_PADDING_MODE, no_outputs)
            else if negb (Contains wrapping_key_params KM_TAG_DIGEST
                                   (KM_DIGEST_SHA_2_256 d))
            then returns (KM_ERROR_INCOMPATIBLE_DIGEST, no_outputs)
            else if negb (Contains wrapping_key_params KM_TAG_PADDING
                                   (KM_PAD_RSA_OAEP d))
            then returns (KM_ERROR_INCOMPATIBLE_PADDING_MODE, no_outputs)
            else
              (* Step 2: parse the wrapped key; the parser writes the
                 caller's [wrapped_key_params] and [wrapped_key_format] *)
              let '(error, wk) := parse_wrapped_key c wrapped_key_blob in
              let out := mk_outputs (Some (wk_params wk))
                                    (Some (wk_format wk)) None in
              if negb (is_ok error) then returns (error, out)
              else
                match GetOperationFactory_of c (key_factory wrapping_key)
                                             (KM_PURPOSE_DECRYPT d) with
                | None => returns (KM_ERROR_UNKNOWN_ERROR, out)
                | Some operation_factory =>
                  let '(error, operation) :=
                    CreateOperation c operation_factory wrapping_key
                                    wrapping_key_params in
                  match operation with
                  | None => returns (error, out)
                  | Some operation =>
                    if negb (is_ok error) then returns (error, out)
                    else
                      let '(error, operation) :=
                        Begin c operation wrapping_key_params in
                      if negb (is_ok error) then returns (error, out)
                      else
                        (* [input] is taken to get its storage *)
                        let input := wk_transit_key wk in
                        let '(error, output) :=
                          Finish c operation wrapping_key_params input [] in
                        if negb (is_ok error) then returns (error, out)
                        else
                          UnwrapKey_transport d c wk output masking_key out
                  end
                end
          end in
      (result, ocb_count)
    end
  end.

(* ================================================================== *)
(** ** Concrete data on which the properties are exercised *)

(** The values the Android headers give the enumerators, with the boot
    state laid out as a little-endian 32-bit word. *)
Definition android_defs : KeymasterDefs :=
  mk_defs 1 3 32 128 33 1 5 4 1 2 32 1 2 1
          (fun s => match s with
                    | KM_VERIFIED_BOOT_VERIFIED => [x00; x00; x00; x00]
                    | KM_VERIFIED_BOOT_SELF_SIGNED => [x01; x00; x00; x00]
                    | KM_VERIFIED_BOOT_UNVERIFIED => [x02; x00; x00; x00]
                    | KM_VERIFIED_BOOT_FAILED => [x03; x00; x00; x00]
                    end).

(** A build with every optional feature off and the 16-byte master key. *)
Definition default_build : BuildConfig :=
  mk_build 16 false false false false.

(** A context as the constructor leaves it, with the system version set. *)
Definition booted_context (os_version os_patchlevel : Z)
  : TrustyKeymasterContext :=
  mk_context false 0 os_version os_patchlevel true false
             [x55; x6e; x62; x6f; x75; x6e; x64]
             KM_VERIFIED_BOOT_UNVERIFIED false [].

(** A context whose RNG has been seeded and has answered [n] checks. *)
Definition seeded_context (n : Z) : TrustyKeymasterContext :=
  mk_context true n 0 0 false false
             [x55; x6e; x62; x6f; x75; x6e; x64]
             KM_VERIFIED_BOOT_UNVERIFIED false [].

(** Stand-ins for the collaborators: encryption and decryption are the
    identity, every service and every allocation succeeds, a session is
    a 32-bit handle, the blob codec is the table [store], and the
    wrapped-key parser answers [wrapped]. *)
Definition loopback (store : KeymasterKeyBlob ->
                             keymaster_error_t * DeserializedKey)
           (wrapped : WrappedKey) : Collaborators :=
  mk_collaborators
    (fun km fmt _ _ _ _ => (KM_ERROR_OK, mk_encrypted_key fmt km [] []))
    (fun ek _ _ => (KM_ERROR_OK, x01 :: ciphertext ek))
    store
    (fun dk _ _ => (KM_ERROR_OK, ciphertext (encrypted_key dk)))
    1 int_wrap (fun _ => true) (fun _ _ data _ => (0, data))
    (fun f km _ hw sw => (KM_ERROR_OK, Some (mk_key km hw sw f)))
    unit unit
    (fun _ _ => Some tt)
    (fun _ _ _ => (KM_ERROR_OK, Some tt))
    (fun op _ => (KM_ERROR_OK, op))
    (fun op _ input => (KM_ERROR_OK, op, input))
    (fun _ _ input _ => (KM_ERROR_OK, input))
    (fun _ => (KM_ERROR_OK, wrapped))
    (fun size s =>
       push_back (push_back s (mk_param KM_TAG_ALGORITHM (enumerated 32)))
                 (mk_param KM_TAG_KEY_SIZE (integer size)))
    valid_ptr
    (fun _ => (KM_ERROR_OK, [x2a]))
    (fun _ => (KM_ERROR_OK, [[x2a]]))
    (fun _ => (KM_ERROR_OK, [x2b]))
    (fun _ => (KM_ERROR_OK, [[x2b]]))
    unit
    (fun _ _ => (KM_ERROR_OK, tt))
    (fun _ _ _ _ => (KM_ERROR_OK, [[x2c]]))
    (fun _ _ _ => (KM_ERROR_OK, [[x2d]]))
    false 64
    (fun _ => true) (fun _ => true) (fun _ => true) (fun _ _ _ => true).

Definition no_wrapped_key : WrappedKey :=
  mk_wrapped_key [] [] [] [] empty_set 0 [].

(** A blob table with one entry, whatever the bytes. *)
Definition one_key (fmt : AuthEncryptedBlobFormat)
           (hw sw : AuthorizationSet)
  : KeymasterKeyBlob -> keymaster_error_t * DeserializedKey :=
  fun _ => (KM_ERROR_OK,
            mk_deserialized_key (mk_encrypted_key fmt [x6b] [] []) hw sw).

(** An AES key description, and what [SetAuthorizations] makes of it on a
    device that runs OS version 110000, patch level 202101. *)
Definition aes_description : AuthorizationSet :=
  mk_set [mk_param KM_TAG_ALGORITHM (enumerated 32);
          mk_param KM_TAG_KEY_SIZE (integer 128);
          mk_param KM_TAG_CREATION_DATETIME (date_time 1600000000000)] OK.

Definition aes_sets_at_110000 : AuthorizationSet * AuthorizationSet :=
  let '(_, hw, sw) :=
    SetAuthorizations android_defs default_build
                      (booted_context 110000 202101)
                      aes_description 0 empty_set empty_set in
  (hw, sw).

(* ================================================================== *)
(** ** Vocabulary of the properties *)

(** The tags "that should never appear in key descriptions". *)
Definition forbidden_in_description (t : keymaster_tag_t) : bool :=
  match t with
  | KM_TAG_ASSOCIATED_DATA | KM_TAG_AUTH_TOKEN | KM_TAG_BOOTLOADER_ONLY
  | KM_TAG_INVALID | KM_TAG_MAC_LENGTH | KM_TAG_NONCE
  | KM_TAG_ROOT_OF_TRUST | KM_TAG_UNIQUE_ID
  | KM_TAG_IDENTITY_CREDENTIAL_KEY => true
  | _ => false
  end.

(** The tags answered with an error of their own. *)
Definition rejected_tag (b : BuildConfig) (t : keymaster_tag_t) : bool :=
  match t with
  | KM_TAG_ROLLBACK_RESISTANCE | KM_TAG_DEVICE_UNIQUE_ATTESTATION => true
  | KM_TAG_STORAGE_KEY => negb (WITH_HWWSK_SUPPORT b)
  | _ => false
  end.

(** An entry that may stand before the first forbidden tag without
    ending the call itself. *)
Definition passes (b : BuildConfig) (entry : keymaster_key_param_t) : bool :=
  negb (forbidden_in_description (tag entry))
  && negb (rejected_tag b (tag entry)).

(** What one entry adds to [hw_enforced] and to [sw_enforced]. *)
Definition entry_adds (d : KeymasterDefs) (b : BuildConfig)
           (entry : keymaster_key_param_t)
  : list keymaster_key_param_t * list keymaster_key_param_t :=
  match SetAuthorizations_entry d b entry empty_set empty_set with
  | inr (hw, sw) => (params hw, params sw)
  | inl _ => ([], [])
  end.

Definition hw_added (d : KeymasterDefs) (b : BuildConfig)
           (entries : list keymaster_key_param_t)
  : list keymaster_key_param_t :=
  flat_map (fun e => fst (entry_adds d b e)) entries.

Definition sw_added (d : KeymasterDefs) (b : BuildConfig)
           (entries : list keymaster_key_param_t)
  : list keymaster_key_param_t :=
  flat_map (fun e => snd (entry_adds d b e)) entries.

(** The value a set stores under an integer tag, read the way
    [UpgradeIntegerTag] reads it: first entry with the tag. *)
Definition stored (s : AuthorizationSet) (t : keymaster_tag_t) : option Z :=
  GetTagValue s t.

(** Position of the first entry with tag [t], counted in [nat]. *)
Fixpoint index_of (t : keymaster_tag_t) (l : list keymaster_key_param_t)
  : option nat :=
  match l with
  | [] => None
  | p :: rest =>
      if tag_eqb (tag p) t then Some O else option_map S (index_of t rest)
  end.

(** A blob of OS version 120000 on a device that runs 110000. *)
Definition newer_hw : AuthorizationSet :=
  mk_set [mk_param KM_TAG_ALGORITHM (enumerated 32);
          mk_param KM_TAG_OS_VERSION (integer 120000);
          mk_param KM_TAG_OS_PATCHLEVEL (integer 202101)] OK.

(** A set without algorithm tag. *)
Definition sw_with_os_version : AuthorizationSet :=
  mk_set [mk_param KM_TAG_OS_VERSION (integer 110000)] OK.

(** The sets of [aes_sets_at_110000] after an upgrade to OS version
    120000, patch level 202201. *)
Definition aes_key_at_110000 : Key :=
  mk_key [x6b] (fst aes_sets_at_110000) (snd aes_sets_at_110000) aes_factory_.

Definition aes_sets_upgraded : AuthorizationSet * AuthorizationSet :=
  match UpgradeKeyBlob_versions (booted_context 120000 202201)
                                aes_key_at_110000 with
  | Some (hw, sw, _) => (hw, sw)
  | None => (empty_set, empty_set)
  end.

(** The bytes [ParseKeyBlob] hands to the deserializer: the blob itself,
    or the blob without its km_compat prefix when the type byte is 0;
    [None] when the type byte makes the call return at once. *)
Definition deserializer_input (blob : KeymasterKeyBlob)
  : option KeymasterKeyBlob :=
  if has_keystore_prefix blob then
    match nth kKeystoreKeyTypeOffset blob x00 with
    | x00 => Some (skipn kKeystoreKeyBlobPrefixSize blob)
    | _ => None
    end
  else Some blob.

(** A legacy-format blob of an AES key. *)
Definition ocb_store
  : KeymasterKeyBlob -> keymaster_error_t * DeserializedKey :=
  one_key AES_OCB (fst aes_sets_at_110000) (snd aes_sets_at_110000).

(** The answers of [n] reseed checks as a function of the counter's
    residue modulo 32 before the first of them. *)
Fixpoint answers (n : nat) (r : Z) : list bool :=
  match n with
  | O => []
  | S n' => let r' := (r + 1) mod 32 in (r' =? 0) :: answers n' r'
  end.

(** A loaded AES key, and a loaded RSA key that may wrap: purpose WRAP,
    digest SHA-2-256, padding RSA-OAEP. *)
Definition loaded_aes_key : Key := aes_key_at_110000.

Definition wrapping_hw : AuthorizationSet :=
  mk_set [mk_param KM_TAG_ALGORITHM (enumerated 1);
          mk_param KM_TAG_PURPOSE (enumerated 5);
          mk_param KM_TAG_DIGEST (enumerated 4);
          mk_param KM_TAG_PADDING (enumerated 2)] OK.


(** Operation parameters that ask for SHA-2-256 and RSA-OAEP. *)
Definition oaep_sha256_params : AuthorizationSet :=
  mk_set [mk_param KM_TAG_DIGEST (enumerated 4);
          mk_param KM_TAG_PADDING (enumerated 2)] OK.

(** A wrapped-key container with a two-byte transit key. *)
Definition wrapped_container : WrappedKey :=
  mk_wrapped_key [x10] [xaa; xbb] [xc0; xc1] [xd0]
    (mk_set [mk_param KM_TAG_ALGORITHM (enumerated 32)] OK) 3 [xe0].

(** The tags the source lists under "Keystore-enforced tags". *)
Definition keystore_enforced (t : keymaster_tag_t) : bool :=
  match t with
  | KM_TAG_ACTIVE_DATETIME | KM_TAG_ALL_USERS | KM_TAG_CREATION_DATETIME
  | KM_TAG_EXPORTABLE | KM_TAG_INCLUDE_UNIQUE_ID | KM_TAG_MAX_BOOT_LEVEL
  | KM_TAG_ORIGINATION_EXPIRE_DATETIME | KM_TAG_USAGE_COUNT_LIMIT
  | KM_TAG_USAGE_EXPIRE_DATETIME | KM_TAG_USER_ID => true
  | _ => false
  end.

(** The authenticator bits a user-auth-type value keeps in this build. *)
Definition allowed_auth_types (d : KeymasterDefs) (b : BuildConfig) : Z :=
  if TEE_FINGERPRINT_AUTH_SUPPORTED b
  then Z.lor (HW_AUTH_PASSWORD d) (HW_AUTH_FINGERPRINT d)
  else HW_AUTH_PASSWORD d.

(** The three entries [SetAuthorizations] appends after the loop. *)
Definition stamped (ctx : TrustyKeymasterContext) (origin : Z)
  : list keymaster_key_param_t :=
  [mk_param KM_TAG_ORIGIN (enumerated origin);
   mk_param KM_TAG_OS_VERSION (integer (boot_os_version_ ctx));
   mk_param KM_TAG_OS_PATCHLEVEL (integer (boot_os_patchlevel_ ctx))].

(** A description with a user-auth-type entry that asks for password and
    fingerprint, and with caller-chosen version tags. *)
Definition spoofing_description : AuthorizationSet :=
  mk_set [mk_param KM_TAG_ALGORITHM (enumerated 32);
          mk_param KM_TAG_OS_VERSION (integer 990000);
          mk_param KM_TAG_USER_AUTH_TYPE (enumerated 3);
          mk_param KM_TAG_ORIGIN (enumerated 9);
          mk_param KM_TAG_USER_ID (integer 7)] OK.

(** [SeedRngIfNeeded] called once per hardware answer, in order. *)
Definition seed_all (hw_answers : list Z) (ctx : TrustyKeymasterContext)
  : TrustyKeymasterContext :=
  fold_left (fun ctx hw_rand => snd (SeedRngIfNeeded ctx hw_rand))
            hw_answers ctx.

(** The entries an upgrade has no business with. *)
Definition not_a_version (p : keymaster_key_param_t) : bool :=
  negb (tag_eqb (tag p) KM_TAG_OS_VERSION)
  && negb (tag_eqb (tag p) KM_TAG_OS_PATCHLEVEL).

(** [GetVerifiedBootParams]: the four values it copies out, with the
    code it leaves in [*error]. *)
Record VerifiedBootParams : Type := mk_vb_params {
  vb_verified_boot_key : bytes;
  vb_verified_boot_hash : bytes;
  vb_verified_boot_state : keymaster_verified_boot_t;
  vb_device_locked : bool
}.

Definition GetVerifiedBootParams (ctx : TrustyKeymasterContext)
  : keymaster_error_t * VerifiedBootParams :=
  (KM_ERROR_OK,
   mk_vb_params (verified_boot_key_ ctx) (verified_boot_hash_ ctx)
                (verified_boot_state_ ctx) (device_locked_ ctx)).

(** [GetSupportedAlgorithms]: the array and its length. *)
Definition GetSupportedAlgorithms (d : KeymasterDefs) : list Z * Z :=
  (supported_algorithms d, Z.of_nat (length (supported_algorithms d))).

(** Collaborators that differ from [c] in the secure storage only. *)
Definition with_storage (c : Collaborators) (manager : out_ptr)
           (key_read : AttestationKeySlot ->
                       keymaster_error_t * KeymasterKeyBlob)
           (chain_read : AttestationKeySlot ->
                         keymaster_error_t * CertificateChain)
  : Collaborators :=
  mk_collaborators
    (EncryptKey c) (SerializeAuthEncryptedBlob c)
    (DeserializeAuthEncryptedBlob c) (DecryptKey c)
    (hwkey_open c) (to_hwkey_session_t c) (master_key_Reset c)
    (hwkey_derive c)
    (LoadKey c) (OperationFactory c) (Operation c)
    (GetOperationFactory_of c) (CreateOperation c) (Begin c) (Update c)
    (Finish c) (parse_wrapped_key c) (AesEncryptionKey c)
    manager key_read chain_read
    (getAttestationKey c) (getAttestationChain c)
    (AttestKeyInfo c) (make_AttestKeyInfo c) (generate_attestation c)
    (generate_self_signed_cert c)
    (ParseKeyBlob_default_allow_ocb c) (size_t_bits c)
    (KeymasterKeyBlob_allocates c) (plaintext_key_Reinitialize c)
    (encrypted_key_Reinitialize c) (Buffer_write c).

(** A device whose secure storage cannot be opened, and one whose
    storage answers every read with an error; a build with the software
    attestation fallback. *)
Definition storage_closed : Collaborators :=
  with_storage (loopback ocb_store no_wrapped_key) null_ptr
               (fun _ => (KM_ERROR_OK, [x2a]))
               (fun _ => (KM_ERROR_OK, [[x2a]])).

Definition storage_failing : Collaborators :=
  with_storage (loopback ocb_store no_wrapped_key) valid_ptr
               (fun _ => (KM_ERROR_UNKNOWN_ERROR, []))
               (fun _ => (KM_ERROR_OK, [])).

Definition fallback_build : BuildConfig :=
  mk_build 16 false false true false.

(** Collaborators that differ from [c] in [CreateOperation] only. *)
Definition with_CreateOperation (c : Collaborators)
           (create : OperationFactory c -> Key -> AuthorizationSet ->
                     keymaster_error_t * option (Operation c))
  : Collaborators :=
  mk_collaborators
    (EncryptKey c) (SerializeAuthEncryptedBlob c)
    (DeserializeAuthEncryptedBlob c) (DecryptKey c)
    (hwkey_open c) (to_hwkey_session_t c) (master_key_Reset c)
    (hwkey_derive c)
    (LoadKey c) (OperationFactory c) (Operation c)
    (GetOperationFactory_of c) create (Begin c) (Update c)
    (Finish c) (parse_wrapped_key c) (AesEncryptionKey c)
    (SecureStorageManager_get_instance c) (ReadKeyFromStorage c)
    (ReadCertChainFromStorage c)
    (getAttestationKey c) (getAttestationChain c)
    (AttestKeyInfo c) (make_AttestKeyInfo c) (generate_attestation c)
    (generate_self_signed_cert c)
    (ParseKeyBlob_default_allow_ocb c) (size_t_bits c)
    (KeymasterKeyBlob_allocates c) (plaintext_key_Reinitialize c)
    (encrypted_key_Reinitialize c) (Buffer_write c).

(** A wrapping key whose factory hands out no operation and no error. *)
Definition no_operation : Collaborators :=
  with_CreateOperation
    (loopback (one_key AES_GCM_WITH_SW_ENFORCED wrapping_hw empty_set)
              wrapped_container)
    (fun _ _ _ => (KM_ERROR_OK, None)).

(* ------------------------------------------------------------------ *)
(** The auth-token key members of the context and the functions on
    them.  [GetHmacKey] is the enforcement policy's answer to one call:
    its code and the bytes the buffer [auth_token_key_] holds when it
    returns. *)
Record AuthTokenKey : Type := mk_auth_token_key {
  auth_token_key_initialized_ : bool;
  auth_token_key_ : bytes
}.

Definition InitializeAuthTokenKey (st : AuthTokenKey)
           (GetHmacKey : bytes -> keymaster_error_t * bytes)
  : bool * AuthTokenKey :=
  if auth_token_key_initialized_ st then (true, st)
  else
    let '(error, buffer) := GetHmacKey (auth_token_key_ st) in
    let initialized := is_ok error in
    (initialized, mk_auth_token_key initialized buffer).

(** Result: the code, [*key] ([None] while nothing was assigned) and the
    members after the call. *)
Definition GetAuthTokenKey (st : AuthTokenKey)
           (GetHmacKey : bytes -> keymaster_error_t * bytes)
  : keymaster_error_t * option bytes * AuthTokenKey :=
  if auth_token_key_initialized_ st then
    (KM_ERROR_OK, Some (auth_token_key_ st), st)
  else
    let '(initialized, st) := InitializeAuthTokenKey st GetHmacKey in
    if negb initialized then (KM_ERROR_UNKNOWN_ERROR, None, st)
    else (KM_ERROR_OK, Some (auth_token_key_ st), st).

(** [memcmp_s(p1, p2, length)]: zero exactly when the first [length]
    bytes agree. *)
Definition memcmp_s (p1 p2 : bytes) (length : nat) : Z :=
  if list_eq_dec Byte.byte_eq_dec (firstn length p1) (firstn length p2)
  then 0 else 1.

(** [HMAC] answers with the digest it wrote, whose length is
    [computed_hash_length], or with [None] for a null return;
    [kConfirmationTokenSize] comes from the class declaration. *)
Definition CheckConfirmationToken (kConfirmationTokenSize : nat)
           (HMAC : bytes -> bytes -> option bytes)
           (st : AuthTokenKey)
           (GetHmacKey : bytes -> keymaster_error_t * bytes)
           (input_data confirmation_token : bytes)
  : keymaster_error_t * AuthTokenKey :=
  let '(error, auth_token_key, st) := GetAuthTokenKey st GetHmacKey in
  match auth_token_key with
  | None => (error, st)
  | Some auth_token_key =>
      if negb (is_ok error) then (error, st)
      else
        match HMAC auth_token_key input_data with
        | None => (KM_ERROR_UNKNOWN_ERROR, st)
        | Some computed_hash =>
            if negb (length computed_hash =? kConfirmationTokenSize)%nat
               || negb (memcmp_s computed_hash confirmation_token
                                 kConfirmationTokenSize =? 0)
            then (KM_ERROR_NO_USER_CONFIRMATION, st)
            else (KM_ERROR_OK, st)
        end
  end.

(** A stand-in for HMAC that answers with the key followed by the data,
    and a policy that hands out a two-byte key. *)
Definition concat_mac (key data : bytes) : option bytes :=
  Some (key ++ data).

Definition two_byte_policy (buffer : bytes) : keymaster_error_t * bytes :=
  (KM_ERROR_OK, [x11; x22]).

Definition failing_policy (buffer : bytes) : keymaster_error_t * bytes :=
  (KM_ERROR_SECURE_HW_COMMUNICATION_FAILED, buffer).

(** The tags the source lists under "Tags that are hardware-enforced",
    with the storage-key tag where the build supports it and the
    user-auth-type tag. *)
Definition hardware_enforced (b : BuildConfig) (t : keymaster_tag_t)
  : bool :=
  match t with
  | KM_TAG_ALGORITHM | KM_TAG_AUTH_TIMEOUT | KM_TAG_BLOB_USAGE_REQUIREMENTS
  | KM_TAG_BLOCK_MODE | KM_TAG_CALLER_NONCE | KM_TAG_DIGEST
  | KM_TAG_EARLY_BOOT_ONLY | KM_TAG_ECIES_SINGLE_HASH_MODE
  | KM_TAG_EC_CURVE | KM_TAG_KDF | KM_TAG_KEY_SIZE
  | KM_TAG_MAX_USES_PER_BOOT | KM_TAG_MIN_MAC_LENGTH
  | KM_TAG_MIN_SECONDS_BETWEEN_OPS | KM_TAG_NO_AUTH_REQUIRED
  | KM_TAG_PADDING | KM_TAG_PURPOSE | KM_TAG_RSA_OAEP_MGF_DIGEST
  | KM_TAG_RSA_PUBLIC_EXPONENT | KM_TAG_TRUSTED_CONFIRMATION_REQUIRED
  | KM_TAG_TRUSTED_USER_PRESENCE_REQUIRED
  | KM_TAG_UNLOCKED_DEVICE_REQUIRED | KM_TAG_USER_SECURE_ID => true
  | KM_TAG_STORAGE_KEY => WITH_HWWSK_SUPPORT b
  | KM_TAG_USER_AUTH_TYPE => true
  | _ => false
  end.

(** An entry as [hw_enforced] is to hold it: a user-auth-type entry keeps
    the authenticator bits of the build, any other entry is unchanged. *)
Definition masked (d : KeymasterDefs) (b : BuildConfig)
           (entry : keymaster_key_param_t) : keymaster_key_param_t :=
  match tag entry with
  | KM_TAG_USER_AUTH_TYPE =>
      mk_param (tag entry)
               (enumerated (Z.land (u32_member entry)
                                   (allowed_auth_types d b)))
  | _ => entry
  end.

(** Collaborators that differ from [c] in the allocation of a
    [KeymasterKeyBlob] only. *)
Definition with_KeymasterKeyBlob_allocates (c : Collaborators)
           (allocates : KeymasterKeyBlob -> bool) : Collaborators :=
  mk_collaborators
    (EncryptKey c) (SerializeAuthEncryptedBlob c)
    (DeserializeAuthEncryptedBlob c) (DecryptKey c)
    (hwkey_open c) (to_hwkey_session_t c) (master_key_Reset c)
    (hwkey_derive c)
    (LoadKey c) (OperationFactory c) (Operation c)
    (GetOperationFactory_of c) (CreateOperation c) (Begin c) (Update c)
    (Finish c) (parse_wrapped_key c) (AesEncryptionKey c)
    (SecureStorageManager_get_instance c) (ReadKeyFromStorage c)
    (ReadCertChainFromStorage c)
    (getAttestationKey c) (getAttestationChain c)
    (AttestKeyInfo c) (make_AttestKeyInfo c) (generate_attestation c)
    (generate_self_signed_cert c)
    (ParseKeyBlob_default_allow_ocb c) (size_t_bits c)
    allocates (plaintext_key_Reinitialize c)
    (encrypted_key_Reinitialize c) (Buffer_write c).

(** A device on which no [KeymasterKeyBlob] gets its storage. *)
Definition out_of_memory (c : Collaborators) : Collaborators :=
  with_KeymasterKeyBlob_allocates c (fun _ => false).

(* ================================================================== *)
(** * Properties *)

(** ** [SetAuthorizations] and forbidden tags *)

Lemma SetAuthorizations_entry_passes d b entry hw sw :
  passes b entry = true ->
  exists hw' sw',
    SetAuthorizations_entry d b entry hw sw = inr (hw', sw') /\
    params hw' = params hw ++ fst (entry_adds d b entry) /\
    params sw' = params sw ++ snd (entry_adds d b entry).
Proof.
  unfold passes, entry_adds, SetAuthorizations_entry.
  destruct (tag entry); simpl; try discriminate;
    try (destruct (WITH_HWWSK_SUPPORT b); simpl; try discriminate);
    intros _; eexists; eexists; (split; [reflexivity|]);
    simpl; rewrite ?app_nil_r; split; reflexivity.
Qed.

Lemma SetAuthorizations_entry_forbidden d b entry hw sw :
  forbidden_in_description (tag entry) = true ->
  SetAuthorizations_entry d b entry hw sw = inl KM_ERROR_INVALID_KEY_BLOB.
Proof.
  unfold SetAuthorizations_entry.
  destruct (tag entry); simpl; intros H; try discriminate H; reflexivity.
Qed.

Lemma SetAuthorizations_loop_forbidden d b pre f post :
  forbidden_in_description (tag f) = true ->
  forallb (passes b) pre = true ->
  forall hw sw,
  exists hw' sw',
    SetAuthorizations_loop d b (pre ++ f :: post) hw sw
      = (Some KM_ERROR_INVALID_KEY_BLOB, hw', sw') /\
    params hw' = params hw ++ hw_added d b pre /\
    params sw' = params sw ++ sw_added d b pre.
Proof.
  intros Hf. induction pre as [|e pre IH]; intros Hpre hw sw.
  - simpl. rewrite (SetAuthorizations_entry_forbidden d b f hw sw Hf).
    exists hw, sw. rewrite !app_nil_r. auto.
  - simpl in Hpre. apply andb_true_iff in Hpre as [He Hpre].
    destruct (SetAuthorizations_entry_passes d b e hw sw He)
      as (hw1 & sw1 & Hstep & Hhw1 & Hsw1).
    destruct (IH Hpre hw1 sw1) as (hw' & sw' & Hloop & Hhw' & Hsw').
    exists hw', sw'. simpl. rewrite Hstep, Hloop.
    unfold hw_added, sw_added in *. simpl.
    rewrite Hhw', Hsw', Hhw1, Hsw1, <- !app_assoc. auto.
Qed.

(** C1 (as amended).  When the first forbidden tag of a key description
    is preceded by no tag that is rejected with a code of its own
    (rollback resistance, device-unique attestation, the storage-key tag
    in a build without that feature), [SetAuthorizations] returns
    invalid-key-blob, and the two output sets hold exactly what the
    entries before the forbidden tag put there: nothing when the
    forbidden tag comes first, the hardware- and software-enforced
    entries met so far otherwise.  Origin and versions are not added. *)
Theorem SetAuthorizations_forbidden_tag :
  forall d b ctx pre f post err origin hw0 sw0,
    forbidden_in_description (tag f) = true ->
    forallb (passes b) pre = true ->
    exists hw sw,
      SetAuthorizations d b ctx (mk_set (pre ++ f :: post) err) origin
                        hw0 sw0
        = (KM_ERROR_INVALID_KEY_BLOB, hw, sw) /\
      params hw = hw_added d b pre /\
      params sw = sw_added d b pre /\
      (pre = [] -> params hw = [] /\ params sw = []).
Proof.
  intros d b ctx pre f post err origin hw0 sw0 Hf Hpre.
  destruct (SetAuthorizations_loop_forbidden d b pre f post Hf Hpre
              (Clear hw0) (Clear sw0)) as (hw & sw & Hloop & Hhw & Hsw).
  exists hw, sw. unfold SetAuthorizations. simpl params at 1.
  rewrite Hloop. simpl in Hhw, Hsw.
  split; [reflexivity|]. split; [exact Hhw|]. split; [exact Hsw|].
  intros ->. rewrite Hhw, Hsw. split; reflexivity.
Qed.

Lemma SetAuthorizations_forbidden_tag_witness :
  exists hw sw,
    SetAuthorizations android_defs default_build (booted_context 110000 202101)
      (mk_set ([mk_param KM_TAG_ALGORITHM (enumerated 32);
                mk_param KM_TAG_USER_ID (integer 7)]
               ++ mk_param KM_TAG_NONCE (blob [x01]) :: []) OK)
      0 empty_set empty_set
      = (KM_ERROR_INVALID_KEY_BLOB, hw, sw) /\
    params hw = [mk_param KM_TAG_ALGORITHM (enumerated 32)] /\
    params sw = [mk_param KM_TAG_USER_ID (integer 7)].
Proof.
  destruct (SetAuthorizations_forbidden_tag android_defs default_build
              (booted_context 110000 202101)
              [mk_param KM_TAG_ALGORITHM (enumerated 32);
               mk_param KM_TAG_USER_ID (integer 7)]
              (mk_param KM_TAG_NONCE (blob [x01])) [] OK 0
              empty_set empty_set eq_refl eq_refl)
    as (hw & sw & H & Hhw & Hsw & _).
  exists hw, sw. repeat split; assumption.
Defined.

(** C1 (as stated) fails: a forbidden tag after a rejected tag does not
    yield invalid-key-blob, and a forbidden tag after a
    hardware-enforced tag leaves that entry in [hw_enforced]. *)
Lemma SetAuthorizations_forbidden_tag_counterexample :
  (let '(e, hw, sw) :=
     SetAuthorizations android_defs default_build
       (booted_context 110000 202101)
       (mk_set [mk_param KM_TAG_ROLLBACK_RESISTANCE (boolean true);
                mk_param KM_TAG_NONCE (blob [x01])] OK)
       0 empty_set empty_set in
   e <> KM_ERROR_INVALID_KEY_BLOB) /\
  (let '(e, hw, sw) :=
     SetAuthorizations android_defs default_build
       (booted_context 110000 202101)
       (mk_set [mk_param KM_TAG_ALGORITHM (enumerated 32);
                mk_param KM_TAG_NONCE (blob [x01])] OK)
       0 empty_set empty_set in
   e = KM_ERROR_INVALID_KEY_BLOB /\ params hw <> []).
Proof.
  vm_compute. repeat split; discriminate.
Qed.

(** ** Looking up and updating integer tags *)

Lemma tag_eqb_eq a b : tag_eqb a b = true <-> a = b.
Proof.
  unfold tag_eqb. destruct (keymaster_tag_eq_dec a b); split;
    intros; congruence.
Qed.

Lemma tag_eqb_refl a : tag_eqb a a = true.
Proof. apply tag_eqb_eq. reflexivity. Qed.

Lemma tag_eqb_neq a b : a <> b -> tag_eqb a b = false.
Proof.
  intros H. destruct (tag_eqb a b) eqn:E; [|reflexivity].
  apply tag_eqb_eq in E. contradiction.
Qed.

Lemma find_from_index_of t l : forall i,
  find_from t l i = match index_of t l with
                    | None => -1
                    | Some n => i + Z.of_nat n
                    end.
Proof.
  induction l as [|p l IH]; intros i; simpl; [reflexivity|].
  destruct (tag_eqb (tag p) t); [lia|].
  rewrite IH. destruct (index_of t l); simpl; lia.
Qed.

Lemma stored_index_of s t :
  stored s t = match index_of t (params s) with
               | None => None
               | Some n => Some (u32_member (nth n (params s) empty_param))
               end.
Proof.
  unfold stored, GetTagValue, at_index, find.
  rewrite find_from_index_of.
  destruct (index_of t (params s)) as [n|]; [|reflexivity].
  replace (0 + Z.of_nat n =? -1) with false by (symmetry; apply Z.eqb_neq; lia).
  simpl. rewrite Nat2Z.id. reflexivity.
Qed.

Lemma index_of_Some t l n :
  index_of t l = Some n ->
  (n < length l)%nat /\ tag (nth n l empty_param) = t.
Proof.
  revert n. induction l as [|p l IH]; intros n; simpl; [discriminate|].
  destruct (tag_eqb (tag p) t) eqn:E.
  - intros [= <-]. split; [lia|]. apply tag_eqb_eq; assumption.
  - destruct (index_of t l) as [m|]; simpl; [|discriminate].
    intros [= <-]. destruct (IH m eq_refl). split; [lia|assumption].
Qed.

Lemma index_of_app_Some t l l' n :
  index_of t l = Some n -> index_of t (l ++ l') = Some n.
Proof.
  revert n. induction l as [|p l IH]; intros n; simpl; [discriminate|].
  destruct (tag_eqb (tag p) t); [auto|].
  destruct (index_of t l) as [m|]; simpl; [|discriminate].
  intros [= <-]. rewrite (IH m eq_refl). reflexivity.
Qed.

Lemma index_of_app_None t l p :
  index_of t l = None ->
  index_of t (l ++ [p])
  = if tag_eqb (tag p) t then Some (length l) else None.
Proof.
  induction l as [|q l IH]; simpl.
  - intros _. destruct (tag_eqb (tag p) t); reflexivity.
  - destruct (tag_eqb (tag q) t); [discriminate|].
    destruct (index_of t l) as [m|]; simpl; [discriminate|].
    intros _. rewrite (IH eq_refl).
    destruct (tag_eqb (tag p) t); reflexivity.
Qed.

Lemma index_of_store_integer t l n v :
  index_of t (store_integer l n v) = index_of t l.
Proof.
  revert n. induction l as [|p l IH]; intros n; simpl; [reflexivity|].
  destruct n; simpl; [reflexivity|]. rewrite IH. reflexivity.
Qed.

Lemma nth_store_integer_same l n v :
  (n < length l)%nat ->
  nth n (store_integer l n v) empty_param
  = mk_param (tag (nth n l empty_param)) (integer v).
Proof.
  revert n. induction l as [|p l IH]; intros n; simpl; [lia|].
  destruct n; simpl; [reflexivity|]. intros H. apply IH. lia.
Qed.

Lemma nth_store_integer_other l n m v :
  m <> n ->
  nth m (store_integer l n v) empty_param = nth m l empty_param.
Proof.
  revert n m. induction l as [|p l IH]; intros n m; simpl.
  - reflexivity.
  - destruct n, m; simpl; try reflexivity; try congruence.
    intros H. apply IH. congruence.
Qed.

(** [UpgradeIntegerTag] seen through [stored]. *)
Lemma UpgradeIntegerTag_absent t v set ch :
  stored set t = None ->
  UpgradeIntegerTag t v set ch
  = (true, push_back set (mk_param t (integer v)), true).
Proof.
  rewrite stored_index_of. unfold UpgradeIntegerTag, find.
  rewrite find_from_index_of.
  destruct (index_of t (params set)); [discriminate|reflexivity].
Qed.

Lemma UpgradeIntegerTag_present t v set ch x :
  stored set t = Some x ->
  UpgradeIntegerTag t v set ch
  = if x >? v then (false, set, ch)
    else if negb (x =? v)
         then (true, set_integer_at set (find set t) v, true)
         else (true, set, ch).
Proof.
  unfold stored, GetTagValue, UpgradeIntegerTag.
  destruct (find set t =? -1); [discriminate|].
  intros [= <-]. reflexivity.
Qed.

Lemma UpgradeIntegerTag_stores t v set ch set' ch' :
  UpgradeIntegerTag t v set ch = (true, set', ch') ->
  stored set' t = Some v.
Proof.
  destruct (stored set t) as [x|] eqn:E.
  - rewrite (UpgradeIntegerTag_present t v set ch x E).
    destruct (x >? v); [discriminate|].
    destruct (x =? v) eqn:Ex; simpl; intros [= <- <-].
    + apply Z.eqb_eq in Ex. congruence.
    + rewrite stored_index_of in *. unfold set_integer_at, find. simpl.
      rewrite find_from_index_of, index_of_store_integer.
      destruct (index_of t (params set)) as [n|] eqn:En; [|discriminate].
      simpl. rewrite Nat2Z.id.
      destruct (index_of_Some _ _ _ En) as [Hn _].
      rewrite nth_store_integer_same by assumption. reflexivity.
  - rewrite (UpgradeIntegerTag_absent t v set ch E). intros [= <- <-].
    rewrite stored_index_of in *. simpl.
    destruct (index_of t (params set)) eqn:En; [discriminate|].
    rewrite (index_of_app_None _ _ _ En). simpl. rewrite tag_eqb_refl.
    rewrite app_nth2 by lia. rewrite Nat.sub_diag. reflexivity.
Qed.

Lemma UpgradeIntegerTag_keeps_other t t' v set ch set' ch' :
  t <> t' ->
  UpgradeIntegerTag t v set ch = (true, set', ch') ->
  stored set' t' = stored set t'.
Proof.
  intros Hne. destruct (stored set t) as [x|] eqn:E.
  - rewrite (UpgradeIntegerTag_present t v set ch x E).
    destruct (x >? v); [discriminate|].
    destruct (x =? v); simpl; intros [= <- <-]; [reflexivity|].
    rewrite !stored_index_of in *. unfold set_integer_at, find. simpl.
    rewrite find_from_index_of, index_of_store_integer.
    destruct (index_of t (params set)) as [n|] eqn:En; [|discriminate].
    simpl. rewrite Nat2Z.id.
    destruct (index_of t' (params set)) as [m|] eqn:Em; [|reflexivity].
    rewrite nth_store_integer_other; [reflexivity|].
    intros ->. apply index_of_Some in En, Em.
    destruct En as [_ En], Em as [_ Em]. congruence.
  - rewrite (UpgradeIntegerTag_absent t v set ch E). intros [= <- <-].
    rewrite !stored_index_of. simpl.
    destruct (index_of t' (params set)) as [m|] eqn:Em.
    + rewrite (index_of_app_Some _ _ _ _ Em).
      apply index_of_Some in Em. destruct Em as [Hm _].
      rewrite app_nth1 by assumption. reflexivity.
    + rewrite (index_of_app_None _ _ _ Em). simpl.
      rewrite tag_eqb_neq by assumption. reflexivity.
Qed.

Lemma UpgradeIntegerTag_fixed t v set ch :
  stored set t = Some v ->
  UpgradeIntegerTag t v set ch = (true, set, ch).
Proof.
  intros H. rewrite (UpgradeIntegerTag_present t v set ch v H).
  rewrite Z.eqb_refl. simpl.
  replace (v >? v) with false by (symmetry; rewrite Z.gtb_ltb; apply Z.ltb_irrefl).
  reflexivity.
Qed.

Lemma UpgradeIntegerTag_downgrade t v set ch x :
  stored set t = Some x -> x > v ->
  UpgradeIntegerTag t v set ch = (false, set, ch).
Proof.
  intros H Hgt. rewrite (UpgradeIntegerTag_present t v set ch x H).
  replace (x >? v) with true; [reflexivity|].
  symmetry. rewrite Z.gtb_ltb. apply Z.ltb_lt. lia.
Qed.

(** ** [UpgradeKeyBlob] *)

Lemma UpgradeKeyBlob_versions_downgrade ctx key :
  (exists x, stored (hw_enforced key) KM_TAG_OS_VERSION = Some x /\
             x > boot_os_version_ ctx) \/
  (exists x, stored (hw_enforced key) KM_TAG_OS_PATCHLEVEL = Some x /\
             x > boot_os_patchlevel_ ctx) ->
  UpgradeKeyBlob_versions ctx key = None.
Proof.
  intros H. unfold UpgradeKeyBlob_versions.
  destruct (if boot_os_version_ ctx =? 0 then _ else _) as [sw ch].
  destruct H as [(x & Hx & Hgt) | (x & Hx & Hgt)].
  - rewrite (UpgradeIntegerTag_downgrade _ _ _ ch x Hx Hgt). reflexivity.
  - destruct (UpgradeIntegerTag KM_TAG_OS_VERSION (boot_os_version_ ctx)
                (hw_enforced key) ch) as [[ok hw] ch'] eqn:E.
    destruct ok; [|reflexivity]. simpl.
    assert (Hkeep : stored hw KM_TAG_OS_PATCHLEVEL = Some x).
    { assert (Hne : KM_TAG_OS_VERSION <> KM_TAG_OS_PATCHLEVEL) by discriminate.
      rewrite (UpgradeIntegerTag_keeps_other _ _ _ _ _ _ _ Hne E).
      assumption. }
    rewrite (UpgradeIntegerTag_downgrade _ _ _ ch' x Hkeep Hgt). reflexivity.
Qed.

Lemma UpgradeKeyBlob_after_parse d b c ctx blob upgrade_params n key n' :
  ParseKeyBlob d b c ctx blob upgrade_params valid_ptr true n
    = (returns (KM_ERROR_OK, Some key), n') ->
  UpgradeKeyBlob d b c ctx blob upgrade_params n
  = match UpgradeKeyBlob_versions ctx key with
    | None => (returns (KM_ERROR_INVALID_ARGUMENT, None), n')
    | Some (hw, sw, set_changed) =>
        if negb set_changed then (returns (KM_ERROR_OK, None), n')
        else (returns (CreateAuthEncryptedKeyBlob d b c ctx upgrade_params
                         (key_material key) hw sw), n')
    end.
Proof.
  intros H. unfold UpgradeKeyBlob. rewrite H. simpl.
  destruct (UpgradeKeyBlob_versions ctx key) as [[[hw sw] ch]|]; reflexivity.
Qed.

(** C6.  A parseable blob whose [hw_enforced] stores an OS version, or an
    OS patch level, above the device's current boot value is refused by
    [UpgradeKeyBlob] with invalid-argument, and no upgraded blob is
    written (the boot OS version being other than 0). *)
Theorem UpgradeKeyBlob_downgrade_rejected :
  forall d b c ctx blob upgrade_params n key n',
    ParseKeyBlob d b c ctx blob upgrade_params valid_ptr true n
      = (returns (KM_ERROR_OK, Some key), n') ->
    boot_os_version_ ctx <> 0 ->
    (exists x, stored (hw_enforced key) KM_TAG_OS_VERSION = Some x /\
               x > boot_os_version_ ctx) \/
    (exists x, stored (hw_enforced key) KM_TAG_OS_PATCHLEVEL = Some x /\
               x > boot_os_patchlevel_ ctx) ->
    UpgradeKeyBlob d b c ctx blob upgrade_params n
    = (returns (KM_ERROR_INVALID_ARGUMENT, None), n').
Proof.
  intros d b c ctx blob upgrade_params n key n' Hparse _ Hgt.
  rewrite (UpgradeKeyBlob_after_parse _ _ _ _ _ _ _ _ _ Hparse).
  rewrite (UpgradeKeyBlob_versions_downgrade ctx key Hgt). reflexivity.
Qed.

Lemma UpgradeKeyBlob_downgrade_rejected_witness :
  UpgradeKeyBlob android_defs default_build
    (loopback (one_key AES_GCM_WITH_SW_ENFORCED newer_hw empty_set)
              no_wrapped_key)
    (booted_context 110000 202101) [x01] empty_set 0
  = (returns (KM_ERROR_INVALID_ARGUMENT, None), 0).
Proof.
  apply (UpgradeKeyBlob_downgrade_rejected android_defs default_build _
           (booted_context 110000 202101) [x01] empty_set 0
           (mk_key [x6b] newer_hw empty_set aes_factory_) 0).
  - reflexivity.
  - simpl. lia.
  - left. exists 120000. split; [reflexivity | simpl; lia].
Defined.

(** C2 (code defect).  A key created by [CreateKeyBlob] on OS version
    110000 stores that version in [hw_enforced]; on a device whose boot
    OS version is 0 its upgrade is refused with invalid-argument instead
    of storing version 0: the zero-version rule rewrites [sw_enforced]
    only, and [UpgradeIntegerTag] then sees a downgrade in
    [hw_enforced]. *)
Theorem UpgradeKeyBlob_zero_boot_version_rejects :
  exists created hw sw,
    CreateKeyBlob android_defs default_build
      (loopback (one_key AES_GCM_WITH_SW_ENFORCED empty_set empty_set)
                no_wrapped_key)
      (booted_context 110000 202101) aes_description 0 [x6b]
      empty_set empty_set
    = (KM_ERROR_OK, Some created, hw, sw) /\
    stored hw KM_TAG_OS_VERSION = Some 110000 /\
    boot_os_version_ (booted_context 0 202101) = 0 /\
    UpgradeKeyBlob android_defs default_build
      (loopback (one_key AES_GCM_WITH_SW_ENFORCED hw sw) no_wrapped_key)
      (booted_context 0 202101) created aes_description 0
    = (returns (KM_ERROR_INVALID_ARGUMENT, None), 0).
Proof.
  eexists. eexists. eexists.
  split; [vm_compute; reflexivity|].
  split; [vm_compute; reflexivity|].
  split; [reflexivity|].
  vm_compute. reflexivity.
Qed.

Lemma stored_set_integer_at s t v x :
  stored s t = Some x ->
  stored (set_integer_at s (find s t) v) t = Some v.
Proof.
  rewrite !stored_index_of. unfold set_integer_at, find. simpl.
  rewrite find_from_index_of, index_of_store_integer.
  destruct (index_of t (params s)) as [n|] eqn:En; [|discriminate].
  intros _. simpl. rewrite Nat2Z.id.
  destruct (index_of_Some _ _ _ En) as [Hn _].
  rewrite nth_store_integer_same by assumption. reflexivity.
Qed.

(** The zero-version rule leaves [sw_enforced] alone once it stores no
    OS version other than the boot value. *)
Lemma UpgradeKeyBlob_versions_unchanged ctx key :
  stored (hw_enforced key) KM_TAG_OS_VERSION = Some (boot_os_version_ ctx) ->
  stored (hw_enforced key) KM_TAG_OS_PATCHLEVEL
    = Some (boot_os_patchlevel_ ctx) ->
  (boot_os_version_ ctx = 0 ->
   stored (sw_enforced key) KM_TAG_OS_VERSION = None \/
   stored (sw_enforced key) KM_TAG_OS_VERSION = Some 0) ->
  UpgradeKeyBlob_versions ctx key
  = Some (hw_enforced key, sw_enforced key, false).
Proof.
  intros Hv Hp Hsw. unfold UpgradeKeyBlob_versions.
  destruct (if boot_os_version_ ctx =? 0 then _ else _) as [sw1 ch1] eqn:Hrule.
  assert (Hsame : (sw1, ch1) = (sw_enforced key, false)).
  { rewrite <- Hrule. clear Hrule.
    destruct (boot_os_version_ ctx =? 0) eqn:E0; [|reflexivity].
    apply Z.eqb_eq in E0. specialize (Hsw E0). rewrite E0.
    unfold stored, GetTagValue in Hsw. cbv zeta.
    destruct (find (sw_enforced key) KM_TAG_OS_VERSION =? -1);
      [reflexivity|].
    destruct Hsw as [Hsw | Hsw]; [discriminate|].
    injection Hsw as ->. reflexivity. }
  injection Hsame as -> ->.
  rewrite (UpgradeIntegerTag_fixed _ _ _ false Hv). simpl.
  rewrite (UpgradeIntegerTag_fixed _ _ _ false Hp). reflexivity.
Qed.

(** What one run of the version update leaves behind satisfies the
    premises of [UpgradeKeyBlob_versions_unchanged]. *)
Lemma UpgradeKeyBlob_versions_settles ctx key hw sw ch :
  UpgradeKeyBlob_versions ctx key = Some (hw, sw, ch) ->
  stored hw KM_TAG_OS_VERSION = Some (boot_os_version_ ctx) /\
  stored hw KM_TAG_OS_PATCHLEVEL = Some (boot_os_patchlevel_ ctx) /\
  (boot_os_version_ ctx = 0 ->
   stored sw KM_TAG_OS_VERSION = None \/
   stored sw KM_TAG_OS_VERSION = Some 0).
Proof.
  unfold UpgradeKeyBlob_versions.
  destruct (if boot_os_version_ ctx =? 0 then _ else _) as [sw1 ch1] eqn:Hrule.
  destruct (UpgradeIntegerTag KM_TAG_OS_VERSION (boot_os_version_ ctx)
              (hw_enforced key) ch1) as [[ok1 hw1] ch2] eqn:E1.
  destruct ok1; simpl; [|discriminate].
  destruct (UpgradeIntegerTag KM_TAG_OS_PATCHLEVEL (boot_os_patchlevel_ ctx)
              hw1 ch2) as [[ok2 hw2] ch3] eqn:E2.
  destruct ok2; simpl; [|discriminate].
  intros [= <- <- <-].
  assert (Hne : KM_TAG_OS_PATCHLEVEL <> KM_TAG_OS_VERSION) by discriminate.
  split; [|split].
  - rewrite (UpgradeIntegerTag_keeps_other _ _ _ _ _ _ _ Hne E2).
    exact (UpgradeIntegerTag_stores _ _ _ _ _ _ E1).
  - exact (UpgradeIntegerTag_stores _ _ _ _ _ _ E2).
  - intros E0. rewrite E0 in Hrule. simpl in Hrule.
    destruct (stored (sw_enforced key) KM_TAG_OS_VERSION) as [x|] eqn:Es.
    + right. pose proof Es as Es'. unfold stored, GetTagValue in Es'.
      destruct (find (sw_enforced key) KM_TAG_OS_VERSION =? -1);
        [discriminate|].
      injection Es' as Ex. rewrite Ex in Hrule. simpl in Hrule.
      destruct (x =? 0) eqn:Ex0; simpl in Hrule;
        injection Hrule as <- _.
      * apply Z.eqb_eq in Ex0. congruence.
      * exact (stored_set_integer_at _ _ 0 x Es).
    + left. pose proof Es as Es'. unfold stored, GetTagValue in Es'.
      destruct (find (sw_enforced key) KM_TAG_OS_VERSION =? -1);
        [|discriminate].
      simpl in Hrule. injection Hrule as <- _. exact Es.
Qed.

(** Blobs made by [SetAuthorizations] keep the OS version out of
    [sw_enforced], so the zero-version rule finds nothing to rewrite in
    them. *)
Lemma SetAuthorizations_entry_sw_no_os_version d b entry hw sw hw' sw' :
  SetAuthorizations_entry d b entry hw sw = inr (hw', sw') ->
  index_of KM_TAG_OS_VERSION (params sw) = None ->
  index_of KM_TAG_OS_VERSION (params sw') = None.
Proof.
  unfold SetAuthorizations_entry.
  destruct (tag entry) eqn:E;
    try (destruct (WITH_HWWSK_SUPPORT b));
    intros H Hsw; try discriminate H;
    injection H as <- <-; try assumption;
    simpl; rewrite (index_of_app_None _ _ _ Hsw), E; reflexivity.
Qed.

Lemma SetAuthorizations_loop_sw_no_os_version d b entries :
  forall hw sw hw' sw',
    SetAuthorizations_loop d b entries hw sw = (None, hw', sw') ->
    index_of KM_TAG_OS_VERSION (params sw) = None ->
    index_of KM_TAG_OS_VERSION (params sw') = None.
Proof.
  induction entries as [|e entries IH]; intros hw sw hw' sw'; simpl.
  - intros [= <- <-]. auto.
  - destruct (SetAuthorizations_entry d b e hw sw) as [err|[hw1 sw1]] eqn:E;
      [discriminate|].
    intros Hloop Hsw. apply (IH _ _ _ _ Hloop).
    exact (SetAuthorizations_entry_sw_no_os_version _ _ _ _ _ _ _ E Hsw).
Qed.

Lemma SetAuthorizations_sw_no_os_version
      d b ctx key_description origin hw0 sw0 hw sw :
  SetAuthorizations d b ctx key_description origin hw0 sw0
    = (KM_ERROR_OK, hw, sw) ->
  stored sw KM_TAG_OS_VERSION = None.
Proof.
  unfold SetAuthorizations.
  destruct (SetAuthorizations_loop d b (params key_description)
              (Clear hw0) (Clear sw0)) as [[[e|] hw1] sw1] eqn:E.
  - intros [= -> <- <-]. exfalso. revert E. clear.
    generalize (Clear hw0), (Clear sw0).
    induction (params key_description) as [|p l IH]; intros h s; simpl;
      [discriminate|].
    destruct (SetAuthorizations_entry d b p h s) as [err|[h1 s1]] eqn:Ep.
    + intros [= -> _ _]. revert Ep. unfold SetAuthorizations_entry.
      destruct (tag p); try (destruct (WITH_HWWSK_SUPPORT b));
        discriminate.
    + apply IH.
  - pose proof (SetAuthorizations_loop_sw_no_os_version _ _ _ _ _ _ _ E
                  eq_refl) as Hnone.
    rewrite stored_index_of.
    unfold is_valid. simpl.
    destruct (error_ sw1); destruct (error_ hw1);
      intros [= <- <-]; rewrite Hnone; reflexivity.
Qed.

(** C7.  [UpgradeKeyBlob] is idempotent: for every parseable blob whose
    stored OS version and patch level already equal the boot values
    ([hw_enforced] stores both, and an OS version that [sw_enforced]
    stores is the boot OS version as well), the call returns success and
    writes no new blob.  In particular, after an upgrade that was not
    refused, upgrading a blob that parses to the sets that upgrade
    arrived at (the new blob, or the old one if nothing changed) returns
    success with no new blob.  For a blob whose [sw_enforced] is one
    that [SetAuthorizations] made, the two values in [hw_enforced]
    decide alone. *)
Theorem UpgradeKeyBlob_idempotent :
  forall d b c ctx,
    (forall blob upgrade_params n key n',
        ParseKeyBlob d b c ctx blob upgrade_params valid_ptr true n
          = (returns (KM_ERROR_OK, Some key), n') ->
        stored (hw_enforced key) KM_TAG_OS_VERSION
          = Some (boot_os_version_ ctx) ->
        stored (hw_enforced key) KM_TAG_OS_PATCHLEVEL
          = Some (boot_os_patchlevel_ ctx) ->
        (forall x, stored (sw_enforced key) KM_TAG_OS_VERSION = Some x ->
                   x = boot_os_version_ ctx) ->
        UpgradeKeyBlob d b c ctx blob upgrade_params n
        = (returns (KM_ERROR_OK, None), n'))
    /\
    (forall key hw sw changed blob2 upgrade_params n key2 n',
        UpgradeKeyBlob_versions ctx key = Some (hw, sw, changed) ->
        ParseKeyBlob d b c ctx blob2 upgrade_params valid_ptr true n
          = (returns (KM_ERROR_OK, Some key2), n') ->
        hw_enforced key2 = hw ->
        sw_enforced key2 = sw ->
        UpgradeKeyBlob d b c ctx blob2 upgrade_params n
        = (returns (KM_ERROR_OK, None), n'))
    /\
    (forall ctx0 key_description origin hw0 sw0 hw sw
            blob upgrade_params n key n',
        SetAuthorizations d b ctx0 key_description origin hw0 sw0
          = (KM_ERROR_OK, hw, sw) ->
        ParseKeyBlob d b c ctx blob upgrade_params valid_ptr true n
          = (returns (KM_ERROR_OK, Some key), n') ->
        sw_enforced key = sw ->
        stored (hw_enforced key) KM_TAG_OS_VERSION
          = Some (boot_os_version_ ctx) ->
        stored (hw_enforced key) KM_TAG_OS_PATCHLEVEL
          = Some (boot_os_patchlevel_ ctx) ->
        UpgradeKeyBlob d b c ctx blob upgrade_params n
        = (returns (KM_ERROR_OK, None), n')).
Proof.
  intros d b c ctx. split; [|split].
  - intros blob upgrade_params n key n' Hparse Hv Hp Hsw.
    rewrite (UpgradeKeyBlob_after_parse _ _ _ _ _ _ _ _ _ Hparse).
    rewrite (UpgradeKeyBlob_versions_unchanged ctx key Hv Hp).
    + reflexivity.
    + intros Hzero.
      destruct (stored (sw_enforced key) KM_TAG_OS_VERSION) as [x|] eqn:Ex;
        [right | left; reflexivity].
      rewrite (Hsw x eq_refl), Hzero. reflexivity.
  - intros key hw sw changed blob2 upgrade_params n key2 n'
           Hfirst Hparse Hhw Hsw.
    destruct (UpgradeKeyBlob_versions_settles _ _ _ _ _ Hfirst)
      as (Hv & Hp & Hs).
    rewrite (UpgradeKeyBlob_after_parse _ _ _ _ _ _ _ _ _ Hparse).
    rewrite <- Hhw in Hv, Hp. rewrite <- Hsw in Hs.
    rewrite (UpgradeKeyBlob_versions_unchanged ctx key2 Hv Hp Hs).
    reflexivity.
  - intros ctx0 key_description origin hw0 sw0 hw sw
           blob upgrade_params n key n' Hset Hparse Hsw Hv Hp.
    rewrite (UpgradeKeyBlob_after_parse _ _ _ _ _ _ _ _ _ Hparse).
    rewrite (UpgradeKeyBlob_versions_unchanged ctx key Hv Hp).
    + reflexivity.
    + intros _. left. rewrite Hsw.
      exact (SetAuthorizations_sw_no_os_version _ _ _ _ _ _ _ _ _ Hset).
Qed.

Lemma UpgradeKeyBlob_idempotent_witness :
  UpgradeKeyBlob android_defs default_build
    (loopback (one_key AES_GCM_WITH_SW_ENFORCED
                       (fst aes_sets_at_110000) (snd aes_sets_at_110000))
              no_wrapped_key)
    (booted_context 110000 202101) [x01] aes_description 0
  = (returns (KM_ERROR_OK, None), 0)
  /\
  UpgradeKeyBlob android_defs default_build
    (loopback (one_key AES_GCM_WITH_SW_ENFORCED
                       (fst aes_sets_upgraded) (snd aes_sets_upgraded))
              no_wrapped_key)
    (booted_context 120000 202201) [x01] aes_description 0
  = (returns (KM_ERROR_OK, None), 0)
  /\
  UpgradeKeyBlob android_defs default_build
    (loopback (one_key AES_GCM_WITH_SW_ENFORCED
                       (fst aes_sets_at_110000) (snd aes_sets_at_110000))
              no_wrapped_key)
    (booted_context 110000 202101) [x02] empty_set 0
  = (returns (KM_ERROR_OK, None), 0).
Proof.
  split; [|split].
  - apply (proj1 (UpgradeKeyBlob_idempotent android_defs default_build _
                    (booted_context 110000 202101))
             [x01] aes_description 0 aes_key_at_110000 0).
    + reflexivity.
    + reflexivity.
    + reflexivity.
    + simpl. intros x H. discriminate H.
  - apply (proj1 (proj2 (UpgradeKeyBlob_idempotent android_defs
                           default_build _
                           (booted_context 120000 202201)))
             aes_key_at_110000
             (fst aes_sets_upgraded) (snd aes_sets_upgraded) true
             [x01] aes_description 0
             (mk_key [x6b] (fst aes_sets_upgraded) (snd aes_sets_upgraded)
                     aes_factory_) 0).
    + reflexivity.
    + reflexivity.
    + reflexivity.
    + reflexivity.
  - apply (proj2 (proj2 (UpgradeKeyBlob_idempotent android_defs
                           default_build _
                           (booted_context 110000 202101)))
             (booted_context 110000 202101) aes_description 0
             empty_set empty_set
             (fst aes_sets_at_110000) (snd aes_sets_at_110000)
             [x02] empty_set 0 aes_key_at_110000 0).
    + reflexivity.
    + reflexivity.
    + reflexivity.
    + reflexivity.
    + reflexivity.
Defined.

(** ** [ParseKeyBlob] *)

Lemma has_keystore_prefix_magic t rest :
  has_keystore_prefix (kKeystoreKeyBlobMagic ++ t :: rest) = true.
Proof. reflexivity. Qed.

Lemma ParseKeyBlob_deserializer_input d b c ctx blob params allow n :
  ParseKeyBlob d b c ctx blob params valid_ptr allow n
  = match deserializer_input blob with
    | None => (returns (KM_ERROR_INVALID_KEY_BLOB, None), n)
    | Some payload =>
        let '(error, deserialized_key) :=
          DeserializeAuthEncryptedBlob c payload in
        ParseKeyBlob_tail d b c ctx error deserialized_key params allow n
    end.
Proof.
  unfold ParseKeyBlob, deserializer_input.
  destruct (has_keystore_prefix blob); [|reflexivity].
  destruct (nth kKeystoreKeyTypeOffset blob x00); reflexivity.
Qed.

(** Walks through the steps of [ParseKeyBlob_tail], one case per exit. *)
Ltac walk_ParseKeyBlob_tail :=
  unfold ParseKeyBlob_tail; cbn [is_ok negb];
  repeat
    (match goal with
     | |- context [DeriveMasterKey ?d ?b ?c] =>
         destruct (DeriveMasterKey d b c) as [? ?]
     | |- context [BuildHiddenAuthorizations ?d ?ctx ?p ?h] =>
         destruct (BuildHiddenAuthorizations d ctx p h) as [? ?]
     | |- context [DecryptKey ?c ?dk ?h ?m] =>
         destruct (DecryptKey c dk h m) as [? ?]
     | |- context [is_ok ?e] => destruct (is_ok e)
     | |- context [GetTagValue ?s ?t] => destruct (GetTagValue s t)
     | |- context [GetKeyFactory ?d ?a] => destruct (GetKeyFactory d a)
     end; cbn [negb]);
  try reflexivity.

(** The outcome of the steps after deserialization does not depend on
    [allow_ocb]; only the counter does. *)
Lemma ParseKeyBlob_tail_allow_ocb d b c ctx error dk params n :
  fst (ParseKeyBlob_tail d b c ctx error dk params false n)
  = fst (ParseKeyBlob_tail d b c ctx error dk params true n).
Proof. walk_ParseKeyBlob_tail. Qed.

Lemma ParseKeyBlob_tail_counter d b c ctx dk params allow n :
  snd (ParseKeyBlob_tail d b c ctx KM_ERROR_OK dk params allow n)
  = if is_AES_OCB (format (encrypted_key dk)) && negb allow
    then (n + 1) mod 2 ^ size_t_bits c else n.
Proof. walk_ParseKeyBlob_tail. Qed.

(** C3.  A blob that deserializes successfully with the legacy AES-OCB
    format is not refused when [allow_ocb] is false: the call gives the
    very outcome it gives when the format is allowed, the only difference
    being the diagnostic counter, which goes up by one; and when master
    key derivation, decryption and the algorithm lookup succeed, the
    outcome is that of the key factory's [LoadKey]. *)
Theorem ParseKeyBlob_accepts_legacy_format :
  forall d b c ctx blob params n payload dk,
    deserializer_input blob = Some payload ->
    DeserializeAuthEncryptedBlob c payload = (KM_ERROR_OK, dk) ->
    format (encrypted_key dk) = AES_OCB ->
    fst (ParseKeyBlob d b c ctx blob params valid_ptr false n)
    = fst (ParseKeyBlob d b c ctx blob params valid_ptr true n) /\
    snd (ParseKeyBlob d b c ctx blob params valid_ptr false n)
    = (n + 1) mod 2 ^ size_t_bits c /\
    snd (ParseKeyBlob d b c ctx blob params valid_ptr true n) = n /\
    (forall master_key hidden key_material algorithm factory,
        DeriveMasterKey d b c = (KM_ERROR_OK, master_key) ->
        BuildHiddenAuthorizations d ctx params empty_set
          = (KM_ERROR_OK, hidden) ->
        DecryptKey c dk hidden master_key = (KM_ERROR_OK, key_material) ->
        GetTagValue (dk_hw_enforced dk) KM_TAG_ALGORITHM = Some algorithm ->
        GetKeyFactory d algorithm = Some factory ->
        fst (ParseKeyBlob d b c ctx blob params valid_ptr false n)
        = returns (LoadKey c factory key_material params
                           (dk_hw_enforced dk) (dk_sw_enforced dk))).
Proof.
  intros d b c ctx blob params n payload dk Hin Hdes Hfmt.
  rewrite !ParseKeyBlob_deserializer_input, Hin, Hdes.
  split; [apply ParseKeyBlob_tail_allow_ocb|].
  rewrite !ParseKeyBlob_tail_counter, Hfmt. simpl.
  split; [reflexivity|]. split; [reflexivity|].
  intros master_key hidden key_material algorithm factory H1 H2 H3 H4 H5.
  unfold ParseKeyBlob_tail. cbn [is_ok negb]. rewrite H1. cbn [is_ok negb].
  rewrite H2. cbn [is_ok negb]. rewrite H3. cbn [is_ok negb].
  rewrite H4, H5. reflexivity.
Qed.

Lemma ParseKeyBlob_accepts_legacy_format_witness :
  fst (ParseKeyBlob android_defs default_build
         (loopback ocb_store no_wrapped_key)
         (booted_context 110000 202101) [x01] empty_set valid_ptr false 41)
  = fst (ParseKeyBlob android_defs default_build
           (loopback ocb_store no_wrapped_key)
           (booted_context 110000 202101) [x01] empty_set valid_ptr true 41)
  /\
  snd (ParseKeyBlob android_defs default_build
         (loopback ocb_store no_wrapped_key)
         (booted_context 110000 202101) [x01] empty_set valid_ptr false 41)
  = 42.
Proof.
  destruct (ParseKeyBlob_accepts_legacy_format android_defs default_build
              (loopback ocb_store no_wrapped_key)
              (booted_context 110000 202101) [x01] empty_set 41 [x01]
              (snd (ocb_store [x01])) eq_refl eq_refl eq_refl)
    as (Hsame & Hcount & _).
  split; [exact Hsame | exact Hcount].
Defined.

(** C5.  For a blob that begins with the seven magic bytes: with type
    byte 0 the eight prefix bytes are dropped and the rest takes the path
    of a blob without prefix (so the call equals the call on the rest
    whenever the rest has no prefix of its own); with type byte 1, and
    with any other type byte, the call returns invalid-key-blob. *)
Theorem ParseKeyBlob_keystore_prefix :
  forall d b c ctx rest params allow n,
    (ParseKeyBlob d b c ctx (kKeystoreKeyBlobMagic ++ x00 :: rest)
                  params valid_ptr allow n
     = let '(error, deserialized_key) :=
         DeserializeAuthEncryptedBlob c rest in
       ParseKeyBlob_tail d b c ctx error deserialized_key params allow n)
    /\
    (has_keystore_prefix rest = false ->
     ParseKeyBlob d b c ctx (kKeystoreKeyBlobMagic ++ x00 :: rest)
                  params valid_ptr allow n
     = ParseKeyBlob d b c ctx rest params valid_ptr allow n)
    /\
    (ParseKeyBlob d b c ctx (kKeystoreKeyBlobMagic ++ x01 :: rest)
                  params valid_ptr allow n
     = (returns (KM_ERROR_INVALID_KEY_BLOB, None), n))
    /\
    (forall t, t <> x00 -> t <> x01 ->
     ParseKeyBlob d b c ctx (kKeystoreKeyBlobMagic ++ t :: rest)
                  params valid_ptr allow n
     = (returns (KM_ERROR_INVALID_KEY_BLOB, None), n)).
Proof.
  intros d b c ctx rest params allow n.
  split; [reflexivity|]. split; [|split].
  - intros Hrest.
    rewrite (ParseKeyBlob_deserializer_input d b c ctx rest).
    unfold deserializer_input. rewrite Hrest. reflexivity.
  - reflexivity.
  - intros t H0 H1. rewrite ParseKeyBlob_deserializer_input.
    unfold deserializer_input. rewrite has_keystore_prefix_magic.
    change (nth kKeystoreKeyTypeOffset (kKeystoreKeyBlobMagic ++ t :: rest)
                x00) with t.
    destruct t; try reflexivity; congruence.
Qed.

Lemma ParseKeyBlob_keystore_prefix_witness :
  ParseKeyBlob android_defs default_build
    (loopback ocb_store no_wrapped_key) (booted_context 110000 202101)
    (kKeystoreKeyBlobMagic ++ x00 :: [x01; x02]) empty_set valid_ptr false 0
  = ParseKeyBlob android_defs default_build
      (loopback ocb_store no_wrapped_key) (booted_context 110000 202101)
      [x01; x02] empty_set valid_ptr false 0
  /\
  ParseKeyBlob android_defs default_build
    (loopback ocb_store no_wrapped_key) (booted_context 110000 202101)
    (kKeystoreKeyBlobMagic ++ x02 :: [x01; x02]) empty_set valid_ptr false 0
  = (returns (KM_ERROR_INVALID_KEY_BLOB, None), 0).
Proof.
  destruct (ParseKeyBlob_keystore_prefix android_defs default_build
              (loopback ocb_store no_wrapped_key)
              (booted_context 110000 202101) [x01; x02] empty_set false 0)
    as (_ & Hstrip & _ & Hother).
  split.
  - apply Hstrip. reflexivity.
  - apply Hother; discriminate.
Defined.

(** ** RNG reseeding *)

Lemma int_wrap_mod_32 x : int_wrap x mod 32 = x mod 32.
Proof.
  unfold int_wrap.
  rewrite (Z.mod_eq (x + 2 ^ 31) (2 ^ 32)) by lia.
  replace (x + 2 ^ 31 - 2 ^ 32 * ((x + 2 ^ 31) / 2 ^ 32) - 2 ^ 31)
    with (x + (- (2 ^ 27 * ((x + 2 ^ 31) / 2 ^ 32))) * 32) by lia.
  apply Z.mod_add. lia.
Qed.

Lemma rem_32_zero y : (Z.rem y 32 =? 0) = (y mod 32 =? 0).
Proof.
  destruct (Z.eqb_spec (Z.rem y 32) 0) as [H|H];
    destruct (Z.eqb_spec (y mod 32) 0) as [H'|H']; try reflexivity.
  - exfalso. apply H'. apply Z.rem_divide in H; [|lia].
    apply Z.mod_divide; [lia|assumption].
  - exfalso. apply H. apply Z.mod_divide in H'; [|lia].
    apply Z.rem_divide; [lia|assumption].
Qed.

Lemma ShouldReseedRng_initialized ctx :
  rng_initialized_ ctx = true ->
  ShouldReseedRng ctx
  = (((calls_since_reseed_ ctx mod 32 + 1) mod 32 =? 0),
     set_calls_since_reseed ctx (int_wrap (calls_since_reseed_ ctx + 1))).
Proof.
  intros H. unfold ShouldReseedRng, kCallsBetweenRngReseeds. rewrite H.
  cbn [negb]. rewrite rem_32_zero, int_wrap_mod_32.
  rewrite <- (Zplus_mod_idemp_l (calls_since_reseed_ ctx) 1 32).
  destruct ((calls_since_reseed_ ctx mod 32 + 1) mod 32 =? 0); reflexivity.
Qed.

Lemma reseed_checks_answers n : forall ctx,
  rng_initialized_ ctx = true ->
  fst (reseed_checks n ctx) = answers n (calls_since_reseed_ ctx mod 32) /\
  rng_initialized_ (snd (reseed_checks n ctx)) = true /\
  calls_since_reseed_ (snd (reseed_checks n ctx)) mod 32
  = (calls_since_reseed_ ctx + Z.of_nat n) mod 32.
Proof.
  induction n as [|n IH]; intros ctx H.
  - simpl. rewrite Z.add_0_r. auto.
  - cbn [reseed_checks answers].
    rewrite (ShouldReseedRng_initialized ctx H).
    set (ctx1 := set_calls_since_reseed ctx
                   (int_wrap (calls_since_reseed_ ctx + 1))).
    assert (H1 : rng_initialized_ ctx1 = true) by exact H.
    assert (Hc : calls_since_reseed_ ctx1 mod 32
                 = (calls_since_reseed_ ctx mod 32 + 1) mod 32).
    { unfold ctx1. cbn [calls_since_reseed_ set_calls_since_reseed].
      rewrite int_wrap_mod_32. symmetry. apply Zplus_mod_idemp_l. }
    destruct (IH ctx1 H1) as (Ha & Hi & Hn).
    destruct (reseed_checks n ctx1) as [rs ctx2]. cbn [fst snd] in *.
    rewrite Ha, Hc. split; [reflexivity|]. split; [assumption|].
    rewrite Hn, Nat2Z.inj_succ.
    rewrite <- (Zplus_mod_idemp_l (calls_since_reseed_ ctx1)), Hc.
    rewrite Zplus_mod_idemp_l, <- Z.add_assoc, Zplus_mod_idemp_l.
    f_equal. lia.
Qed.

Lemma answers_32 r :
  0 <= r < 32 ->
  answers 32 r
  = repeat false (31 - Z.to_nat r) ++ true :: repeat false (Z.to_nat r).
Proof.
  intros H. rewrite <- (Z2Nat.id r) at 1 by lia.
  assert (Hk : (Z.to_nat r < 32)%nat) by lia.
  generalize dependent (Z.to_nat r). clear. intros k Hk.
  do 32 (destruct k as [|k]; [vm_compute; reflexivity|]). lia.
Qed.

(** C8 (as amended).  While the RNG is not initialized every reseed check
    asks for a reseed and leaves the counter alone.  Once it is
    initialized, each check increments the counter and asks for a reseed
    exactly when the incremented counter is a multiple of 32; so of any 32
    consecutive checks exactly one asks for a reseed, namely check number
    32 - (c mod 32) for a counter value c before the first of them.  It is
    the 32nd when c is a multiple of 32, which holds at construction (so
    for the first 32 checks after the first reseed) and again after every
    32 checks. *)
Theorem ShouldReseedRng_every_32nd :
  (forall ctx, rng_initialized_ ctx = false ->
               ShouldReseedRng ctx = (true, ctx)) /\
  (forall ctx, rng_initialized_ ctx = true ->
     ShouldReseedRng ctx
     = ((Z.rem (int_wrap (calls_since_reseed_ ctx + 1)) 32 =? 0),
        set_calls_since_reseed ctx
          (int_wrap (calls_since_reseed_ ctx + 1)))) /\
  (forall ctx, rng_initialized_ ctx = true ->
     let r := Z.to_nat (calls_since_reseed_ ctx mod 32) in
     fst (reseed_checks 32 ctx)
     = repeat false (31 - r) ++ true :: repeat false r) /\
  (forall ctx, rng_initialized_ ctx = true ->
     calls_since_reseed_ ctx mod 32 = 0 ->
     fst (reseed_checks 32 ctx) = repeat false 31 ++ [true] /\
     calls_since_reseed_ (snd (reseed_checks 32 ctx)) mod 32 = 0) /\
  (forall ctx, constructed ctx ->
     fst (reseed_checks 32 (snd (ReseedRng ctx 0)))
     = repeat false 31 ++ [true]).
Proof.
  split; [|split; [|split; [|split]]].
  - intros ctx H. unfold ShouldReseedRng. rewrite H. reflexivity.
  - intros ctx H. unfold ShouldReseedRng, kCallsBetweenRngReseeds.
    rewrite H. cbn [negb].
    destruct (Z.rem (int_wrap (calls_since_reseed_ ctx + 1)) 32 =? 0);
      reflexivity.
  - intros ctx H r.
    destruct (reseed_checks_answers 32 ctx H) as (Ha & _ & _).
    rewrite Ha. apply answers_32. apply Z.mod_pos_bound. lia.
  - intros ctx H H0.
    destruct (reseed_checks_answers 32 ctx H) as (Ha & _ & Hn).
    split.
    + rewrite Ha, H0. vm_compute. reflexivity.
    + rewrite Hn. change (Z.of_nat 32) with (1 * 32).
      rewrite Z.mod_add by lia. assumption.
  - intros ctx (_ & Hzero & _).
    destruct (reseed_checks_answers 32 (snd (ReseedRng ctx 0)) eq_refl)
      as (Ha & _ & _).
    rewrite Ha. cbn [ReseedRng Z.eqb negb snd set_rng_initialized
                     calls_since_reseed_].
    rewrite Hzero. vm_compute. reflexivity.
Qed.

Lemma ShouldReseedRng_every_32nd_witness :
  ShouldReseedRng (booted_context 110000 202101)
    = (true, booted_context 110000 202101) /\
  fst (reseed_checks 32 (seeded_context 0)) = repeat false 31 ++ [true] /\
  fst (reseed_checks 32 (seeded_context 5))
    = repeat false 26 ++ true :: repeat false 5.
Proof.
  destruct ShouldReseedRng_every_32nd as (Hcold & _ & Hany & Haligned & _).
  split; [|split].
  - apply Hcold. reflexivity.
  - apply (Haligned (seeded_context 0)); reflexivity.
  - apply (Hany (seeded_context 5)). reflexivity.
Defined.

(** C8 (as stated) fails: after one check has been answered, the reseed
    request of the next 32 checks comes on the 31st, not on the 32nd. *)
Lemma ShouldReseedRng_every_32nd_counterexample :
  rng_initialized_ (seeded_context 1) = true /\
  nth 30 (fst (reseed_checks 32 (seeded_context 1))) false = true /\
  nth 31 (fst (reseed_checks 32 (seeded_context 1))) true = false.
Proof.
  vm_compute. repeat split.
Qed.

(** ** Attestation *)

Lemma attestation_key_slot_other d algorithm :
  algorithm <> KM_ALGORITHM_RSA d ->
  algorithm <> KM_ALGORITHM_EC d ->
  attestation_key_slot d algorithm = None.
Proof.
  intros Hrsa Hec. unfold attestation_key_slot.
  destruct (Z.eqb_spec algorithm (KM_ALGORITHM_RSA d)); [contradiction|].
  destruct (Z.eqb_spec algorithm (KM_ALGORITHM_EC d)); [contradiction|].
  reflexivity.
Qed.

(** C4 (as amended).  For an algorithm that is neither RSA nor EC,
    [GetAttestationKey] and [GetAttestationChain] fail with
    unsupported-algorithm, while [GenerateAttestation] and
    [GenerateSelfSignedCertificate], on a key whose algorithm tag has that
    value, fail with incompatible-algorithm; each returns an empty key or
    chain. *)
Theorem attestation_needs_rsa_or_ec :
  forall d b c ctx algorithm,
    algorithm <> KM_ALGORITHM_RSA d ->
    algorithm <> KM_ALGORITHM_EC d ->
    GetAttestationKey d b c algorithm
      = (KM_ERROR_UNSUPPORTED_ALGORITHM, []) /\
    GetAttestationChain d b c algorithm
      = (KM_ERROR_UNSUPPORTED_ALGORITHM, []) /\
    (forall key attest_params attest_key issuer_subject,
        AuthProxy_GetTagValue (authorizations key) KM_TAG_ALGORITHM
          = Some algorithm ->
        GenerateAttestation d c ctx key attest_params attest_key
                            issuer_subject
        = (KM_ERROR_INCOMPATIBLE_ALGORITHM, [])) /\
    (forall key cert_params fake_signature,
        AuthProxy_GetTagValue (authorizations key) KM_TAG_ALGORITHM
          = Some algorithm ->
        GenerateSelfSignedCertificate d c key cert_params fake_signature
        = (KM_ERROR_INCOMPATIBLE_ALGORITHM, [])).
Proof.
  intros d b c ctx algorithm Hrsa Hec.
  assert (Hneither :
            negb (algorithm =? KM_ALGORITHM_RSA d)
            && negb (algorithm =? KM_ALGORITHM_EC d) = true).
  { destruct (Z.eqb_spec algorithm (KM_ALGORITHM_RSA d)); [contradiction|].
    destruct (Z.eqb_spec algorithm (KM_ALGORITHM_EC d)); [contradiction|].
    reflexivity. }
  split; [|split; [|split]].
  - unfold GetAttestationKey.
    rewrite attestation_key_slot_other by assumption. reflexivity.
  - unfold GetAttestationChain.
    rewrite attestation_key_slot_other by assumption. reflexivity.
  - intros key attest_params attest_key issuer_subject Halg.
    unfold GenerateAttestation. rewrite Halg, Hneither. reflexivity.
  - intros key cert_params fake_signature Halg.
    unfold GenerateSelfSignedCertificate. rewrite Halg, Hneither.
    reflexivity.
Qed.

Lemma attestation_needs_rsa_or_ec_witness :
  GetAttestationKey android_defs default_build
    (loopback ocb_store no_wrapped_key) 32
  = (KM_ERROR_UNSUPPORTED_ALGORITHM, []) /\
  GenerateSelfSignedCertificate android_defs
    (loopback ocb_store no_wrapped_key) loaded_aes_key empty_set false
  = (KM_ERROR_INCOMPATIBLE_ALGORITHM, []).
Proof.
  destruct (attestation_needs_rsa_or_ec android_defs default_build
              (loopback ocb_store no_wrapped_key)
              (booted_context 110000 202101) 32)
    as (Hkey & _ & _ & Hself).
  - simpl. lia.
  - simpl. lia.
  - split; [exact Hkey|]. apply Hself. reflexivity.
Defined.

(** C4 (as stated) fails: for an AES key, [GenerateAttestation] and
    [GenerateSelfSignedCertificate] do not return
    unsupported-algorithm. *)
Lemma attestation_needs_rsa_or_ec_counterexample :
  AuthProxy_GetTagValue (authorizations loaded_aes_key) KM_TAG_ALGORITHM
    = Some (KM_ALGORITHM_AES android_defs) /\
  fst (GenerateAttestation android_defs (loopback ocb_store no_wrapped_key)
         (booted_context 110000 202101) loaded_aes_key empty_set None [])
    <> KM_ERROR_UNSUPPORTED_ALGORITHM /\
  fst (GenerateSelfSignedCertificate android_defs
         (loopback ocb_store no_wrapped_key) loaded_aes_key empty_set false)
    <> KM_ERROR_UNSUPPORTED_ALGORITHM.
Proof.
  vm_compute. repeat split; discriminate.
Qed.

(** ** Boot parameters *)

(** C10.  The first call to [SetBootParams] is accepted and stores a
    sanitized root of trust: a verified or self-signed state that comes
    with an empty boot key is stored as unverified with the device
    unlocked, and any other state is stored with the device unlocked
    whatever flag was passed. *)
Theorem SetBootParams_sanitizes :
  forall ctx os_version os_patchlevel verified_boot_key verified_boot_state
         device_locked verified_boot_hash,
    root_of_trust_set_ ctx = false ->
    let result :=
      SetBootParams ctx os_version os_patchlevel verified_boot_key
                    verified_boot_state device_locked verified_boot_hash in
    fst result = KM_ERROR_OK /\
    root_of_trust_set_ (snd result) = true /\
    ((verified_boot_state = KM_VERIFIED_BOOT_VERIFIED \/
      verified_boot_state = KM_VERIFIED_BOOT_SELF_SIGNED) ->
     buffer_size verified_boot_key = 0 ->
     verified_boot_state_ (snd result) = KM_VERIFIED_BOOT_UNVERIFIED /\
     device_locked_ (snd result) = false /\
     verified_boot_key_ (snd result) = []) /\
    (verified_boot_state <> KM_VERIFIED_BOOT_VERIFIED ->
     verified_boot_state <> KM_VERIFIED_BOOT_SELF_SIGNED ->
     verified_boot_state_ (snd result) = verified_boot_state /\
     device_locked_ (snd result) = false /\
     verified_boot_key_ (snd result) = []).
Proof.
  intros ctx os_version os_patchlevel verified_boot_key verified_boot_state
         device_locked verified_boot_hash Hfirst result.
  subst result. unfold SetBootParams. rewrite Hfirst.
  split; [|split; [|split]].
  - destruct (is_verified_or_self_signed verified_boot_state);
      [destruct (negb (buffer_size verified_boot_key =? 0))|]; reflexivity.
  - destruct (is_verified_or_self_signed verified_boot_state);
      [destruct (negb (buffer_size verified_boot_key =? 0))|]; reflexivity.
  - intros Hstate Hempty. rewrite Hempty.
    destruct Hstate as [-> | ->]; simpl; auto.
  - intros Hv Hs.
    destruct verified_boot_state; try contradiction; simpl; auto.
Qed.

Lemma SetBootParams_sanitizes_witness :
  verified_boot_state_
    (snd (SetBootParams (booted_context 110000 202101) 0 0 []
                        KM_VERIFIED_BOOT_VERIFIED true [x99]))
  = KM_VERIFIED_BOOT_UNVERIFIED /\
  device_locked_
    (snd (SetBootParams (booted_context 110000 202101) 0 0 [x42]
                        KM_VERIFIED_BOOT_FAILED true [x99]))
  = false.
Proof.
  split.
  - destruct (SetBootParams_sanitizes (booted_context 110000 202101) 0 0 []
                KM_VERIFIED_BOOT_VERIFIED true [x99] eq_refl)
      as (_ & _ & Hempty & _).
    apply Hempty; [left; reflexivity | reflexivity].
  - destruct (SetBootParams_sanitizes (booted_context 110000 202101) 0 0
                [x42] KM_VERIFIED_BOOT_FAILED true [x99] eq_refl)
      as (_ & _ & _ & Hother).
    apply Hother; discriminate.
Defined.

(** ** [UnwrapKey] *)




(* ================================================================== *)
(** * Further properties of the source *)

(** ** [SetAuthorizations]: what a call leaves in the two sets *)

Lemma SetAuthorizations_entry_inr d b entry hw sw hw' sw' :
  SetAuthorizations_entry d b entry hw sw = inr (hw', sw') ->
  passes b entry = true /\
  params hw' = params hw ++ fst (entry_adds d b entry) /\
  params sw' = params sw ++ snd (entry_adds d b entry) /\
  error_ hw' = error_ hw /\ error_ sw' = error_ sw.
Proof.
  unfold passes, entry_adds, SetAuthorizations_entry.
  destruct (tag entry); simpl;
    try (destruct (WITH_HWWSK_SUPPORT b); simpl);
    intros H; try discriminate H; injection H as <- <-;
    simpl; rewrite ?app_nil_r; repeat split; reflexivity.
Qed.

Lemma SetAuthorizations_entry_inl d b entry hw sw e :
  SetAuthorizations_entry d b entry hw sw = inl e ->
  passes b entry = false.
Proof.
  unfold passes, SetAuthorizations_entry.
  destruct (tag entry); simpl;
    try (destruct (WITH_HWWSK_SUPPORT b); simpl);
    intros H; try discriminate H; reflexivity.
Qed.

(** Whatever the loop returns, the two sets hold what a prefix of the
    description added, in order. *)
Lemma SetAuthorizations_loop_prefix d b entries :
  forall hw sw r hw' sw',
    SetAuthorizations_loop d b entries hw sw = (r, hw', sw') ->
    exists pre post,
      entries = pre ++ post /\
      forallb (passes b) pre = true /\
      params hw' = params hw ++ hw_added d b pre /\
      params sw' = params sw ++ sw_added d b pre /\
      error_ hw' = error_ hw /\ error_ sw' = error_ sw /\
      (r = None -> post = []) /\
      (r <> None -> exists f rest, post = f :: rest /\
                                   passes b f = false).
Proof.
  induction entries as [|e entries IH]; intros hw sw r hw' sw'; simpl.
  - intros [= <- <- <-]. exists [], []. rewrite !app_nil_r.
    repeat split; auto. intros H; contradiction.
  - destruct (SetAuthorizations_entry d b e hw sw) as [err|[hw1 sw1]] eqn:E.
    + intros [= <- <- <-]. exists [], (e :: entries).
      rewrite !app_nil_r. repeat split; auto; [discriminate|].
      intros _. exists e, entries. split; [reflexivity|].
      exact (SetAuthorizations_entry_inl _ _ _ _ _ _ E).
    + intros Hloop.
      destruct (SetAuthorizations_entry_inr _ _ _ _ _ _ _ E)
        as (He & Hhw1 & Hsw1 & Ehw1 & Esw1).
      destruct (IH _ _ _ _ _ Hloop)
        as (pre & post & -> & Hpre & Hhw & Hsw & Ehw & Esw & Hnone & Hsome).
      exists (e :: pre), post. unfold hw_added, sw_added in *. simpl.
      rewrite He, Hpre, Hhw, Hsw, Hhw1, Hsw1, Ehw, Esw, Ehw1, Esw1,
              <- !app_assoc.
      repeat split; auto.
Qed.

Lemma SetAuthorizations_all_pass d b ctx key_description origin hw0 sw0 :
  (forallb (passes b) (params key_description) = true ->
   SetAuthorizations d b ctx key_description origin hw0 sw0
   = (KM_ERROR_OK,
      mk_set (hw_added d b (params key_description) ++ stamped ctx origin)
             OK,
      mk_set (sw_added d b (params key_description)) OK)) /\
  (fst (fst (SetAuthorizations d b ctx key_description origin hw0 sw0))
   = KM_ERROR_OK ->
   forallb (passes b) (params key_description) = true).
Proof.
  unfold SetAuthorizations.
  destruct (SetAuthorizations_loop d b (params key_description)
              (Clear hw0) (Clear sw0)) as [[r hw] sw] eqn:E.
  destruct (SetAuthorizations_loop_prefix _ _ _ _ _ _ _ _ E)
    as (pre & post & Hl & Hpre & Hhw & Hsw & Ehw & Esw & Hnone & Hsome).
  simpl in Hhw, Hsw, Ehw, Esw. split.
  - intros Hall. destruct r as [e|].
    + exfalso. destruct Hsome as (f & rest & -> & Hf); [discriminate|].
      rewrite Hl, forallb_app in Hall. apply andb_true_iff in Hall as [_ Hall].
      simpl in Hall. rewrite Hf in Hall. discriminate.
    + rewrite (Hnone eq_refl), app_nil_r in Hl. subst pre.
      destruct sw as [psw esw], hw as [phw ehw]. simpl in *. subst.
      unfold is_valid, push_back, stamped. simpl.
      rewrite <- !app_assoc. reflexivity.
  - destruct r as [e|].
    + simpl. intros ->. exfalso.
      destruct Hsome as (f & rest & -> & Hf); [discriminate|].
      revert E. rewrite Hl. clear - Hf Hpre.
      generalize (Clear hw0), (Clear sw0).
      induction pre as [|p pre IH]; intros h s; simpl.
      * destruct (SetAuthorizations_entry d b f h s) as [err|[h1 s1]] eqn:Ef.
        -- intros [= -> _ _]. revert Ef. unfold SetAuthorizations_entry.
           destruct (tag f); try (destruct (WITH_HWWSK_SUPPORT b));
             discriminate.
        -- apply SetAuthorizations_entry_inr in Ef. destruct Ef as [Ef _].
           congruence.
      * simpl in Hpre. apply andb_true_iff in Hpre as [Hp Hpre].
        destruct (SetAuthorizations_entry d b p h s) as [err|[h1 s1]] eqn:Ep.
        -- apply SetAuthorizations_entry_inl in Ep. congruence.
        -- apply IH. assumption.
    + intros _. rewrite (Hnone eq_refl), app_nil_r in Hl. subst pre.
      assumption.
Qed.

Lemma entry_adds_classes d b entry :
  entry_adds d b entry
  = (if hardware_enforced b (tag entry) then [masked d b entry] else [],
     if keystore_enforced (tag entry) then [entry] else []).
Proof.
  unfold entry_adds, SetAuthorizations_entry, masked, allowed_auth_types.
  destruct entry as [t v]. simpl.
  destruct t; simpl; try reflexivity;
    try (destruct (WITH_HWWSK_SUPPORT b); reflexivity).
  destruct (TEE_FINGERPRINT_AUTH_SUPPORTED b);
    [rewrite Z.land_lor_distr_r|]; reflexivity.
Qed.

Lemma hw_added_classes d b entries :
  hw_added d b entries
  = map (masked d b)
        (filter (fun entry => hardware_enforced b (tag entry)) entries).
Proof.
  unfold hw_added. induction entries as [|e l IH]; simpl; [reflexivity|].
  rewrite entry_adds_classes, IH. simpl.
  destruct (hardware_enforced b (tag e)); reflexivity.
Qed.

Lemma sw_added_classes d b entries :
  sw_added d b entries
  = filter (fun entry => keystore_enforced (tag entry)) entries.
Proof.
  unfold sw_added. induction entries as [|e l IH]; simpl; [reflexivity|].
  rewrite entry_adds_classes, IH. simpl.
  destruct (keystore_enforced (tag e)); reflexivity.
Qed.

(** X1.  Whenever [SetAuthorizations] returns success, no entry of the
    description carries a forbidden or rejected tag, [sw_enforced] holds
    the keystore-enforced entries of the description in their order, and
    [hw_enforced] holds its hardware-enforced entries in their order,
    user-auth-type values masked, followed by origin, boot OS version and
    boot patch level, whatever the two sets held before. *)
Theorem SetAuthorizations_accepts :
  forall d b ctx key_description origin hw0 sw0 hw sw,
    SetAuthorizations d b ctx key_description origin hw0 sw0
      = (KM_ERROR_OK, hw, sw) ->
    (forall entry,
        In entry (params key_description) ->
        forbidden_in_description (tag entry) = false /\
        rejected_tag b (tag entry) = false) /\
    params sw
      = filter (fun entry => keystore_enforced (tag entry))
               (params key_description) /\
    params hw
      = map (masked d b)
            (filter (fun entry => hardware_enforced b (tag entry))
                    (params key_description))
        ++ stamped ctx origin.
Proof.
  intros d b ctx key_description origin hw0 sw0 hw sw H.
  destruct (SetAuthorizations_all_pass d b ctx key_description origin
              hw0 sw0) as [Hok Hall].
  rewrite H in Hall. specialize (Hall eq_refl).
  rewrite (Hok Hall) in H. injection H as <- <-. simpl.
  rewrite hw_added_classes, sw_added_classes.
  split; [|split; reflexivity].
  intros entry Hin. rewrite forallb_forall in Hall.
  specialize (Hall _ Hin). unfold passes in Hall.
  apply andb_true_iff in Hall as [H1 H2].
  apply negb_true_iff in H1, H2. auto.
Qed.

Lemma SetAuthorizations_accepts_witness :
  params (mk_set [mk_param KM_TAG_USER_ID (integer 7)] OK)
  = filter (fun entry => keystore_enforced (tag entry))
           (params spoofing_description) /\
  params (mk_set [mk_param KM_TAG_ALGORITHM (enumerated 32);
                  mk_param KM_TAG_USER_AUTH_TYPE (enumerated 1);
                  mk_param KM_TAG_ORIGIN (enumerated 2);
                  mk_param KM_TAG_OS_VERSION (integer 110000);
                  mk_param KM_TAG_OS_PATCHLEVEL (integer 202101)] OK)
  = map (masked android_defs default_build)
        (filter (fun entry => hardware_enforced default_build (tag entry))
                (params spoofing_description))
    ++ stamped (booted_context 110000 202101) 2.
Proof.
  apply (SetAuthorizations_accepts android_defs default_build
           (booted_context 110000 202101) spoofing_description 2
           wrapping_hw oaep_sha256_params
           (mk_set [mk_param KM_TAG_ALGORITHM (enumerated 32);
                    mk_param KM_TAG_USER_AUTH_TYPE (enumerated 1);
                    mk_param KM_TAG_ORIGIN (enumerated 2);
                    mk_param KM_TAG_OS_VERSION (integer 110000);
                    mk_param KM_TAG_OS_PATCHLEVEL (integer 202101)] OK)
           (mk_set [mk_param KM_TAG_USER_ID (integer 7)] OK)
           eq_refl).
Defined.

Lemma entry_adds_hw d b entry p :
  In p (fst (entry_adds d b entry)) ->
  tag p = tag entry /\
  keystore_enforced (tag entry) = false /\
  tag entry <> KM_TAG_ORIGIN /\
  tag entry <> KM_TAG_OS_VERSION /\
  tag entry <> KM_TAG_OS_PATCHLEVEL /\
  (tag entry = KM_TAG_USER_AUTH_TYPE ->
   value p = enumerated (Z.land (u32_member entry)
                                (allowed_auth_types d b))) /\
  (tag entry <> KM_TAG_USER_AUTH_TYPE -> p = entry).
Proof.
  unfold entry_adds, SetAuthorizations_entry, allowed_auth_types.
  destruct (tag entry) eqn:E; simpl;
    try (destruct (WITH_HWWSK_SUPPORT b); simpl);
    try (intros []; fail);
    intros [<- | []]; simpl; rewrite ?E;
    repeat split; try discriminate; try congruence.
  all: intros _; destruct (TEE_FINGERPRINT_AUTH_SUPPORTED b);
    [rewrite Z.land_lor_distr_r|]; reflexivity.
Qed.

Lemma entry_adds_sw d b entry p :
  In p (snd (entry_adds d b entry)) ->
  p = entry /\ keystore_enforced (tag entry) = true.
Proof.
  unfold entry_adds, SetAuthorizations_entry.
  destruct (tag entry) eqn:E; simpl;
    try (destruct (WITH_HWWSK_SUPPORT b); simpl);
    try (intros []; fail);
    intros [<- | []]; simpl; rewrite ?E; split; reflexivity.
Qed.

Lemma In_hw_added d b entries p :
  In p (hw_added d b entries) ->
  exists entry, In entry entries /\ In p (fst (entry_adds d b entry)).
Proof. unfold hw_added. rewrite in_flat_map. auto. Qed.

Lemma In_sw_added d b entries p :
  In p (sw_added d b entries) ->
  exists entry, In entry entries /\ In p (snd (entry_adds d b entry)).
Proof. unfold sw_added. rewrite in_flat_map. auto. Qed.

(** Whatever [SetAuthorizations] returns, the sets hold what a prefix of
    the description added, plus the three stamps on success. *)
Lemma SetAuthorizations_shape d b ctx key_description origin hw0 sw0 :
  exists pre post,
    params key_description = pre ++ post /\
    params (snd (SetAuthorizations d b ctx key_description origin hw0 sw0))
    = sw_added d b pre /\
    (params (snd (fst (SetAuthorizations d b ctx key_description origin
                                         hw0 sw0)))
     = hw_added d b pre \/
     params (snd (fst (SetAuthorizations d b ctx key_description origin
                                         hw0 sw0)))
     = hw_added d b pre ++ stamped ctx origin).
Proof.
  unfold SetAuthorizations.
  destruct (SetAuthorizations_loop d b (params key_description)
              (Clear hw0) (Clear sw0)) as [[r hw] sw] eqn:E.
  destruct (SetAuthorizations_loop_prefix _ _ _ _ _ _ _ _ E)
    as (pre & post & Hl & _ & Hhw & Hsw & _).
  simpl in Hhw, Hsw. exists pre, post. split; [assumption|].
  destruct r as [e|]; simpl; [auto|].
  unfold is_valid. simpl.
  destruct (error_ sw); destruct (error_ hw); simpl;
    (split; [assumption|]); right;
    rewrite Hhw; unfold stamped; rewrite <- !app_assoc; reflexivity.
Qed.

(** X2.  After any call of [SetAuthorizations], successful or not, no tag
    occurs both in [hw_enforced] and in [sw_enforced]. *)
Theorem SetAuthorizations_sets_disjoint :
  forall d b ctx key_description origin hw0 sw0 p q,
    let result :=
      SetAuthorizations d b ctx key_description origin hw0 sw0 in
    In p (params (snd (fst result))) ->
    In q (params (snd result)) ->
    tag p <> tag q.
Proof.
  intros d b ctx key_description origin hw0 sw0 p q result Hp Hq.
  subst result.
  destruct (SetAuthorizations_shape d b ctx key_description origin hw0 sw0)
    as (pre & post & _ & Hsw & Hhw).
  rewrite Hsw in Hq. apply In_sw_added in Hq as (eq & _ & Hq).
  apply entry_adds_sw in Hq as [-> Hq].
  assert (Hfalse : keystore_enforced (tag p) = false).
  { destruct Hhw as [Hhw|Hhw]; rewrite Hhw in Hp.
    - apply In_hw_added in Hp as (ep & _ & Hp).
      apply entry_adds_hw in Hp as (-> & Hp & _). assumption.
    - apply in_app_or in Hp as [Hp|Hp].
      + apply In_hw_added in Hp as (ep & _ & Hp).
        apply entry_adds_hw in Hp as (-> & Hp & _). assumption.
      + simpl in Hp. destruct Hp as [<-|[<-|[<-|[]]]]; reflexivity. }
  congruence.
Qed.

Lemma SetAuthorizations_sets_disjoint_witness :
  tag (mk_param KM_TAG_USER_AUTH_TYPE (enumerated 1))
  <> tag (mk_param KM_TAG_USER_ID (integer 7)).
Proof.
  apply (SetAuthorizations_sets_disjoint android_defs default_build
           (booted_context 110000 202101) spoofing_description 2
           empty_set empty_set).
  - simpl. right. left. reflexivity.
  - simpl. left. reflexivity.
Defined.

Lemma index_of_None t l :
  (forall p, In p l -> tag p <> t) -> index_of t l = None.
Proof.
  induction l as [|q l IH]; intros H; simpl; [reflexivity|].
  rewrite tag_eqb_neq by (apply H; left; reflexivity).
  rewrite IH; [reflexivity|]. intros p Hp. apply H. right. assumption.
Qed.

Lemma stored_after t l l' :
  index_of t l = None ->
  stored (mk_set (l ++ l') OK) t = stored (mk_set l' OK) t.
Proof.
  intros Hnone. rewrite !stored_index_of. simpl.
  induction l as [|q l IH]; simpl in *; [reflexivity|].
  destruct (tag_eqb (tag q) t); [discriminate|].
  destruct (index_of t l) as [n|] eqn:En; [discriminate|].
  specialize (IH eq_refl).
  destruct (index_of t (l ++ l')) as [n|], (index_of t l') as [m|];
    simpl in *; congruence.
Qed.

(** X3.  A successful [SetAuthorizations] stamps the key with the origin
    it was given and with the device's boot OS version and patch level:
    these are the values [hw_enforced] stores, also when the description
    carries entries under those tags. *)
Theorem SetAuthorizations_stamps_versions :
  forall d b ctx key_description origin hw0 sw0 hw sw,
    SetAuthorizations d b ctx key_description origin hw0 sw0
      = (KM_ERROR_OK, hw, sw) ->
    stored hw KM_TAG_ORIGIN = Some origin /\
    stored hw KM_TAG_OS_VERSION = Some (boot_os_version_ ctx) /\
    stored hw KM_TAG_OS_PATCHLEVEL = Some (boot_os_patchlevel_ ctx).
Proof.
  intros d b ctx key_description origin hw0 sw0 hw sw H.
  destruct (SetAuthorizations_all_pass d b ctx key_description origin
              hw0 sw0) as [Hok Hall].
  rewrite H in Hall. specialize (Hok (Hall eq_refl)).
  rewrite H in Hok. injection Hok as -> _.
  assert (Hclean : forall t,
            t = KM_TAG_ORIGIN \/ t = KM_TAG_OS_VERSION \/
            t = KM_TAG_OS_PATCHLEVEL ->
            index_of t (hw_added d b (params key_description)) = None).
  { intros t Ht. apply index_of_None. intros p Hp.
    apply In_hw_added in Hp as (e & _ & Hp).
    apply entry_adds_hw in Hp as (-> & _ & H1 & H2 & H3 & _).
    destruct Ht as [-> | [-> | ->]]; assumption. }
  rewrite !stored_after by (apply Hclean; auto).
  repeat split; reflexivity.
Qed.

Lemma SetAuthorizations_stamps_versions_witness :
  exists hw,
    stored hw KM_TAG_ORIGIN = Some 2 /\
    stored hw KM_TAG_OS_VERSION = Some 110000 /\
    stored hw KM_TAG_OS_PATCHLEVEL = Some 202101.
Proof.
  eexists.
  apply (SetAuthorizations_stamps_versions android_defs default_build
           (booted_context 110000 202101) spoofing_description 2
           empty_set empty_set _ _ eq_refl).
Defined.

(** X4.  Every user-auth-type entry that [SetAuthorizations] leaves in
    [hw_enforced] comes from an entry of the description and keeps of its
    value only the authenticator bits of this build: password, and
    fingerprint where that is supported. *)
Theorem SetAuthorizations_masks_auth_type :
  forall d b ctx key_description origin hw0 sw0 p,
    In p (params (snd (fst (SetAuthorizations d b ctx key_description
                                              origin hw0 sw0)))) ->
    tag p = KM_TAG_USER_AUTH_TYPE ->
    exists entry,
      In entry (params key_description) /\
      tag entry = KM_TAG_USER_AUTH_TYPE /\
      value p = enumerated (Z.land (u32_member entry)
                                   (allowed_auth_types d b)).
Proof.
  intros d b ctx key_description origin hw0 sw0 p Hp Htag.
  destruct (SetAuthorizations_shape d b ctx key_description origin hw0 sw0)
    as (pre & post & Hl & _ & Hhw).
  assert (Hin : In p (hw_added d b pre)).
  { destruct Hhw as [Hhw|Hhw]; rewrite Hhw in Hp; [assumption|].
    apply in_app_or in Hp as [Hp|Hp]; [assumption|].
    simpl in Hp. destruct Hp as [<-|[<-|[<-|[]]]]; discriminate. }
  apply In_hw_added in Hin as (entry & Hentry & Hin).
  apply entry_adds_hw in Hin as (Hsame & _ & _ & _ & _ & Hmask & _).
  exists entry. rewrite Hl. split; [apply in_or_app; auto|].
  split; [congruence|]. apply Hmask. congruence.
Qed.

Lemma SetAuthorizations_masks_auth_type_witness :
  exists entry,
    In entry (params spoofing_description) /\
    tag entry = KM_TAG_USER_AUTH_TYPE /\
    enumerated 1
    = enumerated (Z.land (u32_member entry)
                         (allowed_auth_types android_defs default_build)).
Proof.
  apply (SetAuthorizations_masks_auth_type android_defs default_build
           (booted_context 110000 202101) spoofing_description 2
           empty_set empty_set
           (mk_param KM_TAG_USER_AUTH_TYPE (enumerated 1))).
  - simpl. right. left. reflexivity.
  - reflexivity.
Defined.

Lemma SetAuthorizations_first_terminal
      d b ctx pre e post err origin hw0 sw0 code :
  forallb (passes b) pre = true ->
  (forall hw sw, SetAuthorizations_entry d b e hw sw = inl code) ->
  SetAuthorizations d b ctx (mk_set (pre ++ e :: post) err) origin hw0 sw0
  = (code, mk_set (hw_added d b pre) OK, mk_set (sw_added d b pre) OK).
Proof.
  intros Hpre He. unfold SetAuthorizations. simpl params.
  assert (Hloop : forall hw sw,
            SetAuthorizations_loop d b (pre ++ e :: post) hw sw
            = (Some code,
               mk_set (params hw ++ hw_added d b pre) (error_ hw),
               mk_set (params sw ++ sw_added d b pre) (error_ sw))).
  { clear hw0 sw0. induction pre as [|p pre IH]; intros hw sw; simpl.
    - rewrite He. unfold hw_added, sw_added. simpl. rewrite !app_nil_r.
      destruct hw, sw. reflexivity.
    - simpl in Hpre. apply andb_true_iff in Hpre as [Hp Hpre].
      destruct (SetAuthorizations_entry_passes d b p hw sw Hp)
        as (hw1 & sw1 & Hstep & Hhw1 & Hsw1).
      rewrite Hstep, (IH Hpre).
      pose proof (SetAuthorizations_entry_inr _ _ _ _ _ _ _ Hstep)
        as (_ & _ & _ & Ehw & Esw).
      unfold hw_added, sw_added. simpl.
      rewrite Hhw1, Hsw1, Ehw, Esw, <- !app_assoc. reflexivity. }
  rewrite Hloop. reflexivity.
Qed.

(** X5.  The first entry of a description that does not pass decides the
    code: rollback resistance gives rollback-resistance-unavailable,
    device-unique attestation gives invalid-argument, and the storage-key
    tag gives unimplemented in a build without that feature.  The two
    sets are left with what the entries before it added, without origin
    and versions. *)
Theorem SetAuthorizations_rejected_tags :
  forall d b ctx pre e post err origin hw0 sw0,
    forallb (passes b) pre = true ->
    let result :=
      SetAuthorizations d b ctx (mk_set (pre ++ e :: post) err) origin
                        hw0 sw0 in
    let sets := (mk_set (hw_added d b pre) OK,
                 mk_set (sw_added d b pre) OK) in
    (tag e = KM_TAG_ROLLBACK_RESISTANCE ->
     result = (KM_ERROR_ROLLBACK_RESISTANCE_UNAVAILABLE, fst sets, snd sets))
    /\
    (tag e = KM_TAG_DEVICE_UNIQUE_ATTESTATION ->
     result = (KM_ERROR_INVALID_ARGUMENT, fst sets, snd sets))
    /\
    (tag e = KM_TAG_STORAGE_KEY -> WITH_HWWSK_SUPPORT b = false ->
     result = (KM_ERROR_UNIMPLEMENTED, fst sets, snd sets)).
Proof.
  intros d b ctx pre e post err origin hw0 sw0 Hpre result sets.
  subst result sets. cbn [fst snd].
  split; [|split]; intros; apply SetAuthorizations_first_terminal;
    try assumption; intros hw sw; unfold SetAuthorizations_entry;
    match goal with H : tag e = _ |- _ => rewrite H end;
    try match goal with H : WITH_HWWSK_SUPPORT b = _ |- _ => rewrite H end;
    reflexivity.
Qed.

Lemma SetAuthorizations_rejected_tags_witness :
  SetAuthorizations android_defs default_build (booted_context 110000 202101)
    (mk_set ([mk_param KM_TAG_ALGORITHM (enumerated 32)]
             ++ mk_param KM_TAG_STORAGE_KEY (boolean true)
             :: [mk_param KM_TAG_NONCE (blob [x01])]) OK)
    0 empty_set empty_set
  = (KM_ERROR_UNIMPLEMENTED,
     mk_set [mk_param KM_TAG_ALGORITHM (enumerated 32)] OK,
     mk_set [] OK).
Proof.
  destruct (SetAuthorizations_rejected_tags android_defs default_build
              (booted_context 110000 202101)
              [mk_param KM_TAG_ALGORITHM (enumerated 32)]
              (mk_param KM_TAG_STORAGE_KEY (boolean true))
              [mk_param KM_TAG_NONCE (blob [x01])] OK 0 empty_set empty_set
              eq_refl) as (_ & _ & H).
  exact (H eq_refl eq_refl).
Defined.

(** ** [BuildHiddenAuthorizations]: what a key is bound to *)

(** X6.  When two calls of [BuildHiddenAuthorizations] into an empty set
    return success, the hidden sets they built are equal exactly when
    the application id, the application data, the verified boot key, the
    boot state image and the device-locked flag they were built from are
    equal: nothing else of the input set or of the context enters the
    binding. *)
Theorem BuildHiddenAuthorizations_binding :
  forall d ctx1 ctx2 set1 set2 hidden1 hidden2,
    BuildHiddenAuthorizations d ctx1 set1 empty_set
      = (KM_ERROR_OK, hidden1) ->
    BuildHiddenAuthorizations d ctx2 set2 empty_set
      = (KM_ERROR_OK, hidden2) ->
    (hidden1 = hidden2
     <->
     GetTagValue_blob set1 KM_TAG_APPLICATION_ID
       = GetTagValue_blob set2 KM_TAG_APPLICATION_ID /\
     GetTagValue_blob set1 KM_TAG_APPLICATION_DATA
       = GetTagValue_blob set2 KM_TAG_APPLICATION_DATA /\
     verified_boot_key_ ctx1 = verified_boot_key_ ctx2 /\
     verified_boot_state_image d (verified_boot_state_ ctx1)
       = verified_boot_state_image d (verified_boot_state_ ctx2) /\
     device_locked_ ctx1 = device_locked_ ctx2).
Proof.
  intros d ctx1 ctx2 set1 set2 hidden1 hidden2 H1 H2.
  unfold BuildHiddenAuthorizations in H1, H2.
  injection H1 as _ <-. injection H2 as _ <-. split.
  - destruct (GetTagValue_blob set1 KM_TAG_APPLICATION_ID);
      destruct (GetTagValue_blob set2 KM_TAG_APPLICATION_ID);
      destruct (GetTagValue_blob set1 KM_TAG_APPLICATION_DATA);
      destruct (GetTagValue_blob set2 KM_TAG_APPLICATION_DATA);
      unfold push_back, empty_set; simpl; intros H;
      try discriminate H; injection H as H;
      repeat match goal with
             | H : _ :: _ = _ :: _ |- _ => injection H as ? H
             | H : mk_param _ _ = mk_param _ _ |- _ =>
                 injection H as H; try discriminate H
             | H : blob _ = blob _ |- _ => injection H as H
             end;
      subst;
      (repeat split; try reflexivity; try congruence);
      destruct (device_locked_ ctx1), (device_locked_ ctx2);
      congruence.
  - intros (-> & -> & -> & -> & ->). reflexivity.
Qed.

Lemma BuildHiddenAuthorizations_binding_witness :
  snd (BuildHiddenAuthorizations android_defs (seeded_context 0)
                                 aes_description empty_set)
  = snd (BuildHiddenAuthorizations android_defs (seeded_context 7)
                                   oaep_sha256_params empty_set).
Proof.
  apply (proj2 (BuildHiddenAuthorizations_binding android_defs
                  (seeded_context 0) (seeded_context 7)
                  aes_description oaep_sha256_params _ _
                  eq_refl eq_refl)).
  repeat split; reflexivity.
Defined.

(** ** [DeriveMasterKey] *)

(** X7.  [DeriveMasterKey] returns success, unknown-error or
    memory-allocation-failed and nothing else.  The only session it
    closes is the one it opened, converted to [hwkey_session_t], and it
    closes it exactly when it returns success: when the buffer cannot be
    allocated or the derivation fails, the session stays open. *)
Theorem DeriveMasterKey_session :
  forall d b c,
    (fst (DeriveMasterKey d b c) = KM_ERROR_OK \/
     fst (DeriveMasterKey d b c) = KM_ERROR_UNKNOWN_ERROR \/
     fst (DeriveMasterKey d b c) = KM_ERROR_MEMORY_ALLOCATION_FAILED) /\
    (fst (DeriveMasterKey d b c) = KM_ERROR_OK <->
     In (call_hwkey_close (to_hwkey_session_t c (hwkey_open c)))
        (DeriveMasterKey_calls d b c)) /\
    (forall session,
        In (call_hwkey_close session) (DeriveMasterKey_calls d b c) ->
        session = to_hwkey_session_t c (hwkey_open c)).
Proof.
  intros d b c.
  unfold DeriveMasterKey, DeriveMasterKey_calls, DeriveMasterKey_run.
  destruct (Z.ltb_spec (hwkey_open c) 0) as [Hneg|Hpos].
  - simpl. split; [auto|]. split.
    + split; [discriminate|]. intros [H|[]]. discriminate H.
    + intros s [H|[]]. discriminate H.
  - destruct (master_key_Reset c (kAesKeySize b)); simpl.
    + destruct (hwkey_derive c (to_hwkey_session_t c (hwkey_open c))
                  (HWKEY_KDF_VERSION_1 d)
                  (kMasterKeyDerivationData b) (kAesKeySize b))
        as [rc master_key].
      destruct (rc <? 0); simpl.
      * split; [auto|]. split.
        -- split; [discriminate|]. intros [H|[H|[]]]; discriminate H.
        -- intros s [H|[H|[]]]; discriminate H.
      * split; [auto|]. split.
        -- split; [auto|reflexivity].
        -- intros s [H|[H|[H|[]]]]; try discriminate H.
           injection H as <-. reflexivity.
    + split; [auto|]. split.
      * split; [discriminate|]. intros [H|[]]. discriminate H.
      * intros s [H|[]]. discriminate H.
Qed.

Lemma DeriveMasterKey_session_witness :
  In (call_hwkey_close 1)
     (DeriveMasterKey_calls android_defs default_build
                            (loopback ocb_store no_wrapped_key)).
Proof.
  apply (proj1 (proj1 (proj2 (DeriveMasterKey_session android_defs
                                default_build
                                (loopback ocb_store no_wrapped_key))))).
  reflexivity.
Defined.

(** ** [ParseKeyBlob] and [CreateAuthEncryptedKeyBlob] *)

Lemma is_ok_true e : is_ok e = true -> e = KM_ERROR_OK.
Proof. destruct e; simpl; intros H; try discriminate H; reflexivity. Qed.

Lemma std_equal_firstn range1 range2 :
  std_equal range1 range2 = true <->
  firstn (length range1) range2 = range1.
Proof.
  revert range2. induction range1 as [|a r1 IH]; intros range2; simpl.
  - split; reflexivity.
  - destruct range2 as [|x r2]; [split; discriminate|].
    split.
    + intros H. apply andb_true_iff in H as [Hab Hr].
      apply byte_dec_bl in Hab. apply IH in Hr. congruence.
    + intros [= -> Hr]. apply andb_true_iff. split.
      * apply byte_dec_lb. reflexivity.
      * apply IH. assumption.
Qed.

(** X8.  The km_compat branch is taken only by blobs of at least eight
    bytes that begin with the seven magic bytes: a shorter blob, even the
    bare magic, and a blob that begins otherwise go to the deserializer
    whole. *)
Theorem ParseKeyBlob_without_prefix :
  forall d b c ctx blob params allow n,
    (length blob < kKeystoreKeyBlobPrefixSize)%nat \/
    firstn 7 blob <> kKeystoreKeyBlobMagic ->
    ParseKeyBlob d b c ctx blob params valid_ptr allow n
    = let '(error, deserialized_key) :=
        DeserializeAuthEncryptedBlob c blob in
      ParseKeyBlob_tail d b c ctx error deserialized_key params allow n.
Proof.
  intros d b c ctx blob params allow n H.
  rewrite ParseKeyBlob_deserializer_input. unfold deserializer_input.
  assert (Hno : has_keystore_prefix blob = false).
  { unfold has_keystore_prefix. destruct H as [H|H].
    - apply Nat.leb_gt in H. rewrite H. reflexivity.
    - apply andb_false_iff. right.
      destruct (std_equal kKeystoreKeyBlobMagic blob) eqn:E; [|reflexivity].
      apply std_equal_firstn in E. contradiction. }
  rewrite Hno. reflexivity.
Qed.

Lemma ParseKeyBlob_without_prefix_witness :
  ParseKeyBlob android_defs default_build
    (loopback ocb_store no_wrapped_key) (booted_context 110000 202101)
    kKeystoreKeyBlobMagic empty_set valid_ptr true 0
  = ParseKeyBlob_tail android_defs default_build
      (loopback ocb_store no_wrapped_key) (booted_context 110000 202101)
      KM_ERROR_OK (snd (ocb_store kKeystoreKeyBlobMagic)) empty_set true 0.
Proof.
  apply (ParseKeyBlob_without_prefix android_defs default_build
           (loopback ocb_store no_wrapped_key)
           (booted_context 110000 202101) kKeystoreKeyBlobMagic
           empty_set true 0).
  left. cbv. lia.
Defined.

(** X9.  [ParseKeyBlob] hands out a key only as the result of [LoadKey]:
    whenever it returns one, the key pointer was not null, the blob
    deserialized, the master key was derived, the decryption under the
    hidden authorizations of [additional_params] succeeded, the
    algorithm tag of [hw_enforced] named one of the five factories, and
    the code and key are what that factory's [LoadKey] gave for the
    decrypted material and the two deserialized sets. *)
Theorem ParseKeyBlob_key_from_LoadKey :
  forall d b c ctx blob params key_ptr allow n error key n',
    ParseKeyBlob d b c ctx blob params key_ptr allow n
      = (returns (error, Some key), n') ->
    exists payload dk master_key hidden key_material algorithm factory,
      key_ptr = valid_ptr /\
      deserializer_input blob = Some payload /\
      DeserializeAuthEncryptedBlob c payload = (KM_ERROR_OK, dk) /\
      DeriveMasterKey d b c = (KM_ERROR_OK, master_key) /\
      BuildHiddenAuthorizations d ctx params empty_set
        = (KM_ERROR_OK, hidden) /\
      DecryptKey c dk hidden master_key = (KM_ERROR_OK, key_material) /\
      GetTagValue (dk_hw_enforced dk) KM_TAG_ALGORITHM = Some algorithm /\
      GetKeyFactory d algorithm = Some factory /\
      LoadKey c factory key_material params
              (dk_hw_enforced dk) (dk_sw_enforced dk)
        = (error, Some key).
Proof.
  intros d b c ctx blob params key_ptr allow n error key n'.
  destruct key_ptr; [simpl; discriminate|].
  rewrite ParseKeyBlob_deserializer_input.
  destruct (deserializer_input blob) as [payload|]; [|discriminate].
  destruct (DeserializeAuthEncryptedBlob c payload) as [e0 dk] eqn:E0.
  unfold ParseKeyBlob_tail.
  destruct (is_ok e0) eqn:Ok0; cbn [negb]; [|discriminate].
  destruct (DeriveMasterKey d b c) as [e1 master_key] eqn:E1.
  destruct (is_ok e1) eqn:Ok1; cbn [negb]; [|discriminate].
  destruct (BuildHiddenAuthorizations d ctx params empty_set)
    as [e2 hidden] eqn:E2.
  destruct (is_ok e2) eqn:Ok2; cbn [negb]; [|discriminate].
  destruct (DecryptKey c dk hidden master_key) as [e3 key_material] eqn:E3.
  destruct (is_ok e3) eqn:Ok3; cbn [negb]; [|discriminate].
  destruct (GetTagValue (dk_hw_enforced dk) KM_TAG_ALGORITHM)
    as [algorithm|] eqn:E4; [|discriminate].
  destruct (GetKeyFactory d algorithm) as [factory|] eqn:E5; [|discriminate].
  intros [= Hload _].
  apply is_ok_true in Ok0, Ok1, Ok2, Ok3. subst.
  exists payload, dk, master_key, hidden, key_material, algorithm, factory.
  repeat split; assumption.
Qed.

Lemma ParseKeyBlob_key_from_LoadKey_witness :
  exists payload dk master_key hidden key_material algorithm factory,
    valid_ptr = valid_ptr /\
    deserializer_input [x01] = Some payload /\
    DeserializeAuthEncryptedBlob (loopback ocb_store no_wrapped_key) payload
      = (KM_ERROR_OK, dk) /\
    DeriveMasterKey android_defs default_build
                    (loopback ocb_store no_wrapped_key)
      = (KM_ERROR_OK, master_key) /\
    BuildHiddenAuthorizations android_defs (booted_context 110000 202101)
                              empty_set empty_set
      = (KM_ERROR_OK, hidden) /\
    DecryptKey (loopback ocb_store no_wrapped_key) dk hidden master_key
      = (KM_ERROR_OK, key_material) /\
    GetTagValue (dk_hw_enforced dk) KM_TAG_ALGORITHM = Some algorithm /\
    GetKeyFactory android_defs algorithm = Some factory /\
    LoadKey (loopback ocb_store no_wrapped_key) factory key_material
            empty_set (dk_hw_enforced dk) (dk_sw_enforced dk)
      = (KM_ERROR_OK, Some aes_key_at_110000).
Proof.
  apply (ParseKeyBlob_key_from_LoadKey android_defs default_build
           (loopback ocb_store no_wrapped_key)
           (booted_context 110000 202101) [x01] empty_set valid_ptr true 0
           KM_ERROR_OK aes_key_at_110000 0).
  reflexivity.
Defined.

(** X10.  Once a blob has been deserialized and decrypted, a missing
    algorithm tag in [hw_enforced] gives invalid-key-blob without a key,
    whereas an algorithm tag that names none of the five factories makes
    the call use the null factory pointer: no code is returned for it. *)
Theorem ParseKeyBlob_algorithm_tag :
  forall d b c ctx blob params allow n payload dk master_key hidden
         key_material,
    deserializer_input blob = Some payload ->
    DeserializeAuthEncryptedBlob c payload = (KM_ERROR_OK, dk) ->
    DeriveMasterKey d b c = (KM_ERROR_OK, master_key) ->
    BuildHiddenAuthorizations d ctx params empty_set
      = (KM_ERROR_OK, hidden) ->
    DecryptKey c dk hidden master_key = (KM_ERROR_OK, key_material) ->
    (GetTagValue (dk_hw_enforced dk) KM_TAG_ALGORITHM = None ->
     fst (ParseKeyBlob d b c ctx blob params valid_ptr allow n)
     = returns (KM_ERROR_INVALID_KEY_BLOB, None)) /\
    (forall algorithm,
        GetTagValue (dk_hw_enforced dk) KM_TAG_ALGORITHM = Some algorithm ->
        ~ In algorithm (supported_algorithms d) ->
        fst (ParseKeyBlob d b c ctx blob params valid_ptr allow n)
        = undefined).
Proof.
  intros d b c ctx blob params allow n payload dk master_key hidden
         key_material Hin Hdes Hmk Hhid Hdec.
  rewrite ParseKeyBlob_deserializer_input, Hin, Hdes.
  unfold ParseKeyBlob_tail. cbn [is_ok negb]. rewrite Hmk. cbn [is_ok negb].
  rewrite Hhid. cbn [is_ok negb]. rewrite Hdec. cbn [is_ok negb].
  split.
  - intros ->. reflexivity.
  - intros algorithm -> Hnot.
    assert (Hnull : GetKeyFactory d algorithm = None).
    { unfold GetKeyFactory, supported_algorithms in *. simpl in Hnot.
      repeat match goal with
             | |- context [algorithm =? ?k] =>
                 destruct (Z.eqb_spec algorithm k);
                 [exfalso; apply Hnot; subst; auto 10|]
             end.
      reflexivity. }
    rewrite Hnull. reflexivity.
Qed.

Lemma ParseKeyBlob_algorithm_tag_witness :
  fst (ParseKeyBlob android_defs default_build
         (loopback (one_key AES_GCM_WITH_SW_ENFORCED
                            sw_with_os_version empty_set) no_wrapped_key)
         (booted_context 110000 202101) [x01] empty_set valid_ptr true 0)
  = returns (KM_ERROR_INVALID_KEY_BLOB, None)
  /\
  fst (ParseKeyBlob android_defs default_build
         (loopback (one_key AES_GCM_WITH_SW_ENFORCED
                            (mk_set [mk_param KM_TAG_ALGORITHM
                                              (enumerated 2)] OK)
                            empty_set) no_wrapped_key)
         (booted_context 110000 202101) [x01] empty_set valid_ptr true 0)
  = undefined.
Proof.
  split.
  - apply (proj1 (ParseKeyBlob_algorithm_tag android_defs default_build
                    (loopback (one_key AES_GCM_WITH_SW_ENFORCED
                                       sw_with_os_version empty_set)
                              no_wrapped_key)
                    (booted_context 110000 202101) [x01] empty_set true 0
                    [x01] _ _ _ _ eq_refl eq_refl eq_refl eq_refl eq_refl)).
    reflexivity.
  - apply (proj2 (ParseKeyBlob_algorithm_tag android_defs default_build
                    (loopback (one_key AES_GCM_WITH_SW_ENFORCED
                                 (mk_set [mk_param KM_TAG_ALGORITHM
                                                   (enumerated 2)] OK)
                                 empty_set) no_wrapped_key)
                    (booted_context 110000 202101) [x01] empty_set true 0
                    [x01] _ _ _ _ eq_refl eq_refl eq_refl eq_refl eq_refl)
             2).
    + reflexivity.
    + simpl. intros H. repeat destruct H as [H|H]; try discriminate H.
      exact H.
Defined.

(** X11.  Creation and parsing agree on what binds a blob.  Take a blob
    that [CreateAuthEncryptedKeyBlob] made with success, that does not
    begin with the km_compat prefix, that the deserializer maps back to
    the encrypted key and the two sets, and whose encrypted key the
    cipher decrypts to the key material under the same hidden set and
    master key.  If [hw_enforced] carries an algorithm tag, and that tag
    names one of the five factories, then [ParseKeyBlob] on the same
    context, with additional parameters that carry the application id
    and data of the key description, returns what that factory's
    [LoadKey] makes of the original key material and the original two
    sets. *)
Theorem CreateAuthEncryptedKeyBlob_then_ParseKeyBlob :
  forall d b c ctx key_description additional_params key_material hw sw
         master_key hidden encrypted created algorithm factory allow n,
    DeriveMasterKey d b c = (KM_ERROR_OK, master_key) ->
    BuildHiddenAuthorizations d ctx key_description empty_set
      = (KM_ERROR_OK, hidden) ->
    EncryptKey c key_material AES_GCM_WITH_SW_ENFORCED hw sw hidden
               master_key = (KM_ERROR_OK, encrypted) ->
    SerializeAuthEncryptedBlob c encrypted hw sw = (KM_ERROR_OK, created) ->
    has_keystore_prefix created = false ->
    DeserializeAuthEncryptedBlob c created
      = (KM_ERROR_OK, mk_deserialized_key encrypted hw sw) ->
    DecryptKey c (mk_deserialized_key encrypted hw sw) hidden master_key
      = (KM_ERROR_OK, key_material) ->
    GetTagValue_blob additional_params KM_TAG_APPLICATION_ID
      = GetTagValue_blob key_description KM_TAG_APPLICATION_ID ->
    GetTagValue_blob additional_params KM_TAG_APPLICATION_DATA
      = GetTagValue_blob key_description KM_TAG_APPLICATION_DATA ->
    GetTagValue hw KM_TAG_ALGORITHM = Some algorithm ->
    GetKeyFactory d algorithm = Some factory ->
    CreateAuthEncryptedKeyBlob d b c ctx key_description key_material hw sw
      = (KM_ERROR_OK, Some created) /\
    fst (ParseKeyBlob d b c ctx created additional_params valid_ptr allow n)
      = returns (LoadKey c factory key_material additional_params hw sw).
Proof.
  intros d b c ctx key_description additional_params key_material hw sw
         master_key hidden encrypted created algorithm factory allow n
         Hmk Hhid Henc Hser Hpre Hdes Hdec Hid Hdata Halg Hfac.
  split.
  - unfold CreateAuthEncryptedKeyBlob. rewrite Hhid. cbn [is_ok negb].
    rewrite Hmk. cbn [is_ok negb]. rewrite Henc. cbn [is_ok negb].
    rewrite Hser. reflexivity.
  - assert (Hsame : BuildHiddenAuthorizations d ctx additional_params
                                              empty_set
                    = (KM_ERROR_OK, hidden)).
    { rewrite <- Hhid. unfold BuildHiddenAuthorizations.
      rewrite Hid, Hdata. reflexivity. }
    rewrite ParseKeyBlob_deserializer_input. unfold deserializer_input.
    rewrite Hpre, Hdes. unfold ParseKeyBlob_tail. cbn [is_ok negb].
    rewrite Hmk. cbn [is_ok negb]. rewrite Hsame. cbn [is_ok negb].
    rewrite Hdec. cbn [is_ok negb dk_hw_enforced dk_sw_enforced].
    rewrite Halg, Hfac. reflexivity.
Qed.

Lemma CreateAuthEncryptedKeyBlob_then_ParseKeyBlob_witness :
  fst (ParseKeyBlob android_defs default_build
         (loopback (one_key AES_GCM_WITH_SW_ENFORCED
                            (fst aes_sets_at_110000)
                            (snd aes_sets_at_110000)) no_wrapped_key)
         (booted_context 110000 202101) [x01; x6b] empty_set valid_ptr
         false 0)
  = returns (KM_ERROR_OK, Some aes_key_at_110000).
Proof.
  apply (proj2 (CreateAuthEncryptedKeyBlob_then_ParseKeyBlob
                  android_defs default_build
                  (loopback (one_key AES_GCM_WITH_SW_ENFORCED
                                     (fst aes_sets_at_110000)
                                     (snd aes_sets_at_110000))
                            no_wrapped_key)
                  (booted_context 110000 202101) aes_description empty_set
                  [x6b] (fst aes_sets_at_110000) (snd aes_sets_at_110000)
                  _ _ _ [x01; x6b] 32 aes_factory_ false 0
                  eq_refl eq_refl eq_refl eq_refl eq_refl eq_refl eq_refl
                  eq_refl eq_refl eq_refl eq_refl)).
Defined.

(** ** [UpgradeIntegerTag] and [UpgradeKeyBlob] *)

Lemma filter_store_integer f l n v :
  (forall p q, tag p = tag q -> f p = f q) ->
  f (nth n l empty_param) = false ->
  filter f (store_integer l n v) = filter f l.
Proof.
  intros Hf. revert n. induction l as [|p l IH]; intros n; simpl;
    [reflexivity|].
  destruct n; simpl.
  - intros Hp. rewrite (Hf (mk_param (tag p) (integer v)) p eq_refl), Hp.
    reflexivity.
  - intros Hn. rewrite (IH n Hn). reflexivity.
Qed.

Lemma store_integer_length l n v :
  length (store_integer l n v) = length l.
Proof.
  revert n. induction l as [|p l IH]; intros n; simpl; [reflexivity|].
  destruct n; simpl; [reflexivity|]. rewrite IH. reflexivity.
Qed.

(** What a successful [UpgradeIntegerTag] does to the set: it appends the
    entry, or rewrites the first entry with the tag, or touches
    nothing. *)
Lemma UpgradeIntegerTag_cases t v set ch set' ch' :
  UpgradeIntegerTag t v set ch = (true, set', ch') ->
  (stored set t = None /\
   set' = push_back set (mk_param t (integer v)) /\ ch' = true) \/
  (exists x n, stored set t = Some x /\ x < v /\
               index_of t (params set) = Some n /\
               set' = mk_set (store_integer (params set) n v) (error_ set) /\
               ch' = true) \/
  (stored set t = Some v /\ set' = set /\ ch' = ch).
Proof.
  destruct (stored set t) as [x|] eqn:E.
  - rewrite (UpgradeIntegerTag_present t v set ch x E).
    destruct (x >? v) eqn:Egt; [discriminate|].
    destruct (Z.eqb_spec x v) as [->|Hne]; simpl; intros [= <- <-].
    + right. right. auto.
    + right. left. rewrite stored_index_of in E.
      destruct (index_of t (params set)) as [n|] eqn:En; [|discriminate].
      exists x, n. split; [reflexivity|].
      split; [rewrite Z.gtb_ltb in Egt; apply Z.ltb_ge in Egt; lia|].
      split; [reflexivity|]. split; [|reflexivity].
      unfold set_integer_at, find. rewrite find_from_index_of, En.
      simpl. rewrite Nat2Z.id. reflexivity.
  - rewrite (UpgradeIntegerTag_absent t v set ch E). intros [= <- <-].
    left. auto.
Qed.

Lemma UpgradeIntegerTag_flag t v set ch set' ch' :
  UpgradeIntegerTag t v set ch = (true, set', ch') ->
  (set' = set /\ ch' = ch) \/ (set' <> set /\ ch' = true).
Proof.
  intros E.
  destruct (UpgradeIntegerTag_cases _ _ _ _ _ _ E)
    as [(Hs & -> & ->) | [(x & n & Hs & Hlt & Hn & -> & ->) |
                          (Hs & -> & ->)]].
  - right. split; [|reflexivity].
    intros H. apply (f_equal (fun s => length (params s))) in H.
    simpl in H. rewrite length_app in H. simpl in H. lia.
  - right. split; [|reflexivity]. intros H.
    apply (f_equal (fun s => u32_member (nth n (params s) empty_param)))
      in H.
    simpl in H. destruct (index_of_Some _ _ _ Hn) as [Hlen _].
    rewrite nth_store_integer_same in H by assumption. simpl in H.
    rewrite stored_index_of, Hn in Hs. injection Hs as Hs.
    unfold u32_member in H at 1. simpl in H. lia.
  - auto.
Qed.

Lemma UpgradeIntegerTag_filter f t v set ch set' ch' :
  UpgradeIntegerTag t v set ch = (true, set', ch') ->
  (forall p q, tag p = tag q -> f p = f q) ->
  (forall p, tag p = t -> f p = false) ->
  filter f (params set') = filter f (params set).
Proof.
  intros E Htag Ht.
  destruct (UpgradeIntegerTag_cases _ _ _ _ _ _ E)
    as [(Hs & -> & ->) | [(x & n & Hs & Hlt & Hn & -> & ->) |
                          (Hs & -> & ->)]].
  - simpl. rewrite filter_app. simpl.
    rewrite (Ht (mk_param t (integer v)) eq_refl). apply app_nil_r.
  - simpl. apply filter_store_integer; [assumption|].
    apply Ht. exact (proj2 (index_of_Some _ _ _ Hn)).
  - reflexivity.
Qed.

Lemma UpgradeIntegerTag_accepts t v set ch :
  (forall x, stored set t = Some x -> x <= v) ->
  exists set' ch', UpgradeIntegerTag t v set ch = (true, set', ch').
Proof.
  intros H. destruct (stored set t) as [x|] eqn:E.
  - rewrite (UpgradeIntegerTag_present t v set ch x E).
    replace (x >? v) with false.
    + destruct (negb (x =? v)); eauto.
    + symmetry. rewrite Z.gtb_ltb. apply Z.ltb_ge. auto.
  - rewrite (UpgradeIntegerTag_absent t v set ch E). eauto.
Qed.

(** X12.  [UpgradeIntegerTag] refuses only a stored value above the new
    one, and then leaves set and flag as they were.  Otherwise the set
    stores the new value under the tag, never a smaller one than before,
    and the flag is raised exactly when the set was changed: it keeps its
    value when the set is the same and is true when it is not. *)
Theorem UpgradeIntegerTag_sets_flag :
  forall t v set ch,
    let '(ok, set', ch') := UpgradeIntegerTag t v set ch in
    (ok = false ->
     set' = set /\ ch' = ch /\
     exists x, stored set t = Some x /\ x > v) /\
    (ok = true ->
     stored set' t = Some v /\
     (forall x, stored set t = Some x -> x <= v) /\
     ((set' = set /\ ch' = ch) \/ (set' <> set /\ ch' = true))).
Proof.
  intros t v set ch.
  destruct (UpgradeIntegerTag t v set ch) as [[ok set'] ch'] eqn:E.
  split; intros ->.
  - destruct (stored set t) as [x|] eqn:Es.
    + rewrite (UpgradeIntegerTag_present t v set ch x Es) in E.
      destruct (x >? v) eqn:Egt.
      * injection E as <- <-. repeat split. exists x. split; [reflexivity|].
        rewrite Z.gtb_ltb in Egt. apply Z.ltb_lt in Egt. lia.
      * destruct (negb (x =? v)); discriminate E.
    + rewrite (UpgradeIntegerTag_absent t v set ch Es) in E. discriminate E.
  - split; [exact (UpgradeIntegerTag_stores _ _ _ _ _ _ E)|].
    split; [|exact (UpgradeIntegerTag_flag _ _ _ _ _ _ E)].
    intros x Hx.
    destruct (UpgradeIntegerTag_cases _ _ _ _ _ _ E)
      as [(Hs & _) | [(y & n & Hs & Hlt & _) | (Hs & _)]].
    + congruence.
    + assert (x = y) by congruence. lia.
    + assert (x = v) by congruence. lia.
Qed.

Lemma UpgradeIntegerTag_sets_flag_witness :
  stored (snd (fst (UpgradeIntegerTag KM_TAG_OS_VERSION 120000
                      (fst aes_sets_at_110000) false)))
         KM_TAG_OS_VERSION
  = Some 120000.
Proof.
  pose proof (UpgradeIntegerTag_sets_flag KM_TAG_OS_VERSION 120000
                (fst aes_sets_at_110000) false) as H.
  destruct (UpgradeIntegerTag KM_TAG_OS_VERSION 120000
              (fst aes_sets_at_110000) false) as [[ok set'] ch'] eqn:E.
  assert (Hok : ok = true).
  { apply (f_equal (fun r => fst (fst r))) in E. vm_compute in E.
    symmetry. exact E. }
  destruct H as [_ H]. destruct (H Hok) as [Hstored _]. exact Hstored.
Defined.

Lemma not_a_version_tag p q : tag p = tag q -> not_a_version p = not_a_version q.
Proof. unfold not_a_version. intros ->. reflexivity. Qed.

Lemma UpgradeKeyBlob_versions_effect ctx key hw sw changed :
  UpgradeKeyBlob_versions ctx key = Some (hw, sw, changed) ->
  filter not_a_version (params hw)
    = filter not_a_version (params (hw_enforced key)) /\
  filter not_a_version (params sw)
    = filter not_a_version (params (sw_enforced key)) /\
  length (params sw) = length (params (sw_enforced key)) /\
  (changed = false <-> hw = hw_enforced key /\ sw = sw_enforced key).
Proof.
  unfold UpgradeKeyBlob_versions.
  destruct (if boot_os_version_ ctx =? 0 then _ else _) as [sw1 ch1] eqn:Hrule.
  destruct (UpgradeIntegerTag KM_TAG_OS_VERSION (boot_os_version_ ctx)
              (hw_enforced key) ch1) as [[ok1 hw1] ch2] eqn:E1.
  destruct ok1; simpl; [|discriminate].
  destruct (UpgradeIntegerTag KM_TAG_OS_PATCHLEVEL (boot_os_patchlevel_ ctx)
              hw1 ch2) as [[ok2 hw2] ch3] eqn:E2.
  destruct ok2; simpl; [|discriminate].
  intros [= <- <- <-].
  assert (Hsw : (sw1 = sw_enforced key /\ ch1 = false) \/
                (sw1 <> sw_enforced key /\ ch1 = true /\
                 exists n,
                   index_of KM_TAG_OS_VERSION (params (sw_enforced key))
                     = Some n /\
                   sw1 = mk_set (store_integer (params (sw_enforced key)) n
                                               (boot_os_version_ ctx))
                                (error_ (sw_enforced key)))).
  { destruct (boot_os_version_ ctx =? 0) eqn:E0.
    - cbv zeta in Hrule.
      destruct (stored (sw_enforced key) KM_TAG_OS_VERSION) as [x|] eqn:Es.
      + pose proof Es as Es'. unfold stored, GetTagValue in Es'.
        destruct (find (sw_enforced key) KM_TAG_OS_VERSION =? -1);
          [discriminate|].
        injection Es' as Ex. rewrite Ex in Hrule. cbn [negb andb] in Hrule.
        rewrite stored_index_of in Es.
        destruct (index_of KM_TAG_OS_VERSION (params (sw_enforced key)))
          as [n|] eqn:En; [|discriminate].
        injection Es as Es.
        destruct (Z.eqb_spec x (boot_os_version_ ctx)) as [Hx|Hx];
          cbn [negb] in Hrule; injection Hrule as <- <-; [auto|].
        right. unfold set_integer_at, find.
        rewrite find_from_index_of, En. simpl. rewrite Nat2Z.id.
        split; [|split; [reflexivity|exists n; auto]].
        intros H.
        apply (f_equal (fun s => u32_member (nth n (params s) empty_param)))
          in H.
        simpl in H. destruct (index_of_Some _ _ _ En) as [Hlen _].
        rewrite nth_store_integer_same in H by assumption.
        unfold u32_member in H at 1. simpl in H. congruence.
      + unfold stored, GetTagValue in Es.
        destruct (find (sw_enforced key) KM_TAG_OS_VERSION =? -1);
          [|discriminate].
        cbn [negb andb] in Hrule. injection Hrule as <- <-. auto.
    - injection Hrule as <- <-. auto. }
  assert (Hnv : forall p, tag p = KM_TAG_OS_VERSION -> not_a_version p = false).
  { intros p Hp. unfold not_a_version. rewrite Hp. reflexivity. }
  assert (Hnp : forall p, tag p = KM_TAG_OS_PATCHLEVEL ->
                          not_a_version p = false).
  { intros p Hp. unfold not_a_version. rewrite Hp. reflexivity. }
  split; [|split; [|split]].
  - rewrite (UpgradeIntegerTag_filter _ _ _ _ _ _ _ E2 not_a_version_tag Hnp).
    exact (UpgradeIntegerTag_filter _ _ _ _ _ _ _ E1 not_a_version_tag Hnv).
  - destruct Hsw as [[-> _] | (_ & _ & n & Hn & ->)]; [reflexivity|].
    simpl. apply filter_store_integer; [exact not_a_version_tag|].
    apply Hnv. exact (proj2 (index_of_Some _ _ _ Hn)).
  - destruct Hsw as [[-> _] | (_ & _ & n & Hn & ->)]; [reflexivity|].
    simpl. apply store_integer_length.
  - assert (Hne : KM_TAG_OS_PATCHLEVEL <> KM_TAG_OS_VERSION) by discriminate.
    split.
    + intros Hch. subst ch3.
      destruct (UpgradeIntegerTag_flag _ _ _ _ _ _ E2) as [[H2 C2]|[_ H]];
        [|discriminate H].
      subst hw2 ch2.
      destruct (UpgradeIntegerTag_flag _ _ _ _ _ _ E1) as [[H1 C1]|[_ H]];
        [|discriminate H].
      subst hw1 ch1.
      destruct Hsw as [[-> _] | (_ & H & _)]; [auto|discriminate H].
    + intros [Hhw Hs].
      destruct Hsw as [[_ ->] | (H & _)]; [|contradiction].
      pose proof (UpgradeIntegerTag_stores _ _ _ _ _ _ E1) as S1.
      pose proof (UpgradeIntegerTag_stores _ _ _ _ _ _ E2) as S2.
      pose proof (UpgradeIntegerTag_keeps_other _ _ _ _ _ _ _ Hne E2) as K.
      rewrite Hhw, S1 in K.
      rewrite (UpgradeIntegerTag_fixed _ _ _ false K) in E1.
      injection E1 as <- <-.
      rewrite Hhw in S2.
      rewrite (UpgradeIntegerTag_fixed _ _ _ false S2) in E2.
      injection E2 as _ <-. reflexivity.
Qed.

(** X13.  An upgrade that is not refused keeps the key: the blob is
    re-encrypted, with the key material as parsed and under the caller's
    [upgrade_params], exactly when the version update altered one of the
    two sets; the new [hw_enforced] stores the boot OS version and patch
    level, and every entry of either set that is not a version entry is
    kept, in order. *)
Theorem UpgradeKeyBlob_keeps_the_key :
  forall d b c ctx blob upgrade_params n key n',
    ParseKeyBlob d b c ctx blob upgrade_params valid_ptr true n
      = (returns (KM_ERROR_OK, Some key), n') ->
    (forall x, stored (hw_enforced key) KM_TAG_OS_VERSION = Some x ->
               x <= boot_os_version_ ctx) ->
    (forall x, stored (hw_enforced key) KM_TAG_OS_PATCHLEVEL = Some x ->
               x <= boot_os_patchlevel_ ctx) ->
    exists hw sw (changed : bool),
      UpgradeKeyBlob d b c ctx blob upgrade_params n
      = (if changed
         then returns (CreateAuthEncryptedKeyBlob d b c ctx upgrade_params
                         (key_material key) hw sw)
         else returns (KM_ERROR_OK, None), n') /\
      (changed = false <-> hw = hw_enforced key /\ sw = sw_enforced key) /\
      stored hw KM_TAG_OS_VERSION = Some (boot_os_version_ ctx) /\
      stored hw KM_TAG_OS_PATCHLEVEL = Some (boot_os_patchlevel_ ctx) /\
      filter not_a_version (params hw)
        = filter not_a_version (params (hw_enforced key)) /\
      filter not_a_version (params sw)
        = filter not_a_version (params (sw_enforced key)) /\
      length (params sw) = length (params (sw_enforced key)).
Proof.
  intros d b c ctx blob upgrade_params n key n' Hparse Hv Hp.
  assert (Hsome : exists hw sw changed,
             UpgradeKeyBlob_versions ctx key = Some (hw, sw, changed)).
  { unfold UpgradeKeyBlob_versions.
    destruct (if boot_os_version_ ctx =? 0 then _ else _) as [sw1 ch1].
    destruct (UpgradeIntegerTag_accepts KM_TAG_OS_VERSION _ _ ch1 Hv)
      as (hw1 & ch2 & E1).
    rewrite E1. simpl.
    assert (Hne : KM_TAG_OS_VERSION <> KM_TAG_OS_PATCHLEVEL) by discriminate.
    pose proof (UpgradeIntegerTag_keeps_other _ _ _ _ _ _ _ Hne E1) as K.
    rewrite <- K in Hp.
    destruct (UpgradeIntegerTag_accepts KM_TAG_OS_PATCHLEVEL _ _ ch2 Hp)
      as (hw2 & ch3 & E2).
    rewrite E2. simpl. eauto. }
  destruct Hsome as (hw & sw & changed & Hver).
  exists hw, sw, changed.
  destruct (UpgradeKeyBlob_versions_effect _ _ _ _ _ Hver)
    as (Fhw & Fsw & Lsw & Hexact).
  destruct (UpgradeKeyBlob_versions_settles _ _ _ _ _ Hver) as (Sv & Sp & _).
  rewrite (UpgradeKeyBlob_after_parse _ _ _ _ _ _ _ _ _ Hparse), Hver.
  split; [destruct changed; reflexivity|].
  split; [exact Hexact|].
  repeat split; assumption.
Qed.

Lemma UpgradeKeyBlob_keeps_the_key_witness :
  exists hw sw (changed : bool),
    UpgradeKeyBlob android_defs default_build
      (loopback (one_key AES_GCM_WITH_SW_ENFORCED
                         (fst aes_sets_at_110000) (snd aes_sets_at_110000))
                no_wrapped_key)
      (booted_context 120000 202201) [x01] aes_description 0
    = (if changed
       then returns (CreateAuthEncryptedKeyBlob android_defs default_build
                       (loopback (one_key AES_GCM_WITH_SW_ENFORCED
                                          (fst aes_sets_at_110000)
                                          (snd aes_sets_at_110000))
                                 no_wrapped_key)
                       (booted_context 120000 202201) aes_description
                       (key_material aes_key_at_110000) hw sw)
       else returns (KM_ERROR_OK, None), 0) /\
    stored hw KM_TAG_OS_VERSION = Some 120000.
Proof.
  destruct (UpgradeKeyBlob_keeps_the_key android_defs default_build
              (loopback (one_key AES_GCM_WITH_SW_ENFORCED
                                 (fst aes_sets_at_110000)
                                 (snd aes_sets_at_110000)) no_wrapped_key)
              (booted_context 120000 202201) [x01] aes_description 0
              aes_key_at_110000 0 eq_refl)
    as (hw & sw & changed & Hrun & _ & Hv & _).
  - intros x Hx. vm_compute in Hx. injection Hx as <-. simpl. lia.
  - intros x Hx. vm_compute in Hx. injection Hx as <-. simpl. lia.
  - exists hw, sw, changed. split; assumption.
Defined.

(** ** RNG seeding *)

Lemma SeedRngIfNeeded_step ctx hw_rand :
  fst (SeedRngIfNeeded ctx hw_rand)
    = rng_initialized_ ctx || (hw_rand =? 0) /\
  snd (SeedRngIfNeeded ctx hw_rand)
    = set_rng_initialized
        (set_calls_since_reseed ctx
           (if rng_initialized_ ctx
            then int_wrap (calls_since_reseed_ ctx + 1)
            else calls_since_reseed_ ctx))
        (rng_initialized_ ctx || (hw_rand =? 0)).
Proof.
  unfold SeedRngIfNeeded, ShouldReseedRng, ReseedRng.
  destruct ctx as [init calls v p vs rs key st locked hash]. simpl.
  destruct init; simpl.
  - destruct (Z.rem (int_wrap (calls + 1)) kCallsBetweenRngReseeds =? 0);
      simpl; [destruct (hw_rand =? 0)|]; simpl; split; reflexivity.
  - destruct (hw_rand =? 0); simpl; split; reflexivity.
Qed.

(** X14.  [SeedRngIfNeeded] answers whether the RNG is initialized after
    the call: it was before, or this call's hardware read succeeded.  A
    failed read never clears the flag, an uninitialized RNG is reseeded on
    every call without counting it, and nothing but the flag and the
    counter changes.  Over any sequence of calls the RNG is therefore
    initialized exactly if it was at the start or one read succeeded. *)
Theorem SeedRngIfNeeded_initializes :
  (forall ctx hw_rand,
      fst (SeedRngIfNeeded ctx hw_rand)
        = rng_initialized_ ctx || (hw_rand =? 0) /\
      snd (SeedRngIfNeeded ctx hw_rand)
        = set_rng_initialized
            (set_calls_since_reseed ctx
               (if rng_initialized_ ctx
                then int_wrap (calls_since_reseed_ ctx + 1)
                else calls_since_reseed_ ctx))
            (rng_initialized_ ctx || (hw_rand =? 0))) /\
  (forall hw_answers ctx,
      rng_initialized_ (seed_all hw_answers ctx)
      = rng_initialized_ ctx || existsb (fun a => a =? 0) hw_answers).
Proof.
  split; [exact SeedRngIfNeeded_step|].
  unfold seed_all.
  induction hw_answers as [|a l IH]; intros ctx; simpl.
  - rewrite orb_false_r. reflexivity.
  - rewrite IH. rewrite (proj2 (SeedRngIfNeeded_step ctx a)). simpl.
    rewrite orb_assoc. reflexivity.
Qed.

(** ** Boot parameters, system version and what they report *)

(** X15.  The root of trust is set at most once: whatever the context
    and the arguments, a call of [SetBootParams] that follows another one
    returns root-of-trust-already-set and leaves the context as the
    earlier call left it. *)
Theorem SetBootParams_only_once :
  forall ctx v1 p1 key1 state1 locked1 hash1 v2 p2 key2 state2 locked2 hash2,
    let ctx1 :=
      snd (SetBootParams ctx v1 p1 key1 state1 locked1 hash1) in
    SetBootParams ctx1 v2 p2 key2 state2 locked2 hash2
    = (KM_ERROR_ROOT_OF_TRUST_ALREADY_SET, ctx1).
Proof.
  intros. subst ctx1. unfold SetBootParams.
  destruct (root_of_trust_set_ ctx) eqn:E.
  - simpl. rewrite E. reflexivity.
  - destruct (is_verified_or_self_signed state1);
      [destruct (negb (buffer_size key1 =? 0))|]; reflexivity.
Qed.

(** X16.  After the first [SetBootParams], [GetVerifiedBootParams]
    reports the boot hash as passed and, for a verified or self-signed
    state that came with a boot key, the key, the state and the lock flag
    as passed.  It never reports a locked device without such a state and
    a boot key.  The OS version and patch level passed to
    [SetBootParams] are ignored: the system version stays as it was. *)
Theorem SetBootParams_then_GetVerifiedBootParams :
  forall ctx os_version os_patchlevel key state locked hash,
    root_of_trust_set_ ctx = false ->
    let ctx1 :=
      snd (SetBootParams ctx os_version os_patchlevel key state locked
                         hash) in
    let vb := snd (GetVerifiedBootParams ctx1) in
    fst (GetVerifiedBootParams ctx1) = KM_ERROR_OK /\
    vb_verified_boot_hash vb = hash /\
    (is_verified_or_self_signed state = true -> key <> [] ->
     vb = mk_vb_params key hash state locked) /\
    (vb_device_locked vb = true ->
     is_verified_or_self_signed state = true /\ key <> [] /\
     locked = true) /\
    GetSystemVersion ctx1 = GetSystemVersion ctx.
Proof.
  intros ctx os_version os_patchlevel key state locked hash Hfirst ctx1 vb.
  subst vb ctx1. unfold GetVerifiedBootParams, GetSystemVersion,
                        SetBootParams, buffer_size.
  rewrite Hfirst.
  destruct (is_verified_or_self_signed state); destruct key as [|k key];
    simpl; repeat split; try reflexivity; try congruence;
    intros; try discriminate; try congruence.
Qed.

Lemma SetBootParams_then_GetVerifiedBootParams_witness :
  snd (GetVerifiedBootParams
         (snd (SetBootParams (booted_context 110000 202101) 0 0 [x42]
                             KM_VERIFIED_BOOT_SELF_SIGNED true [x99])))
  = mk_vb_params [x42] [x99] KM_VERIFIED_BOOT_SELF_SIGNED true.
Proof.
  destruct (SetBootParams_then_GetVerifiedBootParams
              (booted_context 110000 202101) 0 0 [x42]
              KM_VERIFIED_BOOT_SELF_SIGNED true [x99] eq_refl)
    as (_ & _ & H & _).
  apply H; [reflexivity | discriminate].
Defined.

(** X17.  The system version is set once: after a first
    [SetSystemVersion] the context reports the version and patch level of
    that call, and a later call returns success without changing what is
    reported. *)
Theorem SetSystemVersion_first_call_wins :
  forall b ctx v1 p1 v2 p2,
    version_info_set_ ctx = false ->
    let ctx1 := snd (SetSystemVersion b ctx v1 p1) in
    let ctx2 := snd (SetSystemVersion b ctx1 v2 p2) in
    GetSystemVersion ctx1 = (v1, p1) /\
    fst (SetSystemVersion b ctx1 v2 p2) = KM_ERROR_OK /\
    GetSystemVersion ctx2 = (v1, p1).
Proof.
  intros b ctx v1 p1 v2 p2 H ctx1 ctx2. subst ctx2 ctx1.
  unfold SetSystemVersion, GetSystemVersion, SetBootParams. rewrite H.
  cbn [negb version_info_set_ root_of_trust_set_ boot_os_version_
       boot_os_patchlevel_].
  destruct (KEYMASTER_DEBUG b); cbn [andb];
    destruct (root_of_trust_set_ ctx); cbn [negb snd fst];
    repeat split; reflexivity.
Qed.

Lemma SetSystemVersion_first_call_wins_witness :
  GetSystemVersion
    (snd (SetSystemVersion default_build
            (snd (SetSystemVersion default_build (seeded_context 0)
                                   110000 202101))
            120000 202201))
  = (110000, 202101).
Proof.
  apply (SetSystemVersion_first_call_wins default_build (seeded_context 0)
           110000 202101 120000 202201 eq_refl).
Defined.

(** X18.  In a build with [KEYMASTER_DEBUG], [SetSystemVersion] on a
    context without root of trust installs the fake one (the 32-byte test
    key, state verified, device locked), after which [SetBootParams] is
    refused; in a build without it, [SetSystemVersion] leaves the root of
    trust alone. *)
Theorem SetSystemVersion_debug_root_of_trust :
  forall b ctx os_version os_patchlevel,
    let ctx1 := snd (SetSystemVersion b ctx os_version os_patchlevel) in
    (KEYMASTER_DEBUG b = true -> root_of_trust_set_ ctx = false ->
     snd (GetVerifiedBootParams ctx1)
       = mk_vb_params fake_root_of_trust [] KM_VERIFIED_BOOT_VERIFIED true /\
     forall v p key state locked hash,
       SetBootParams ctx1 v p key state locked hash
       = (KM_ERROR_ROOT_OF_TRUST_ALREADY_SET, ctx1)) /\
    (KEYMASTER_DEBUG b = false ->
     GetVerifiedBootParams ctx1 = GetVerifiedBootParams ctx /\
     root_of_trust_set_ ctx1 = root_of_trust_set_ ctx).
Proof.
  intros b ctx os_version os_patchlevel ctx1. subst ctx1.
  unfold SetSystemVersion. split.
  - intros -> Hroot.
    destruct ctx as [init calls v0 p0 vs rs key0 st0 locked0 hash0].
    simpl in Hroot. subst rs.
    destruct vs; (split; [reflexivity | intros; reflexivity]).
  - intros ->. cbn [andb snd].
    destruct (negb (version_info_set_ ctx)); split; reflexivity.
Qed.

Lemma SetSystemVersion_debug_root_of_trust_witness :
  SetBootParams
    (snd (SetSystemVersion (mk_build 16 false false false true)
                           (seeded_context 0) 110000 202101))
    0 0 [x42] KM_VERIFIED_BOOT_UNVERIFIED false []
  = (KM_ERROR_ROOT_OF_TRUST_ALREADY_SET,
     snd (SetSystemVersion (mk_build 16 false false false true)
                           (seeded_context 0) 110000 202101))
  /\
  root_of_trust_set_
    (snd (SetSystemVersion default_build (seeded_context 0) 110000 202101))
  = false.
Proof.
  split.
  - apply (proj1 (SetSystemVersion_debug_root_of_trust
                    (mk_build 16 false false false true)
                    (seeded_context 0) 110000 202101) eq_refl eq_refl).
  - apply (proj2 (SetSystemVersion_debug_root_of_trust default_build
                    (seeded_context 0) 110000 202101) eq_refl).
Defined.

(** ** Algorithms and factories *)

(** X19.  The algorithms [GetSupportedAlgorithms] lists, five entries,
    are exactly those for which [GetKeyFactory] has a factory; for any
    other algorithm [GetKeyFactory] and [GetOperationFactory] return
    null. *)
Theorem GetKeyFactory_supported_algorithms :
  forall d c algorithm purpose,
    snd (GetSupportedAlgorithms d) = 5 /\
    (In algorithm (fst (GetSupportedAlgorithms d)) <->
     GetKeyFactory d algorithm <> None) /\
    (~ In algorithm (fst (GetSupportedAlgorithms d)) ->
     GetOperationFactory d c algorithm purpose = None).
Proof.
  intros d c algorithm purpose.
  assert (Hiff : In algorithm (supported_algorithms d) <->
                 GetKeyFactory d algorithm <> None).
  { unfold GetKeyFactory, supported_algorithms. simpl.
    repeat match goal with
           | |- context [algorithm =? ?k] =>
               destruct (Z.eqb_spec algorithm k);
               [split; [discriminate | intros _; subst; auto 10]|]
           end.
    split; [|congruence].
    intros H. repeat destruct H as [H|H]; congruence. }
  split; [reflexivity|]. split; [exact Hiff|].
  intros Hnot. unfold GetOperationFactory.
  destruct (GetKeyFactory d algorithm) eqn:E; [|reflexivity].
  exfalso. apply Hnot. apply Hiff. simpl. congruence.
Qed.

Lemma GetKeyFactory_supported_algorithms_witness :
  GetKeyFactory android_defs 33 <> None /\
  GetOperationFactory android_defs (loopback ocb_store no_wrapped_key) 2 1
  = None.
Proof.
  destruct (GetKeyFactory_supported_algorithms android_defs
              (loopback ocb_store no_wrapped_key) 33 1) as (_ & H & _).
  destruct (GetKeyFactory_supported_algorithms android_defs
              (loopback ocb_store no_wrapped_key) 2 1) as (_ & _ & H').
  split.
  - apply H. simpl. auto 10.
  - apply H'. simpl. intros K.
    repeat destruct K as [K|K]; try discriminate K. exact K.
Defined.

(** ** Attestation keys and chains *)

(** X20.  With the storage manager at hand and no software fallback in
    the build, [GetAttestationKey] and [GetAttestationChain] return what
    secure storage holds for the algorithm's slot, code and all: the RSA
    slot for RSA, the ECDSA slot for EC. *)
Theorem GetAttestation_reads_slot :
  forall d b c,
    SecureStorageManager_get_instance c = valid_ptr ->
    KEYMASTER_SOFT_ATTESTATION_FALLBACK b = false ->
    KM_ALGORITHM_EC d <> KM_ALGORITHM_RSA d ->
    GetAttestationKey d b c (KM_ALGORITHM_RSA d)
      = ReadKeyFromStorage c kRsa /\
    GetAttestationKey d b c (KM_ALGORITHM_EC d)
      = ReadKeyFromStorage c kEcdsa /\
    GetAttestationChain d b c (KM_ALGORITHM_RSA d)
      = ReadCertChainFromStorage c kRsa /\
    GetAttestationChain d b c (KM_ALGORITHM_EC d)
      = ReadCertChainFromStorage c kEcdsa.
Proof.
  intros d b c Hmgr Hfb Hne.
  unfold GetAttestationKey, GetAttestationChain, attestation_key_slot.
  rewrite Hmgr, Hfb, !Z.eqb_refl.
  destruct (Z.eqb_spec (KM_ALGORITHM_EC d) (KM_ALGORITHM_RSA d));
    [contradiction|].
  cbn [andb].
  destruct (ReadKeyFromStorage c kRsa), (ReadKeyFromStorage c kEcdsa),
    (ReadCertChainFromStorage c kRsa), (ReadCertChainFromStorage c kEcdsa).
  repeat split; reflexivity.
Qed.

Lemma GetAttestation_reads_slot_witness :
  GetAttestationKey android_defs default_build
    (loopback ocb_store no_wrapped_key) 3
  = (KM_ERROR_OK, [x2a]).
Proof.
  destruct (GetAttestation_reads_slot android_defs default_build
              (loopback ocb_store no_wrapped_key) eq_refl eq_refl)
    as (_ & H & _).
  - simpl. lia.
  - exact H.
Defined.

(** X21.  For RSA and EC.  Without a storage manager,
    [GetAttestationKey] fails with secure-hw-communication-failed and an
    empty key even in a build with the software fallback, whereas
    [GetAttestationChain] then returns the software chain.  With a
    storage manager and the fallback, a failed key read is replaced by
    the software key lookup: its error with an empty key when it fails,
    the software key when it succeeds and the copy of the key gets its
    storage, memory-allocation-failed with an empty key when the copy
    does not; a failed or empty chain read is replaced by the software
    chain. *)
Theorem GetAttestation_fallback :
  forall d b c algorithm,
    (algorithm = KM_ALGORITHM_RSA d \/ algorithm = KM_ALGORITHM_EC d) ->
    (SecureStorageManager_get_instance c = null_ptr ->
     GetAttestationKey d b c algorithm
       = (KM_ERROR_SECURE_HW_COMMUNICATION_FAILED, []) /\
     GetAttestationChain d b c algorithm
       = if KEYMASTER_SOFT_ATTESTATION_FALLBACK b
         then getAttestationChain c algorithm
         else (KM_ERROR_SECURE_HW_COMMUNICATION_FAILED, [])) /\
    (SecureStorageManager_get_instance c = valid_ptr ->
     KEYMASTER_SOFT_ATTESTATION_FALLBACK b = true ->
     exists slot,
       attestation_key_slot d algorithm = Some slot /\
       (fst (ReadKeyFromStorage c slot) <> KM_ERROR_OK ->
        let software := getAttestationKey c algorithm in
        (fst software <> KM_ERROR_OK ->
         GetAttestationKey d b c algorithm = (fst software, [])) /\
        (fst software = KM_ERROR_OK ->
         KeymasterKeyBlob_allocates c (snd software) = true ->
         GetAttestationKey d b c algorithm = software) /\
        (fst software = KM_ERROR_OK ->
         KeymasterKeyBlob_allocates c (snd software) = false ->
         GetAttestationKey d b c algorithm
         = (KM_ERROR_MEMORY_ALLOCATION_FAILED, []))) /\
       (fst (ReadCertChainFromStorage c slot) <> KM_ERROR_OK \/
        snd (ReadCertChainFromStorage c slot) = [] ->
        GetAttestationChain d b c algorithm
        = getAttestationChain c algorithm)).
Proof.
  intros d b c algorithm Halg.
  assert (Hslot : exists slot, attestation_key_slot d algorithm = Some slot).
  { unfold attestation_key_slot.
    destruct (Z.eqb_spec algorithm (KM_ALGORITHM_RSA d)); [eauto|].
    destruct (Z.eqb_spec algorithm (KM_ALGORITHM_EC d)); [eauto|].
    destruct Halg; contradiction. }
  destruct Hslot as (slot & Hslot).
  unfold GetAttestationKey, GetAttestationChain. rewrite Hslot. split.
  - intros ->. split; [reflexivity|].
    destruct (KEYMASTER_SOFT_ATTESTATION_FALLBACK b); reflexivity.
  - intros -> ->. exists slot. split; [reflexivity|]. split.
    + destruct (ReadKeyFromStorage c slot) as [e k]. simpl. intros He.
      assert (Hnot : is_ok e = false)
        by (destruct e; try reflexivity; contradiction).
      rewrite Hnot. cbn [negb].
      destruct (getAttestationKey c algorithm) as [e' k']. simpl.
      split; [|split].
      * intros He'.
        assert (Hnot' : is_ok e' = false)
          by (destruct e'; try reflexivity; contradiction).
        rewrite Hnot'. reflexivity.
      * intros -> ->. reflexivity.
      * intros -> ->. reflexivity.
    + destruct (ReadCertChainFromStorage c slot) as [e chain]. simpl.
      intros [He | ->].
      * assert (Hnot : is_ok e = false)
          by (destruct e; try reflexivity; contradiction).
        rewrite Hnot. reflexivity.
      * simpl. rewrite orb_true_r. reflexivity.
Qed.

Lemma GetAttestation_fallback_witness :
  (GetAttestationKey android_defs fallback_build storage_closed 1
   = (KM_ERROR_SECURE_HW_COMMUNICATION_FAILED, []) /\
   GetAttestationChain android_defs fallback_build storage_closed 1
   = (KM_ERROR_OK, [[x2b]])) /\
  GetAttestationKey android_defs fallback_build storage_failing 3
  = (KM_ERROR_OK, [x2b]) /\
  GetAttestationKey android_defs fallback_build
                    (out_of_memory storage_failing) 3
  = (KM_ERROR_MEMORY_ALLOCATION_FAILED, []) /\
  GetAttestationChain android_defs fallback_build storage_failing 3
  = (KM_ERROR_OK, [[x2b]]).
Proof.
  split.
  - apply (proj1 (GetAttestation_fallback android_defs fallback_build
                    storage_closed 1 (or_introl eq_refl)) eq_refl).
  - destruct (proj2 (GetAttestation_fallback android_defs fallback_build
                       storage_failing 3 (or_intror eq_refl))
                    eq_refl eq_refl) as (slot & Hslot & Hkey & Hchain).
    destruct (proj2 (GetAttestation_fallback android_defs fallback_build
                       (out_of_memory storage_failing) 3
                       (or_intror eq_refl))
                    eq_refl eq_refl) as (slot' & Hslot' & Hkey' & _).
    injection Hslot as <-. injection Hslot' as <-. split; [|split].
    + apply Hkey; [discriminate | reflexivity | reflexivity].
    + apply Hkey'; [discriminate | reflexivity | reflexivity].
    + apply Hchain. right. reflexivity.
Defined.

(** ** [UnwrapKey] *)

Lemma byte_xor_zero a : byte_xor a x00 = a.
Proof.
  unfold byte_xor. rewrite <- (Byte.of_bits_to_bits a) at 2.
  destruct (Byte.to_bits a)
    as (a0 & a1 & a2 & a3 & a4 & a5 & a6 & a7).
  simpl. rewrite !xorb_false_r. reflexivity.
Qed.

Lemma byte_xor_twice a m : byte_xor (byte_xor a m) m = a.
Proof.
  unfold byte_xor at 1. unfold byte_xor.
  rewrite <- (Byte.of_bits_to_bits a) at 2.
  destruct (Byte.to_bits a)
    as (a0 & a1 & a2 & a3 & a4 & a5 & a6 & a7).
  destruct (Byte.to_bits m)
    as (m0 & m1 & m2 & m3 & m4 & m5 & m6 & m7).
  rewrite Byte.to_bits_of_bits.
  repeat match goal with
         | |- context [xorb (xorb ?x ?y) ?y] =>
             replace (xorb (xorb x y) y) with x
               by (destruct x, y; reflexivity)
         end.
  reflexivity.
Qed.

(** X22.  The masking step of [UnwrapKey], on a transport key and a
    masking key of the same length, keeps the length, is undone by
    masking once more with the same key, and leaves the transport key as
    it is when the masking key is all zero. *)
Theorem xor_with_masking_key :
  forall transport_key masking_key,
    length transport_key = length masking_key ->
    length (xor_with transport_key masking_key) = length transport_key /\
    xor_with (xor_with transport_key masking_key) masking_key
      = transport_key /\
    xor_with transport_key (repeat x00 (length masking_key))
      = transport_key.
Proof.
  induction transport_key as [|t ts IH]; intros [|m ms] Hlen;
    try discriminate Hlen; simpl; [auto|].
  injection Hlen as Hlen. destruct (IH ms Hlen) as (H1 & H2 & H3).
  rewrite H1, H2, H3, byte_xor_twice, byte_xor_zero. auto.
Qed.

Lemma xor_with_masking_key_witness :
  xor_with [xaa; xbb] (repeat x00 (length [x00; x00])) = [xaa; xbb].
Proof.
  apply (xor_with_masking_key [xaa; xbb] [x00; x00] eq_refl).
Defined.

(** Splits the goal along the conditionals of [UnwrapKey], keeping the
    equation of each test. *)
Ltac walk_UnwrapKey :=
  repeat
    (match goal with
     | |- context [match ?x with _ => _ end] =>
         match type of x with
         | sumbool _ _ => fail 1
         | _ => destruct x eqn:?
         end
     end; cbn [negb]);
  try discriminate.

(** X23.  [UnwrapKey] assigns the wrapped key material as its last step
    only: when the output holds key material, the call returned success,
    or it returned memory-allocation-failed and the material is empty;
    either way the other two outputs are what the wrapped-key parser
    returned with success. *)
Theorem UnwrapKey_assigns_material_last :
  forall d b c ctx wrapped_key_blob wrapping_key_blob wrapping_key_params
         masking_key material_ptr n error out n' material,
    UnwrapKey d b c ctx wrapped_key_blob wrapping_key_blob
              wrapping_key_params masking_key material_ptr n
      = (returns (error, out), n') ->
    wrapped_key_material out = Some material ->
    (error = KM_ERROR_OK \/
     (error = KM_ERROR_MEMORY_ALLOCATION_FAILED /\ material = [])) /\
    exists wk,
      parse_wrapped_key c wrapped_key_blob = (KM_ERROR_OK, wk) /\
      wrapped_key_params out = Some (wk_params wk) /\
      wrapped_key_format out = Some (wk_format wk).
Proof.
  intros d b c ctx wrapped_key_blob wrapping_key_blob wrapping_key_params
         masking_key material_ptr n error out n' material.
  unfold UnwrapKey, UnwrapKey_transport, UnwrapKey_plaintext, no_outputs.
  walk_UnwrapKey;
    intros [= <- <- <-] Hmat; simpl in Hmat; try discriminate Hmat;
    injection Hmat as <-;
    repeat match goal with
           | H : negb (is_ok ?e) = false |- _ =>
               apply negb_false_iff, is_ok_true in H; subst e
           end;
    (split;
     [first [left; reflexivity | right; split; reflexivity]
     |eexists; split; [reflexivity|]; split; reflexivity]).
Qed.

Lemma UnwrapKey_assigns_material_last_witness :
  ((KM_ERROR_OK = KM_ERROR_OK \/
    (KM_ERROR_OK = KM_ERROR_MEMORY_ALLOCATION_FAILED /\
     [xc0; xc1; xd0] = [])) /\
   exists wk,
     parse_wrapped_key
       (loopback (one_key AES_GCM_WITH_SW_ENFORCED wrapping_hw empty_set)
                 wrapped_container) [x77]
     = (KM_ERROR_OK, wk) /\
     Some (wk_params wrapped_container) = Some (wk_params wk) /\
     Some (wk_format wrapped_container) = Some (wk_format wk))
  /\
  (KM_ERROR_MEMORY_ALLOCATION_FAILED = KM_ERROR_OK \/
   (KM_ERROR_MEMORY_ALLOCATION_FAILED = KM_ERROR_MEMORY_ALLOCATION_FAILED
    /\ @nil byte = [])).
Proof.
  split.
  - apply (UnwrapKey_assigns_material_last android_defs default_build
             (loopback (one_key AES_GCM_WITH_SW_ENFORCED wrapping_hw
                                empty_set) wrapped_container)
             (booted_context 110000 202101) [x77] [x01]
             oaep_sha256_params [x00; x00] valid_ptr 0 KM_ERROR_OK
             (mk_outputs (Some (wk_params wrapped_container))
                         (Some (wk_format wrapped_container))
                         (Some [xc0; xc1; xd0]))
             0 [xc0; xc1; xd0] eq_refl eq_refl).
  - apply (UnwrapKey_assigns_material_last android_defs default_build
             (out_of_memory
                (loopback (one_key AES_GCM_WITH_SW_ENFORCED wrapping_hw
                                   empty_set) wrapped_container))
             (booted_context 110000 202101) [x77] [x01]
             oaep_sha256_params [x00; x00] valid_ptr 0
             KM_ERROR_MEMORY_ALLOCATION_FAILED
             (mk_outputs (Some (wk_params wrapped_container))
                         (Some (wk_format wrapped_container))
                         (Some []))
             0 [] eq_refl eq_refl).
Defined.

(** X24.  When the wrapping key's operation factory hands out no
    operation and leaves the error at success, [UnwrapKey] returns
    success although it has produced no key material: the outputs hold
    the parser's parameters and format only. *)
Theorem UnwrapKey_null_operation :
  forall d b c ctx wrapped_key_blob wrapping_key_blob wrapping_key_params
         masking_key n key n' wk operation_factory,
    ParseKeyBlob d b c ctx wrapping_key_blob wrapping_key_params valid_ptr
                 (ParseKeyBlob_default_allow_ocb c) n
      = (returns (KM_ERROR_OK, Some key), n') ->
    AuthProxy_Contains (authorizations key) KM_TAG_PURPOSE
                       (KM_PURPOSE_WRAP d) = true ->
    AuthProxy_Contains (authorizations key) KM_TAG_DIGEST
                       (KM_DIGEST_SHA_2_256 d) = true ->
    AuthProxy_Contains (authorizations key) KM_TAG_PADDING
                       (KM_PAD_RSA_OAEP d) = true ->
    Contains wrapping_key_params KM_TAG_DIGEST (KM_DIGEST_SHA_2_256 d)
      = true ->
    Contains wrapping_key_params KM_TAG_PADDING (KM_PAD_RSA_OAEP d)
      = true ->
    parse_wrapped_key c wrapped_key_blob = (KM_ERROR_OK, wk) ->
    GetOperationFactory_of c (key_factory key) (KM_PURPOSE_DECRYPT d)
      = Some operation_factory ->
    CreateOperation c operation_factory key wrapping_key_params
      = (KM_ERROR_OK, None) ->
    UnwrapKey d b c ctx wrapped_key_blob wrapping_key_blob
              wrapping_key_params masking_key valid_ptr n
    = (returns (KM_ERROR_OK,
                mk_outputs (Some (wk_params wk)) (Some (wk_format wk))
                           None), n').
Proof.
  intros d b c ctx wrapped_key_blob wrapping_key_blob wrapping_key_params
         masking_key n key n' wk operation_factory
         Hparse H1 H2 H3 H4 H5 Hwk Hfac Hop.
  unfold UnwrapKey. rewrite Hparse. cbn [is_ok negb].
  rewrite H1, H2, H3, H4, H5. cbn [negb]. rewrite Hwk. cbn [is_ok negb].
  rewrite Hfac, Hop. reflexivity.
Qed.

Lemma UnwrapKey_null_operation_witness :
  UnwrapKey android_defs default_build no_operation
    (booted_context 110000 202101) [x77] [x01] oaep_sha256_params
    [x00; x00] valid_ptr 0
  = (returns (KM_ERROR_OK,
              mk_outputs (Some (wk_params wrapped_container))
                         (Some (wk_format wrapped_container)) None), 0).
Proof.
  apply (UnwrapKey_null_operation android_defs default_build no_operation
           (booted_context 110000 202101) [x77] [x01] oaep_sha256_params
           [x00; x00] 0
           (mk_key [x6b] wrapping_hw empty_set rsa_factory_) 0
           wrapped_container tt
           eq_refl eq_refl eq_refl eq_refl eq_refl eq_refl eq_refl eq_refl
           eq_refl).
Defined.

(** ** Blob creation *)

(** X25.  [CreateAuthEncryptedKeyBlob] assigns the blob exactly when the
    hidden authorizations were built, the master key was derived and the
    encryption succeeded; the blob is then the serializer's output for
    the encrypted key and the two sets, and the code is the
    serializer's, so a blob is assigned even when serialization reports
    an error. *)
Theorem CreateAuthEncryptedKeyBlob_assigns_blob :
  forall d b c ctx key_description key_material hw sw error created,
    CreateAuthEncryptedKeyBlob d b c ctx key_description key_material hw sw
      = (error, Some created)
    <->
    exists hidden master_key encrypted,
      BuildHiddenAuthorizations d ctx key_description empty_set
        = (KM_ERROR_OK, hidden) /\
      DeriveMasterKey d b c = (KM_ERROR_OK, master_key) /\
      EncryptKey c key_material AES_GCM_WITH_SW_ENFORCED hw sw hidden
                 master_key = (KM_ERROR_OK, encrypted) /\
      SerializeAuthEncryptedBlob c encrypted hw sw = (error, created).
Proof.
  intros d b c ctx key_description key_material hw sw error created.
  unfold CreateAuthEncryptedKeyBlob.
  destruct (BuildHiddenAuthorizations d ctx key_description empty_set)
    as [e0 hidden].
  destruct (is_ok e0) eqn:Ok0; cbn [negb].
  - apply is_ok_true in Ok0. subst e0.
    destruct (DeriveMasterKey d b c) as [e1 master_key].
    destruct (is_ok e1) eqn:Ok1; cbn [negb].
    + apply is_ok_true in Ok1. subst e1.
      destruct (EncryptKey c key_material AES_GCM_WITH_SW_ENFORCED hw sw
                           hidden master_key) as [e2 encrypted] eqn:Eenc.
      destruct (is_ok e2) eqn:Ok2; cbn [negb].
      * apply is_ok_true in Ok2. subst e2.
        destruct (SerializeAuthEncryptedBlob c encrypted hw sw)
          as [e3 serialized] eqn:Eser.
        split.
        -- intros [= <- <-]. exists hidden, master_key, encrypted. auto.
        -- intros (h & mk & enc & [= <-] & [= <-] & Henc & Hser).
           rewrite Eenc in Henc. injection Henc as <-.
           rewrite Eser in Hser. injection Hser as <- <-. reflexivity.
      * split; [discriminate|].
        intros (h & mk & enc & [= <-] & [= <-] & Henc & _).
        rewrite Eenc in Henc. injection Henc as He _. subst e2.
        discriminate Ok2.
    + split; [discriminate|].
      intros (h & mk & enc & _ & [= He _] & _). subst e1.
      discriminate Ok1.
  - split; [discriminate|].
    intros (h & mk & enc & [= He _] & _). subst e0. discriminate Ok0.
Qed.

Lemma CreateAuthEncryptedKeyBlob_assigns_blob_witness :
  exists hidden master_key encrypted,
    BuildHiddenAuthorizations android_defs (booted_context 110000 202101)
                              aes_description empty_set
      = (KM_ERROR_OK, hidden) /\
    DeriveMasterKey android_defs default_build
                    (loopback ocb_store no_wrapped_key)
      = (KM_ERROR_OK, master_key) /\
    EncryptKey (loopback ocb_store no_wrapped_key) [x6b]
               AES_GCM_WITH_SW_ENFORCED empty_set empty_set hidden
               master_key = (KM_ERROR_OK, encrypted) /\
    SerializeAuthEncryptedBlob (loopback ocb_store no_wrapped_key)
                               encrypted empty_set empty_set
      = (KM_ERROR_OK, [x01; x6b]).
Proof.
  apply (proj1 (CreateAuthEncryptedKeyBlob_assigns_blob android_defs
                  default_build (loopback ocb_store no_wrapped_key)
                  (booted_context 110000 202101) aes_description [x6b]
                  empty_set empty_set KM_ERROR_OK [x01; x6b])).
  reflexivity.
Defined.

(** X26.  [CreateKeyBlob] checks the description first: when an entry
    does not pass, no blob is assigned and the code is not success,
    whatever the collaborators would do.  Whenever a blob is assigned,
    [SetAuthorizations] returned success with the two sets that go back
    to the caller, no entry of the description was forbidden or
    rejected, code and blob are those of [CreateAuthEncryptedKeyBlob]
    for these two sets, and [hw_enforced] stores the origin and the boot
    versions. *)
Theorem CreateKeyBlob_checks_description :
  forall d b c ctx key_description origin key_material hw0 sw0,
    let '(error, created, hw, sw) :=
      CreateKeyBlob d b c ctx key_description origin key_material
                    hw0 sw0 in
    (forallb (passes b) (params key_description) = false ->
     created = None /\ error <> KM_ERROR_OK) /\
    (forall new_blob,
        created = Some new_blob ->
        SetAuthorizations d b ctx key_description origin hw0 sw0
          = (KM_ERROR_OK, hw, sw) /\
        forallb (passes b) (params key_description) = true /\
        CreateAuthEncryptedKeyBlob d b c ctx key_description key_material
                                   hw sw = (error, Some new_blob) /\
        stored hw KM_TAG_ORIGIN = Some origin /\
        stored hw KM_TAG_OS_VERSION = Some (boot_os_version_ ctx) /\
        stored hw KM_TAG_OS_PATCHLEVEL = Some (boot_os_patchlevel_ ctx)).
Proof.
  intros d b c ctx key_description origin key_material hw0 sw0.
  unfold CreateKeyBlob.
  destruct (SetAuthorizations_all_pass d b ctx key_description origin
              hw0 sw0) as [Hall Hok].
  destruct (SetAuthorizations d b ctx key_description origin hw0 sw0)
    as [[e hw] sw] eqn:Eset.
  simpl in Hok.
  destruct (is_ok e) eqn:Ee; cbn [negb].
  - apply is_ok_true in Ee. subst e. specialize (Hok eq_refl).
    destruct (CreateAuthEncryptedKeyBlob d b c ctx key_description
                key_material hw sw) as [e1 created] eqn:Ecreate.
    split.
    + intros Hfalse. rewrite Hok in Hfalse. discriminate Hfalse.
    + intros new_blob ->. split; [reflexivity|]. split; [exact Hok|].
      split; [exact Ecreate|].
      specialize (Hall Hok). injection Hall as -> _.
      assert (Hclean : forall t,
                t = KM_TAG_ORIGIN \/ t = KM_TAG_OS_VERSION \/
                t = KM_TAG_OS_PATCHLEVEL ->
                index_of t (hw_added d b (params key_description)) = None).
      { intros t Ht. apply index_of_None. intros p Hp.
        apply In_hw_added in Hp as (en & _ & Hp).
        apply entry_adds_hw in Hp as (-> & _ & H1 & H2 & H3 & _).
        destruct Ht as [-> | [-> | ->]]; assumption. }
      rewrite !stored_after by (apply Hclean; auto).
      repeat split; reflexivity.
  - split.
    + intros _. split; [reflexivity|]. intros ->. discriminate Ee.
    + intros new_blob H. discriminate H.
Qed.

Lemma CreateKeyBlob_checks_description_witness :
  CreateAuthEncryptedKeyBlob android_defs default_build
    (loopback ocb_store no_wrapped_key) (booted_context 110000 202101)
    aes_description [x6b]
    (fst aes_sets_at_110000) (snd aes_sets_at_110000)
  = (KM_ERROR_OK, Some [x01; x6b]).
Proof.
  pose proof (CreateKeyBlob_checks_description android_defs default_build
                (loopback ocb_store no_wrapped_key)
                (booted_context 110000 202101) aes_description 0 [x6b]
                empty_set empty_set) as H.
  destruct (CreateKeyBlob android_defs default_build
              (loopback ocb_store no_wrapped_key)
              (booted_context 110000 202101) aes_description 0 [x6b]
              empty_set empty_set) as [[[e created] hw] sw] eqn:E.
  vm_compute in E. injection E as <- <- <- <-.
  destruct H as [_ H].
  destruct (H [x01; x6b] eq_refl) as (_ & _ & Hcreate & _).
  exact Hcreate.
Defined.

(** ** The auth-token key and confirmation tokens *)

(** X27.  [GetAuthTokenKey] answers with success or with
    [KM_ERROR_UNKNOWN_ERROR] only.  After a success the key is cached:
    every later call returns the same key with success whatever the
    enforcement policy would answer.  After a failure no key is assigned
    and the key stays uninitialized, whatever code the policy gave. *)
Theorem GetAuthTokenKey_caches :
  forall st GetHmacKey error key st',
    GetAuthTokenKey st GetHmacKey = (error, key, st') ->
    (error = KM_ERROR_OK /\
     key = Some (auth_token_key_ st') /\
     auth_token_key_initialized_ st' = true /\
     forall GetHmacKey',
       GetAuthTokenKey st' GetHmacKey' = (KM_ERROR_OK, key, st'))
    \/
    (error = KM_ERROR_UNKNOWN_ERROR /\
     key = None /\
     auth_token_key_initialized_ st' = false /\
     fst (GetHmacKey (auth_token_key_ st)) <> KM_ERROR_OK).
Proof.
  intros st GetHmacKey error key st'.
  unfold GetAuthTokenKey, InitializeAuthTokenKey.
  destruct (auth_token_key_initialized_ st) eqn:Einit.
  - intros [= <- <- <-]. left.
    split; [reflexivity|]. split; [reflexivity|].
    split; [exact Einit|].
    intros GetHmacKey'. rewrite Einit. reflexivity.
  - destruct (GetHmacKey (auth_token_key_ st)) as [e buffer].
    destruct (is_ok e) eqn:Eok; cbn [negb]; intros [= <- <- <-].
    + left. split; [reflexivity|].
      split; [reflexivity|]. split; [reflexivity|].
      intros GetHmacKey'. reflexivity.
    + right. split; [reflexivity|]. split; [reflexivity|].
      split; [reflexivity|]. simpl. intros ->. discriminate Eok.
Qed.

Lemma GetAuthTokenKey_caches_witness :
  GetAuthTokenKey (mk_auth_token_key true [x11; x22]) failing_policy
  = (KM_ERROR_OK, Some [x11; x22], mk_auth_token_key true [x11; x22]).
Proof.
  destruct (GetAuthTokenKey_caches (mk_auth_token_key false [x00; x00])
              two_byte_policy KM_ERROR_OK (Some [x11; x22])
              (mk_auth_token_key true [x11; x22]) eq_refl)
    as [(_ & _ & _ & H) | (H & _)].
  - exact (H failing_policy).
  - discriminate H.
Defined.

(** X28.  For a confirmation token of [kConfirmationTokenSize] bytes,
    [CheckConfirmationToken] returns success exactly when the auth-token
    key is available and the HMAC of the input under that key is the
    token; when the key is available and the HMAC is another digest, it
    returns [KM_ERROR_NO_USER_CONFIRMATION]. *)
Theorem CheckConfirmationToken_accepts :
  forall kConfirmationTokenSize HMAC st GetHmacKey input_data
         confirmation_token,
    length confirmation_token = kConfirmationTokenSize ->
    (fst (CheckConfirmationToken kConfirmationTokenSize HMAC st GetHmacKey
                                 input_data confirmation_token)
     = KM_ERROR_OK
     <->
     exists key,
       snd (fst (GetAuthTokenKey st GetHmacKey)) = Some key /\
       HMAC key input_data = Some confirmation_token) /\
    (forall key computed_hash,
       snd (fst (GetAuthTokenKey st GetHmacKey)) = Some key ->
       HMAC key input_data = Some computed_hash ->
       computed_hash <> confirmation_token ->
       fst (CheckConfirmationToken kConfirmationTokenSize HMAC st
                                   GetHmacKey input_data
                                   confirmation_token)
       = KM_ERROR_NO_USER_CONFIRMATION).
Proof.
  intros size HMAC st GetHmacKey input_data token Hlen. subst size.
  set (size := length token).
  unfold CheckConfirmationToken.
  destruct (GetAuthTokenKey st GetHmacKey) as [[error key] st'] eqn:Eget.
  destruct (GetAuthTokenKey_caches _ _ _ _ _ Eget)
    as [(-> & -> & _ & _) | (-> & -> & _ & _)]; simpl.
  - assert (Hcmp : forall h,
              negb (length h =? size)%nat
              || negb (memcmp_s h token size =? 0) = false <-> h = token).
    { intros h. unfold memcmp_s. split.
      - intros H. apply orb_false_iff in H as [H1 H2].
        apply negb_false_iff, Nat.eqb_eq in H1.
        destruct (list_eq_dec Byte.byte_eq_dec (firstn size h)
                              (firstn size token)) as [E|E];
          [|discriminate H2].
        unfold size in E at 2. rewrite <- H1 in E.
        rewrite !firstn_all in E. exact E.
      - intros ->. unfold size at 1. rewrite Nat.eqb_refl. simpl.
        destruct (list_eq_dec Byte.byte_eq_dec (firstn size token)
                              (firstn size token)) as [E|E];
          [reflexivity | contradiction]. }
    split.
    + split.
      * destruct (HMAC (auth_token_key_ st') input_data) as [h|] eqn:Eh;
          [|discriminate].
        destruct (negb (length h =? size)%nat
                  || negb (memcmp_s h token size =? 0)) eqn:Ec;
          [discriminate|].
        intros _. apply Hcmp in Ec. subst h.
        exists (auth_token_key_ st'). auto.
      * intros (key & [= <-] & ->).
        rewrite (proj2 (Hcmp token) eq_refl). reflexivity.
    + intros key h [= <-] -> Hne.
      destruct (negb (length h =? size)%nat
                || negb (memcmp_s h token size =? 0)) eqn:Ec;
        [reflexivity|].
      apply Hcmp in Ec. contradiction.
  - split.
    + split; [discriminate|]. intros (key & Hkey & _). discriminate Hkey.
    + intros key h Hkey. discriminate Hkey.
Qed.

Lemma CheckConfirmationToken_accepts_witness :
  fst (CheckConfirmationToken 3 concat_mac
         (mk_auth_token_key false [x00; x00]) two_byte_policy [x33]
         [x11; x22; x33]) = KM_ERROR_OK /\
  fst (CheckConfirmationToken 3 concat_mac
         (mk_auth_token_key false [x00; x00]) two_byte_policy [x34]
         [x11; x22; x33]) = KM_ERROR_NO_USER_CONFIRMATION.
Proof.
  split.
  - apply (proj2 (proj1 (CheckConfirmationToken_accepts 3 concat_mac
                           (mk_auth_token_key false [x00; x00])
                           two_byte_policy [x33] [x11; x22; x33]
                           eq_refl))).
    exists [x11; x22]. split; reflexivity.
  - apply (proj2 (CheckConfirmationToken_accepts 3 concat_mac
                    (mk_auth_token_key false [x00; x00])
                    two_byte_policy [x34] [x11; x22; x33] eq_refl)
                 [x11; x22] [x11; x22; x34]);
      [reflexivity | reflexivity | discriminate].
Defined.
